(** * Gateway connection authorization and Azure AD token brokering

    A shallow embedding of these pieces of the gateway:

    - the OIDC verifier of [src/gateway/oidc.ts] ([createOidcVerifier] and
      its helpers [extractUserClaim], [checkDomainRestriction],
      [checkEmailAllowlist]);
    - the connection authorizer [authorizeGatewayConnect];
    - the Azure AD token broker of [agents/tools/azure-obo.ts]
      ([getCachedToken], [setCachedToken], [acquireTokenSilent],
      [exchangeTokenOBO], [acquireDownstreamToken]);
    - the token-exchange proxy [handleGleanAuthHttpRequest];
    - the flex-desk tool and the meeting-room tool, which use the broker.

    JavaScript strings are modelled as [string], holding the text in UTF-8
    as string literals do: a character is one to four bytes.  White space,
    which [trim] removes, is the set of ECMAScript; the case tables behind
    [toLowerCase] belong to the engine, and the function is an input of
    whatever calls it, like the other external collaborators (the [jose]
    verification primitive, [fetch], [Date.now], the URL parser). *)

From Stdlib Require Import ZArith Ascii String List Bool Lia.
From stdpp Require Import base gmap strings pretty sorting.

(** ** JavaScript string primitives *)

Module Js.

(** [!s] is false exactly for the non-empty strings. *)
Definition truthy (s : string) : bool :=
  match s with
  | EmptyString => false
  | String _ _ => true
  end.

(** The UTF-8 encoding of a code point. *)
Definition utf8 (cp : N) : string :=
  if (cp <? 0x80)%N then String (ascii_of_N cp) ""
  else if (cp <? 0x800)%N then
    String (ascii_of_N (0xC0 + cp / 0x40))
      (String (ascii_of_N (0x80 + cp mod 0x40)) "")
  else if (cp <? 0x10000)%N then
    String (ascii_of_N (0xE0 + cp / 0x1000))
      (String (ascii_of_N (0x80 + (cp / 0x40) mod 0x40))
         (String (ascii_of_N (0x80 + cp mod 0x40)) ""))
  else
    String (ascii_of_N (0xF0 + cp / 0x40000))
      (String (ascii_of_N (0x80 + (cp / 0x1000) mod 0x40))
         (String (ascii_of_N (0x80 + (cp / 0x40) mod 0x40))
            (String (ascii_of_N (0x80 + cp mod 0x40)) ""))).

(** The code points that [trim] removes: the WhiteSpace and LineTerminator
    productions of ECMAScript (TAB, LF, VT, FF, CR, the space separators
    of Unicode, LS, PS, and the byte order mark). *)
Definition whiteSpaceCodePoints : list N :=
  [ 0x9; 0xA; 0xB; 0xC; 0xD; 0x20; 0xA0; 0x1680;
    0x2000; 0x2001; 0x2002; 0x2003; 0x2004; 0x2005; 0x2006; 0x2007; 0x2008; 0x2009; 0x200A;
    0x2028; 0x2029; 0x202F; 0x205F; 0x3000; 0xFEFF ]%N.

Definition whiteSpace : list string := map utf8 whiteSpaceCodePoints.

(** The same characters with their bytes in reverse, for reading a string
    from its end. *)
Definition whiteSpaceReversed : list string := map String.rev whiteSpace.

Definition isOneOf (chars : list string) (s : string) : bool :=
  existsb (String.eqb s) chars.

(** Drop the characters of [chars] (each of one to three bytes) that [s]
    starts with. *)
Fixpoint strip (chars : list string) (s : string) : string :=
  match s with
  | EmptyString => EmptyString
  | String a r1 =>
      if isOneOf chars (String a "") then strip chars r1
      else
        match r1 with
        | EmptyString => s
        | String b r2 =>
            if isOneOf chars (String a (String b "")) then strip chars r2
            else
              match r2 with
              | EmptyString => s
              | String c r3 =>
                  if isOneOf chars (String a (String b (String c ""))) then strip chars r3
                  else s
              end
        end
  end.

Definition trimStart (s : string) : string := strip whiteSpace s.

Definition trimEnd (s : string) : string :=
  String.rev (strip whiteSpaceReversed (String.rev s)).

(** [String.prototype.trim]. *)
Definition trim (s : string) : string := trimEnd (trimStart s).

(** [s] starts with one of [chars]. *)
Definition leads (chars : list string) (s : string) : bool :=
  match s with
  | EmptyString => false
  | String a r1 =>
      isOneOf chars (String a "")
      || match r1 with
         | EmptyString => false
         | String b r2 =>
             isOneOf chars (String a (String b ""))
             || match r2 with
                | EmptyString => false
                | String c _ => isOneOf chars (String a (String b (String c "")))
                end
         end
  end.

(** [s] is made of characters of [chars] only. *)
Inductive madeOf (chars : list string) : string -> Prop :=
| madeOf_nil : madeOf chars ""
| madeOf_cons (c s : string) : In c chars -> madeOf chars s -> madeOf chars (c +:+ s).

(** A string of white space, the empty one included. *)
Definition blank (s : string) : Prop := madeOf whiteSpace s.

(** [String.prototype.toLowerCase], the engine's: an input. *)
Definition ToLowerCase : Type := string -> string.

(** [String.prototype.endsWith]: compare the end of [s] with [search];
    false when [search] is longer than [s]. *)
Definition endsWith (s search : string) : bool :=
  let n := String.length s in
  let m := String.length search in
  (m <=? n)%nat && String.eqb (substring (n - m) m s) search.

(** [s.replace(/\/+$/, "")]: drop every trailing slash. *)
Fixpoint dropSlashes (s : string) : string :=
  match s with
  | EmptyString => EmptyString
  | String c s' => if Ascii.eqb c "/"%char then dropSlashes s' else s
  end.

Definition stripTrailingSlashes (s : string) : string :=
  String.rev (dropSlashes (String.rev s)).

(** [a ?? b]. *)
Definition nullish {A} (a : option A) (b : A) : A :=
  match a with
  | Some x => x
  | None => b
  end.

(** [s.split(sep)] for a separator of one character: the pieces between
    the separators, in order; there is always at least one piece. *)
Fixpoint split (sep : ascii) (s : string) : list string :=
  match s with
  | EmptyString => [EmptyString]
  | String c s' =>
      if Ascii.eqb c sep then EmptyString :: split sep s'
      else
        match split sep s' with
        | piece :: pieces => String c piece :: pieces
        | [] => [String c EmptyString]
        end
  end.

(** [s.includes(search)] *)
Fixpoint includes (s search : string) : bool :=
  String.prefix search s
  || match s with
     | EmptyString => false
     | String _ s' => includes s' search
     end.

(** The order of [Array.prototype.sort] without a comparator: strings are
    compared by UTF-16 code units.  On UTF-8 this is the order of the
    bytes, except that a character outside the Basic Multilingual Plane
    (lead byte F0-F4, a surrogate pair in UTF-16) comes before the
    characters U+E000-U+FFFF (lead bytes EE and EF).  [codeUnitRank] moves
    these two lead bytes behind all others. *)
Definition codeUnitRank (c : ascii) : ascii :=
  if Ascii.eqb c "238"%char then "254"%char
  else if Ascii.eqb c "239"%char then "255"%char
  else if Ascii.eqb c "254"%char then "238"%char
  else if Ascii.eqb c "255"%char then "239"%char
  else c.

Fixpoint ranked (s : string) : string :=
  match s with
  | EmptyString => EmptyString
  | String c s' => String (codeUnitRank c) (ranked s')
  end.

Definition codeUnitLe (s t : string) : Prop := String.le (ranked s) (ranked t).

Definition codeUnitLe_dec : RelDecision codeUnitLe :=
  fun s t => String.le_dec (ranked s) (ranked t).

(** [toLowerCase] on ASCII text, where only the letters A-Z change: what
    the fixtures, which are ASCII, are run with. *)
Definition lowerChar (c : ascii) : ascii :=
  let n := nat_of_ascii c in
  if (65 <=? n)%nat && (n <=? 90)%nat then ascii_of_nat (n + 32) else c.

Fixpoint asciiLowerCase (s : string) : string :=
  match s with
  | EmptyString => EmptyString
  | String c s' => String (lowerChar c) (asciiLowerCase s')
  end.

End Js.

(** ** The OIDC verifier ([src/gateway/oidc.ts]) *)

Module Oidc.

(** A claim value of a verified payload, by its [typeof].  The verifier
    inspects strings only; arrays and objects are kept opaque. *)
Inductive JsonValue : Type :=
| JNull
| JBool (b : bool)
| JNumber (n : Z)
| JString (s : string)
| JStructured.

(** [JWTPayload]: the claims object.  A key that is not bound reads as
    [undefined]. *)
Abbreviation JWTPayload := (gmap string JsonValue).

Record OidcVerifierConfig : Type := {
  issuer : string;
  audience : string;
  jwksUri : option string;
  userClaim : option string;
  allowedDomains : option (list string);
  allowedEmails : option (list string)
}.

Inductive OidcVerifyResult : Type :=
| VerifyOk (user : string) (claims : JWTPayload)
| VerifyFail (reason : string).

(** What a call of [jwtVerify] can do: resolve with the payload, or reject
    with a value.  Only the [code] property of a rejected value is read,
    and it is read as [""] when the value is not an object or has no such
    property. *)
Inductive Thrown : Type :=
| ErrWithCode (code : string)
| ErrWithoutCode.

Inductive JwtVerifyOutcome : Type :=
| Verified (payload : JWTPayload)
| Threw (err : Thrown).

(** [jwtVerify(token, JWKS, {issuer, audience})], with the key set fixed
    at construction time: token, expected issuer and expected audience
    give the outcome. *)
Definition JwtVerify : Type := string -> string -> string -> JwtVerifyOutcome.

Definition extractUserClaim (payload : JWTPayload) (claim : string) : option string :=
  match payload !! claim with
  | Some (JString val) =>
      if Js.truthy (Js.trim val) then Some (Js.trim val) else None
  | _ => None
  end.

Definition checkDomainRestriction (email : option string) (allowedDomains : list string) : bool :=
  match email with
  | None => false
  | Some email =>
      if Js.truthy email
      then existsb (fun d => Js.endsWith email ("@" +:+ d)) allowedDomains
      else false
  end.

Definition checkEmailAllowlist (toLowerCase : Js.ToLowerCase) (email : option string)
    (allowedEmails : list string) : bool :=
  match email with
  | None => false
  | Some email =>
      if Js.truthy email
      then existsb (fun e => String.eqb (toLowerCase e) (toLowerCase email)) allowedEmails
      else false
  end.

(** [config.allowedDomains?.length]: truthy for a present, non-empty
    array. *)
Definition hasLength (l : option (list string)) : bool :=
  match l with
  | Some (_ :: _) => true
  | _ => false
  end.

Definition codeOf (err : Thrown) : string :=
  match err with
  | ErrWithCode code => code
  | ErrWithoutCode => ""
  end.

(** [typeof payload.email === "string" ? payload.email : undefined] *)
Definition emailOf (payload : JWTPayload) : option string :=
  match payload !! "email" with
  | Some (JString s) => Some s
  | _ => None
  end.

Section Verifier.

Variable toLowerCase : Js.ToLowerCase.
Variable jwtVerify : JwtVerify.
Variable config : OidcVerifierConfig.

Definition effectiveUserClaim : string := Js.nullish (userClaim config) "sub".

Definition normalizedIssuer : string := Js.stripTrailingSlashes (issuer config).

(** The [verify] method of the object returned by [createOidcVerifier]. *)
Definition verify (token : string) : OidcVerifyResult :=
  match jwtVerify token normalizedIssuer (audience config) with
  | Verified payload =>
      match extractUserClaim payload effectiveUserClaim with
      | None => VerifyFail "oidc_user_claim_missing"
      | Some user =>
          let email := emailOf payload in
          if hasLength (allowedDomains config)
             && negb (checkDomainRestriction email (Js.nullish (allowedDomains config) []))
          then VerifyFail "oidc_domain_not_allowed"
          else if hasLength (allowedEmails config)
                  && negb (checkEmailAllowlist toLowerCase email
                             (Js.nullish (allowedEmails config) []))
          then VerifyFail "oidc_email_not_allowed"
          else VerifyOk user payload
      end
  | Threw err =>
      let code := codeOf err in
      if String.eqb code "ERR_JWT_EXPIRED" then VerifyFail "oidc_token_expired"
      else if String.eqb code "ERR_JWS_SIGNATURE_VERIFICATION_FAILED"
      then VerifyFail "oidc_signature_invalid"
      else VerifyFail "oidc_token_invalid"
  end.

End Verifier.

(** *** What the checks are meant to decide *)

(** The configured user claim is a string that is not made of white space
    only (and so not empty). *)
Definition userClaimUsable (payload : JWTPayload) (claim : string) : Prop :=
  exists val, payload !! claim = Some (JString val) /\ ~ Js.blank val.

(** The email claim is a string ending with ["@"] followed by one of the
    domains (compared as written, case included). *)
Definition emailInDomains (payload : JWTPayload) (domains : list string) : Prop :=
  exists email d pre,
    payload !! "email" = Some (JString email) /\ In d domains /\ email = pre +:+ "@" +:+ d.

(** The email claim is a string equal to one of the entries up to letter
    case, that is, after lower-casing both. *)
Definition emailMatches (toLowerCase : Js.ToLowerCase) (payload : JWTPayload)
    (emails : list string) : Prop :=
  exists email e,
    payload !! "email" = Some (JString email) /\ In e emails
    /\ toLowerCase e = toLowerCase email.

(** The same, for an email claim that is not the empty string. *)
Definition emailInAllowlist (toLowerCase : Js.ToLowerCase) (payload : JWTPayload)
    (emails : list string) : Prop :=
  exists email e,
    payload !! "email" = Some (JString email) /\ email <> "" /\ In e emails
    /\ toLowerCase e = toLowerCase email.

(** The domain step lets the payload through. *)
Definition domainStepPasses (config : OidcVerifierConfig) (payload : JWTPayload) : Prop :=
  hasLength (allowedDomains config) = false
  \/ emailInDomains payload (Js.nullish (allowedDomains config) []).

Definition setAllowedDomains (v : option (list string)) (config : OidcVerifierConfig)
  : OidcVerifierConfig :=
  {| issuer := issuer config; audience := audience config; jwksUri := jwksUri config;
     userClaim := userClaim config; allowedDomains := v;
     allowedEmails := allowedEmails config |}.

Definition setAllowedEmails (v : option (list string)) (config : OidcVerifierConfig)
  : OidcVerifierConfig :=
  {| issuer := issuer config; audience := audience config; jwksUri := jwksUri config;
     userClaim := userClaim config; allowedDomains := allowedDomains config;
     allowedEmails := v |}.

(** *** The fixtures of the verifier's test suite *)

Definition testConfig : OidcVerifierConfig :=
  {| issuer := "http://127.0.0.1:4000/"; audience := "test-client-id";
     jwksUri := Some "http://127.0.0.1:4000/.well-known/jwks.json";
     userClaim := None; allowedDomains := None; allowedEmails := None |}.

Definition claimsOf (sub email : option string) : JWTPayload :=
  let withSub : JWTPayload :=
    match sub with
    | Some s => {[ "sub" := JString s ]}
    | None => ∅
    end in
  match email with
  | Some e => <["email" := JString e]> withSub
  | None => withSub
  end.

(** A verification primitive standing for the test key set: each token is
    named after what [jwtVerify] finds in it. *)
Definition testJwtVerify : JwtVerify :=
  fun token iss aud =>
    if negb (String.eqb iss "http://127.0.0.1:4000" && String.eqb aud "test-client-id")
    then Threw (ErrWithCode "ERR_JWT_CLAIM_VALIDATION_FAILED")
    else if String.eqb token "expired" then Threw (ErrWithCode "ERR_JWT_EXPIRED")
    else if String.eqb token "forged" then Threw (ErrWithCode "ERR_JWS_SIGNATURE_VERIFICATION_FAILED")
    else if String.eqb token "unknown-key" then Threw (ErrWithCode "ERR_JWKS_NO_MATCHING_KEY")
    else if String.eqb token "wrong-audience" then Threw (ErrWithCode "ERR_JWT_CLAIM_VALIDATION_FAILED")
    else if String.eqb token "not-a-jwt" then Threw (ErrWithCode "ERR_JWS_INVALID")
    else if String.eqb token "key-set-unreachable" then Threw ErrWithoutCode
    else if String.eqb token "good" then Verified (claimsOf (Some "user-123") (Some "user@mycompany.com"))
    else if String.eqb token "other-domain" then Verified (claimsOf (Some "user-456") (Some "user@other.com"))
    else if String.eqb token "no-email" then Verified (claimsOf (Some "user-789") None)
    else if String.eqb token "no-sub" then Verified (claimsOf None (Some "user@example.com"))
    else if String.eqb token "blank-sub" then Verified (claimsOf (Some "  ") (Some "user@other.com"))
    else if String.eqb token "nbsp-sub"
    then Verified (claimsOf (Some (Js.utf8 0xA0 +:+ " " +:+ Js.utf8 0x3000)) (Some "user@other.com"))
    else if String.eqb token "padded-sub"
    then Verified (claimsOf (Some (Js.utf8 0xA0 +:+ "alice" +:+ Js.utf8 0x2003))
                     (Some "alice@mycompany.com"))
    else if String.eqb token "empty-email" then Verified (claimsOf (Some "user-0") (Some ""))
    else if String.eqb token "admin" then Verified (claimsOf (Some "user-2") (Some "Admin@Example.com"))
    else Verified (claimsOf (Some "user-3") (Some "random@example.com")).

(** *** The domain part of an email *)

(** What follows the last occurrence of [c] in [s]. *)
Fixpoint afterLast (c : ascii) (s : string) : option string :=
  match s with
  | EmptyString => None
  | String a s' =>
      match afterLast c s' with
      | Some t => Some t
      | None => if Ascii.eqb a c then Some s' else None
      end
  end.

Definition domainPart (email : string) : option string := afterLast "@" email.

(** [c] does not occur in [s]. *)
Fixpoint lacks (c : ascii) (s : string) : bool :=
  match s with
  | EmptyString => true
  | String a s' => negb (Ascii.eqb a c) && lacks c s'
  end.

Definition setIssuer (v : string) (config : OidcVerifierConfig) : OidcVerifierConfig :=
  {| issuer := v; audience := audience config; jwksUri := jwksUri config;
     userClaim := userClaim config; allowedDomains := allowedDomains config;
     allowedEmails := allowedEmails config |}.

(** *** Construction ([discoverJwksUri], [createOidcVerifier]) *)

(** How a call ends. *)
Inductive Completion (A : Type) : Type :=
| Returns (a : A)
| Throws (message : string).

Arguments Returns {A} a.
Arguments Throws {A} message.

(** What the GET of the discovery document can do: reject, or answer with a
    status and a body whose JSON either fails to parse or has the
    [jwks_uri] field read from it. *)
Inductive DiscoveryOutcome : Type :=
| DiscoveryRejects (message : string)
| DiscoveryResponse (status : N) (json : Completion (option string)).

(** [res.ok]: a status in the range 200-299. *)
Definition statusOk (status : N) : bool := (200 <=? status)%N && (status <=? 299)%N.

Definition wellKnownUrl (issuer : string) : string :=
  Js.stripTrailingSlashes issuer +:+ "/.well-known/openid-configuration".

Definition discoverJwksUri (fetchDocument : string -> DiscoveryOutcome) (issuer : string)
  : Completion string :=
  match fetchDocument (wellKnownUrl issuer) with
  | DiscoveryRejects message => Throws message
  | DiscoveryResponse status json =>
      if negb (statusOk status)
      then Throws ("OIDC discovery failed: HTTP " +:+ pretty status +:+ " from "
                     +:+ wellKnownUrl issuer)
      else
        match json with
        | Throws message => Throws message
        | Returns jwks_uri =>
            match jwks_uri with
            | Some uri =>
                if Js.truthy uri then Returns uri
                else Throws ("OIDC discovery: missing jwks_uri in " +:+ wellKnownUrl issuer)
            | None => Throws ("OIDC discovery: missing jwks_uri in " +:+ wellKnownUrl issuer)
            end
        end
  end.

Section Construction.

(** The two library calls of the construction: [new URL(jwksUri)], which
    throws on a string that is not a URL, and [createRemoteJWKSet], which
    gives the key lookup that [jwtVerify] is then run with. *)
Variable toLowerCase : Js.ToLowerCase.
Variable Url : Type.
Variable newUrl : string -> Completion Url.
Variable createRemoteJWKSet : Url -> JwtVerify.

Definition createOidcVerifier (fetchDocument : string -> DiscoveryOutcome)
    (config : OidcVerifierConfig) : Completion (string -> OidcVerifyResult) :=
  let located :=
    match jwksUri config with
    | Some uri => Returns uri
    | None => discoverJwksUri fetchDocument (issuer config)
    end in
  match located with
  | Throws message => Throws message
  | Returns uri =>
      match newUrl uri with
      | Throws message => Throws message
      | Returns url => Returns (verify toLowerCase (createRemoteJWKSet url) config)
      end
  end.

End Construction.

(** Fixtures for the construction: URLs are kept as strings, anything that
    starts with ["http"] parses, and the test issuer serves its document. *)
Definition testNewUrl (uri : string) : Completion string :=
  if String.prefix "http" uri then Returns uri else Throws "Invalid URL".

Definition testKeySet (url : string) : JwtVerify :=
  if String.eqb url "http://127.0.0.1:4000/.well-known/jwks.json"
  then testJwtVerify
  else fun _ _ _ => Threw (ErrWithCode "ERR_JWKS_NO_MATCHING_KEY").

Definition testDiscovery (url : string) : DiscoveryOutcome :=
  if String.eqb url "http://127.0.0.1:4000/.well-known/openid-configuration"
  then DiscoveryResponse 200 (Returns (Some "http://127.0.0.1:4000/.well-known/jwks.json"))
  else DiscoveryResponse 404 (Throws "Unexpected end of JSON input").

End Oidc.

(** ** The connection authorizer ([authorizeGatewayConnect]) *)

Module Auth.

Import Oidc.

(** The authorizer's implementation file is not among the sources; its data
    ([AuthConfig], [ConnectAuth], [AuthResult]) and its decision order are
    taken from the design document, and the test suite that is among the
    sources is replayed on the model below. *)

Inductive AuthMode : Type := ModeToken | ModePassword | ModeOidc.

Record AuthConfig : Type := {
  mode : AuthMode;
  token : option string;
  password : option string;
  allowTailscaleIdentity : bool;
  oidcConfig : option OidcVerifierConfig
}.

(** The credentials presented with one connection attempt. *)
Record ConnectAuth : Type := {
  presentedToken : option string;
  presentedPassword : option string;
  oidcToken : option string
}.

Inductive AuthMethod : Type :=
  MethodToken | MethodPassword | MethodOidc | MethodTailscale.

Inductive AuthResult : Type :=
| Accepted (method : AuthMethod) (user : option string)
| Rejected (reason : string).

Record ProxyIdentity : Type := { login : string; name : string }.

(** What the transport layer hands to the authorizer for one connection:
    whether the observed origin is an overlay address arriving through the
    service's own proxy host name, what the identity-proxy lookup answers
    for it ([None] when no lookup is wired up or it resolves nothing), and
    the verifier when one is supplied. *)
Record Context : Type := {
  overlayProxyOrigin : bool;
  identityLookup : option ProxyIdentity;
  oidcVerifier : option (string -> OidcVerifyResult)
}.

(** Modelled from the spec: step 1 of the Authorizer's decision order (the
    identity-proxy shortcut), part of the absent [src/gateway/auth.ts]. *)
Definition identityShortcut (config : AuthConfig) (context : Context) : option ProxyIdentity :=
  if allowTailscaleIdentity config && overlayProxyOrigin context
  then identityLookup context
  else None.

(** Modelled from the spec: step 2 of the decision order, part of the absent
    [src/gateway/auth.ts].  The verifier runs whenever one is supplied and
    an assertion is presented, whatever the mode. *)
Definition oidcAttempt (presented : ConnectAuth) (context : Context) : option OidcVerifyResult :=
  match oidcVerifier context, oidcToken presented with
  | Some verifier, Some assertion => Some (verifier assertion)
  | _, _ => None
  end.

(** Modelled from the spec: the static-secret comparison of the token and
    password modes (step 3), part of the absent [src/gateway/auth.ts]. *)
Definition secretCheck (method : AuthMethod) (noConfig missing mismatch : string)
    (configured presented : option string) : AuthResult :=
  match configured with
  | None => Rejected noConfig
  | Some expected =>
      match presented with
      | None => Rejected missing
      | Some given =>
          if String.eqb given expected then Accepted method None else Rejected mismatch
      end
  end.

Section Authorizer.

(** The reason reported in [oidc] mode when an assertion is presented but
    no verifier is available; the design names none. *)
Variable noVerifierReason : string.

(** Modelled from the spec: step 3 of the decision order, given what step 2
    produced; part of the absent [src/gateway/auth.ts]. *)
Definition modeCheck (config : AuthConfig) (presented : ConnectAuth)
    (attempt : option OidcVerifyResult) : AuthResult :=
  match mode config with
  | ModeToken =>
      secretCheck MethodToken "token_missing_config" "token_missing" "token_mismatch"
        (token config) (presentedToken presented)
  | ModePassword =>
      secretCheck MethodPassword "password_missing_config" "password_missing"
        "password_mismatch" (password config) (presentedPassword presented)
  | ModeOidc =>
      match oidcToken presented, attempt with
      | None, _ => Rejected "oidc_token_missing"
      | Some _, Some (VerifyFail reason) => Rejected reason
      | Some _, Some (VerifyOk user _) => Accepted MethodOidc (Some user)
      | Some _, None => Rejected noVerifierReason
      end
  end.

(** Modelled from the spec: [authorizeGatewayConnect] lives in
    [src/gateway/auth.ts], which is not among the sources (only its test
    suite is).  The decision order is the one of the design's Authorizer
    section: identity-proxy shortcut, then the OIDC check, then the check of
    the configured mode. *)
Definition authorize (config : AuthConfig) (presented : ConnectAuth)
    (context : Context) : AuthResult :=
  match identityShortcut config context with
  | Some identity => Accepted MethodTailscale (Some (login identity))
  | None =>
      match oidcAttempt presented context with
      | Some (VerifyOk user _) => Accepted MethodOidc (Some user)
      | attempt => modeCheck config presented attempt
      end
  end.

End Authorizer.

(** [createMockOidcVerifier] of the authorizer's test suite. *)
Definition createMockOidcVerifier (user : option string) (ok : option bool)
    (reason : option string) : string -> OidcVerifyResult :=
  fun _ =>
    match ok with
    | Some false => VerifyFail (Js.nullish reason "oidc_token_invalid")
    | _ =>
        VerifyOk (Js.nullish user "oidc-user")
          {[ "sub" := JString (Js.nullish user "oidc-user") ]}
    end.

Definition noCredentials : ConnectAuth :=
  {| presentedToken := None; presentedPassword := None; oidcToken := None |}.

Definition directContext : Context :=
  {| overlayProxyOrigin := false; identityLookup := None; oidcVerifier := None |}.

(** *** Fixtures of the authorizer's test suite *)

Definition tokenMode (secret : option string) (allowTailscale : bool) : AuthConfig :=
  {| mode := ModeToken; token := secret; password := None;
     allowTailscaleIdentity := allowTailscale; oidcConfig := None |}.

Definition passwordMode (secret : option string) : AuthConfig :=
  {| mode := ModePassword; token := None; password := secret;
     allowTailscaleIdentity := false; oidcConfig := None |}.

Definition oidcMode : AuthConfig :=
  {| mode := ModeOidc; token := None; password := None; allowTailscaleIdentity := false;
     oidcConfig := Some {| issuer := "https://idp.example.com"; audience := "test";
                           jwksUri := None; userClaim := None;
                           allowedDomains := None; allowedEmails := None |} |}.

Definition withToken (t : string) : ConnectAuth :=
  {| presentedToken := Some t; presentedPassword := None; oidcToken := None |}.

Definition withPassword (p : string) : ConnectAuth :=
  {| presentedToken := None; presentedPassword := Some p; oidcToken := None |}.

Definition withVerifier (v : string -> OidcVerifyResult) : Context :=
  {| overlayProxyOrigin := false; identityLookup := None; oidcVerifier := Some v |}.

End Auth.

(** ** The Azure AD token broker ([agents/tools/azure-obo.ts]) *)

Module Broker.

Local Open Scope Z_scope.

(** [AZURE_AD_CONFIG]: read from the environment once, when the module is
    loaded; an unset variable reads as [""]. *)
Record AzureAdConfig : Type := {
  clientId : string;
  clientSecret : string;
  tenantId : string
}.

Record CachedToken : Type := {
  accessToken : string;
  expiresAt : Z
}.

Inductive AzureTokenResult : Type :=
| TokenOk (accessToken : string)
| TokenErr (error : string).

(** [targetScopes: string | string[]] *)
Inductive TargetScopes : Type :=
| ScopeString (s : string)
| ScopeArray (l : list string).

(** [Array.prototype.join] *)
Fixpoint join (sep : string) (l : list string) : string :=
  match l with
  | [] => ""
  | [s] => s
  | s :: rest => s +:+ sep +:+ join sep rest
  end.

Definition scopesOf (targetScopes : TargetScopes) : string :=
  match targetScopes with
  | ScopeString s => s
  | ScopeArray l => join " " l
  end.

(** A POST to the token endpoint: the URL and the form fields, in the order
    in which [URLSearchParams] holds them. *)
Record Request : Type := {
  url : string;
  body : list (string * string)
}.

(** What the [try] block around [fetch] can observe. *)
Inductive FetchOutcome : Type :=
| FetchThrows (message : string)
    (* [fetch] or [res.json()] rejects (network fault, timeout, bad JSON);
       [message] is what the handler extracts from the thrown value *)
| HttpError (status : N) (detail statusText : string)
    (* [!res.ok]; [detail] is [res.text()], or the empty string when that rejects *)
| HttpJson (access_token : option string) (expires_in : option Z).
    (* [res.ok], with the two fields read from the JSON body *)

(** The surroundings of one call: the two readings of [Date.now()] (one in
    [getCachedToken], one in [setCachedToken] after the response arrived)
    and the answer of the token endpoint. *)
Record Env : Type := {
  clockAtLookup : Z;
  respond : Request -> FetchOutcome;
  clockAtStore : Z
}.

(** The module state: the [tokenCache] map, and (as a ghost field) the
    requests sent to the token endpoint so far. *)
Record State : Type := {
  tokenCache : gmap string CachedToken;
  sent : list Request
}.

Definition initial : State := {| tokenCache := ∅; sent := [] |}.

(** Computations over the module state. *)
Definition M (A : Type) : Type := State -> A * State.

Definition ret {A} (a : A) : M A := fun st => (a, st).

Definition bind {A B} (m : M A) (k : A -> M B) : M B :=
  fun st => let (a, st') := m st in k a st'.

Notation "x <- m ;; k" := (bind m (fun x => k))
  (at level 100, m at next level, right associativity).

Definition TOKEN_EXPIRY_BUFFER_MS : Z := 5 * 60 * 1000.

Definition getCachedToken (now : Z) (cacheKey : string) : M (option string) :=
  fun st =>
    match tokenCache st !! cacheKey with
    | Some cached =>
        if expiresAt cached >? now + TOKEN_EXPIRY_BUFFER_MS
        then (Some (accessToken cached), st)
        else (None, st)
    | None => (None, st)
    end.

Definition setCachedToken (now : Z) (cacheKey accessToken : string) (expiresIn : Z) : M unit :=
  fun st =>
    (tt, {| tokenCache :=
              <[cacheKey := {| accessToken := accessToken;
                               expiresAt := now + expiresIn * 1000 |}]> (tokenCache st);
            sent := sent st |}).

Definition fetch (env : Env) (req : Request) : M FetchOutcome :=
  fun st => (respond env req, {| tokenCache := tokenCache st; sent := sent st ++ [req] |}).

(** [if (cached)]: a hit is a non-null, non-empty string. *)
Definition hit (cached : option string) : option string :=
  match cached with
  | Some tok => if Js.truthy tok then Some tok else None
  | None => None
  end.

Definition NOT_CONFIGURED : string :=
  "Azure AD credentials not configured. Set AZURE_AD_CLIENT_ID, AZURE_AD_CLIENT_SECRET, AZURE_AD_TENANT_ID.".

Section WithConfig.

Variable AZURE_AD_CONFIG : AzureAdConfig.

Definition isAzureOBOConfigured : bool :=
  Js.truthy (clientId AZURE_AD_CONFIG)
  && Js.truthy (clientSecret AZURE_AD_CONFIG)
  && Js.truthy (tenantId AZURE_AD_CONFIG).

Definition tokenUrl : string :=
  "https://login.microsoftonline.com/" +:+ tenantId AZURE_AD_CONFIG +:+ "/oauth2/v2.0/token".

Definition acquireTokenSilent (env : Env) (refreshToken : string)
    (targetScopes : TargetScopes) : M AzureTokenResult :=
  let scopes := scopesOf targetScopes in
  let cacheKey := "silent:" +:+ scopes in
  cached <- getCachedToken (clockAtLookup env) cacheKey ;;
  match hit cached with
  | Some tok => ret (TokenOk tok)
  | None =>
      if negb (Js.truthy (clientId AZURE_AD_CONFIG))
         || negb (Js.truthy (clientSecret AZURE_AD_CONFIG))
         || negb (Js.truthy (tenantId AZURE_AD_CONFIG))
      then ret (TokenErr NOT_CONFIGURED)
      else
        let body :=
          [ ("client_id", clientId AZURE_AD_CONFIG);
            ("client_secret", clientSecret AZURE_AD_CONFIG);
            ("grant_type", "refresh_token");
            ("refresh_token", refreshToken);
            ("scope", scopes) ] in
        res <- fetch env {| url := tokenUrl; body := body |} ;;
        match res with
        | FetchThrows message =>
            ret (TokenErr ("Silent token acquisition failed: " +:+ message))
        | HttpError status detail statusText =>
            ret (TokenErr ("Silent token acquisition error (" +:+ pretty status +:+ "): "
                             +:+ (if Js.truthy detail then detail else statusText)))
        | HttpJson access_token expires_in =>
            match hit access_token with
            | None => ret (TokenErr "No access_token in refresh response")
            | Some tok =>
                let expiresIn := Js.nullish expires_in 3600 in
                _ <- setCachedToken (clockAtStore env) cacheKey tok expiresIn ;;
                ret (TokenOk tok)
            end
        end
  end.

Definition exchangeTokenOBO (env : Env) (userToken : string)
    (targetScopes : TargetScopes) : M AzureTokenResult :=
  let scopes := scopesOf targetScopes in
  let cacheKey := "obo:" +:+ scopes in
  cached <- getCachedToken (clockAtLookup env) cacheKey ;;
  match hit cached with
  | Some tok => ret (TokenOk tok)
  | None =>
      if negb (Js.truthy (clientId AZURE_AD_CONFIG))
         || negb (Js.truthy (clientSecret AZURE_AD_CONFIG))
         || negb (Js.truthy (tenantId AZURE_AD_CONFIG))
      then ret (TokenErr NOT_CONFIGURED)
      else
        let body :=
          [ ("client_id", clientId AZURE_AD_CONFIG);
            ("client_secret", clientSecret AZURE_AD_CONFIG);
            ("grant_type", "urn:ietf:params:oauth:grant-type:jwt-bearer");
            ("assertion", userToken);
            ("scope", scopes);
            ("requested_token_use", "on_behalf_of") ] in
        res <- fetch env {| url := tokenUrl; body := body |} ;;
        match res with
        | FetchThrows message =>
            ret (TokenErr ("OBO exchange failed: " +:+ message))
        | HttpError status detail statusText =>
            ret (TokenErr ("OBO token error (" +:+ pretty status +:+ "): "
                             +:+ (if Js.truthy detail then detail else statusText)))
        | HttpJson access_token expires_in =>
            match hit access_token with
            | None => ret (TokenErr "No access_token in OBO response")
            | Some tok =>
                let expiresIn := Js.nullish expires_in 3600 in
                _ <- setCachedToken (clockAtStore env) cacheKey tok expiresIn ;;
                ret (TokenOk tok)
            end
        end
  end.

(** Scope targeting our own app. *)
Definition OUR_APP_SCOPE : string :=
  "api://" +:+ clientId AZURE_AD_CONFIG +:+ "/User.Access".

(** [env1] surrounds the silent step, [env2] the exchange. *)
Definition acquireDownstreamToken (env1 env2 : Env) (refreshToken : string)
    (targetScopes : TargetScopes) : M AzureTokenResult :=
  silentResult <- acquireTokenSilent env1 refreshToken (ScopeString OUR_APP_SCOPE) ;;
  match silentResult with
  | TokenErr _ => ret silentResult
  | TokenOk silentToken => exchangeTokenOBO env2 silentToken targetScopes
  end.

(** The exported operations, as the tools call them. *)
Inductive Call : Type :=
| CallSilent (env : Env) (refreshToken : string) (targetScopes : TargetScopes)
| CallOBO (env : Env) (userToken : string) (targetScopes : TargetScopes)
| CallDownstream (env1 env2 : Env) (refreshToken : string) (targetScopes : TargetScopes).

Definition perform (c : Call) : M AzureTokenResult :=
  match c with
  | CallSilent env refreshToken targetScopes => acquireTokenSilent env refreshToken targetScopes
  | CallOBO env userToken targetScopes => exchangeTokenOBO env userToken targetScopes
  | CallDownstream env1 env2 refreshToken targetScopes =>
      acquireDownstreamToken env1 env2 refreshToken targetScopes
  end.

(** The states the module can be in: it starts with an empty cache, and the
    cache is private to the module, so only the exported operations change
    it.  A call is taken to run to completion: the cache is read before the
    request is awaited and written after the response has arrived. *)
Inductive reachable : State -> Prop :=
| reachable_initial : reachable initial
| reachable_step st c : reachable st -> reachable (snd (perform c st)).

(** The two token-endpoint operations, to speak about either of them. *)
Inductive Operation : Type := Silent | OnBehalfOf.

Definition run (o : Operation) : Env -> string -> TargetScopes -> M AzureTokenResult :=
  match o with
  | Silent => acquireTokenSilent
  | OnBehalfOf => exchangeTokenOBO
  end.

Definition cacheKeyOf (o : Operation) (targetScopes : TargetScopes) : string :=
  match o with
  | Silent => "silent:" +:+ scopesOf targetScopes
  | OnBehalfOf => "obo:" +:+ scopesOf targetScopes
  end.

(** The request an operation posts when it goes to the token endpoint. *)
Definition requestOf (o : Operation) (credential : string) (targetScopes : TargetScopes)
  : Request :=
  match o with
  | Silent =>
      {| url := tokenUrl;
         body := [ ("client_id", clientId AZURE_AD_CONFIG);
                   ("client_secret", clientSecret AZURE_AD_CONFIG);
                   ("grant_type", "refresh_token");
                   ("refresh_token", credential);
                   ("scope", scopesOf targetScopes) ] |}
  | OnBehalfOf =>
      {| url := tokenUrl;
         body := [ ("client_id", clientId AZURE_AD_CONFIG);
                   ("client_secret", clientSecret AZURE_AD_CONFIG);
                   ("grant_type", "urn:ietf:params:oauth:grant-type:jwt-bearer");
                   ("assertion", credential);
                   ("scope", scopesOf targetScopes);
                   ("requested_token_use", "on_behalf_of") ] |}
  end.

(** What holds of every cache entry the module ever stores. *)
Definition wellStored (st : State) : Prop :=
  forall cacheKey cached,
    tokenCache st !! cacheKey = Some cached ->
    isAzureOBOConfigured = true /\ accessToken cached <> "".

End WithConfig.

(** The cache entry under a key is usable at time [now]. *)
Definition fresh (now : Z) (cached : CachedToken) : Prop :=
  expiresAt cached > now + TOKEN_EXPIRY_BUFFER_MS.

(** *** Fixtures *)

Definition configured : AzureAdConfig :=
  {| clientId := "6afc7495"; clientSecret := "s3cr3t"; tenantId := "contoso" |}.

Definition unconfigured : AzureAdConfig :=
  {| clientId := "6afc7495"; clientSecret := ""; tenantId := "contoso" |}.

(** An endpoint that issues [tok] with the given lifetime, read at times
    [t] (lookup) and [t + 40] (store). *)
Definition issuing (tok : string) (expires_in : option Z) (t : Z) : Env :=
  {| clockAtLookup := t;
     respond := fun _ => HttpJson (Some tok) expires_in;
     clockAtStore := t + 40 |}.

(** An endpoint that is down. *)
Definition failing (t : Z) : Env :=
  {| clockAtLookup := t;
     respond := fun _ => HttpError 503 "" "Service Unavailable";
     clockAtStore := t + 40 |}.

Definition graphScopes : TargetScopes :=
  ScopeArray ["https://graph.microsoft.com/Calendars.Read"; "https://graph.microsoft.com/User.Read"].

End Broker.

(** ** The token-exchange proxy ([handleGleanAuthHttpRequest]) *)

Module GleanAuthHttp.

(** A field of the parsed body.  The body is cast, not checked, so a field
    can hold any JSON value.  A string is kept as it is; of any other
    value the handler sees two things only: whether it is truthy ([null],
    [false] and [0] are not), and the text that [URLSearchParams] turns it
    into (["1"] for [1], ["true"] for [true], ["x,y"] for [["x","y"]]). *)
Inductive Field : Type :=
| FString (s : string)
| FOther (isTruthy : bool) (text : string).

(** What reading the body as JSON gives: the fields of the parsed value (a
    number, a string, a boolean or an array has none of the fields the
    handler reads), or [BodyRejects] for a stream error, a body that is
    not JSON, and a JSON [null], reading a field of which throws. *)
Inductive BodyOutcome : Type :=
| BodyRejects
| BodyObject (fields : gmap string Field).

(** The request as the handler reads it. *)
Record IncomingMessage : Type := {
  method : option string;
  url : option string;
  readJsonBody : BodyOutcome
}.

(** A POST to the Azure AD token endpoint. *)
Record UpstreamRequest : Type := {
  endpoint : string;
  form : list (string * string)
}.

Section Handler.

(** The parsed JSON of the token endpoint's answers; the handler passes it
    on without looking into it. *)
Variable Json : Type.

(** What the [fetch] of the token endpoint does: reject, or answer with a
    status and a body that parses as JSON or does not. *)
Inductive UpstreamOutcome : Type :=
| UpstreamRejects
| UpstreamAnswers (status : N) (json : option Json).

Inductive ResponseBody : Type :=
| NoBody
| ErrorBody (error : string)
| Relayed (data : Json).

(** What the handler has written to [res]. *)
Record ServerResponse : Type := {
  statusCode : N;
  headers : list (string * string);
  ended : ResponseBody
}.

(** The outcome of one call: how the handler ends (the boolean it returns,
    or the exception it is rejected with), what it wrote (nothing when it
    returns [false] or throws), and the requests it sent upstream. *)
Record Outcome : Type := {
  returned : Oidc.Completion bool;
  response : option ServerResponse;
  upstream : list UpstreamRequest
}.

Variable AZURE_AD_CONFIG : Broker.AzureAdConfig.

(** [new URL(input, "http://localhost").pathname]: the path of the parsed
    URL, or the exception of the parser. *)
Variable pathnameOf : string -> Oidc.Completion string.

Definition tokenEndpoint : string :=
  "https://login.microsoftonline.com/" +:+ Broker.tenantId AZURE_AD_CONFIG
  +:+ "/oauth2/v2.0/token".

Definition sendJson (status : N) (body : ResponseBody) : ServerResponse :=
  {| statusCode := status;
     headers := [ ("Content-Type", "application/json; charset=utf-8");
                  ("Access-Control-Allow-Origin", "*");
                  ("Access-Control-Allow-Methods", "POST, OPTIONS");
                  ("Access-Control-Allow-Headers", "Content-Type") ];
     ended := body |}.

Definition preflight : ServerResponse :=
  {| statusCode := 204;
     headers := [ ("Access-Control-Allow-Origin", "*");
                  ("Access-Control-Allow-Methods", "POST, OPTIONS");
                  ("Access-Control-Allow-Headers", "Content-Type") ];
     ended := NoBody |}.

Definition notHandled : Outcome :=
  {| returned := Oidc.Returns false; response := None; upstream := [] |}.

Definition answered (written : ServerResponse) (requests : list UpstreamRequest) : Outcome :=
  {| returned := Oidc.Returns true; response := Some written; upstream := requests |}.

Definition rejected (message : string) : Outcome :=
  {| returned := Oidc.Throws message; response := None; upstream := [] |}.

(** A field that is present and truthy ([!body.code] is false), as the
    text that goes into the form. *)
Definition field (fields : gmap string Field) (key : string) : option string :=
  match fields !! key with
  | Some (FString v) => if Js.truthy v then Some v else None
  | Some (FOther true text) => Some text
  | Some (FOther false _) => None
  | None => None
  end.

(** The field value is truthy, and [text] is what the form gets for it: a
    string as it is, another value as [URLSearchParams] writes it. *)
Definition sentAs (value : Field) (text : string) : Prop :=
  match value with
  | FString s => s <> "" /\ text = s
  | FOther isTruthy t => isTruthy = true /\ text = t
  end.

(** The exchange with the token endpoint and the relay of its answer, as
    both routes do it; [failure] is the message of the route's [catch]. *)
Definition exchange (fetch : UpstreamRequest -> UpstreamOutcome) (request : UpstreamRequest)
    (failure : string) : Outcome :=
  match fetch request with
  | UpstreamRejects => answered (sendJson 500 (ErrorBody failure)) [request]
  | UpstreamAnswers status None => answered (sendJson 500 (ErrorBody failure)) [request]
  | UpstreamAnswers status (Some tokenData) =>
      if negb (Oidc.statusOk status)
      then answered (sendJson status (Relayed tokenData)) [request]
      else answered (sendJson 200 (Relayed tokenData)) [request]
  end.

Definition handleGleanAuthHttpRequest (fetch : UpstreamRequest -> UpstreamOutcome)
    (req : IncomingMessage) : Outcome :=
  match pathnameOf (Js.nullish (url req) "/") with
  | Oidc.Throws message => rejected message
  | Oidc.Returns pathname =>
  if match method req with Some m => String.eqb m "OPTIONS" | None => false end
     && String.prefix "/api/glean-auth/" pathname
  then answered preflight []
  else if negb (match method req with Some m => String.eqb m "POST" | None => false end)
  then notHandled
  else if String.eqb pathname "/api/glean-auth/token" then
    match readJsonBody req with
    | BodyRejects => answered (sendJson 500 (ErrorBody "Token exchange failed")) []
    | BodyObject body =>
        match field body "code", field body "redirect_uri", field body "code_verifier" with
        | Some code, Some redirect_uri, Some code_verifier =>
            exchange fetch
              {| endpoint := tokenEndpoint;
                 form := [ ("grant_type", "authorization_code");
                           ("code", code);
                           ("redirect_uri", redirect_uri);
                           ("client_id", Broker.clientId AZURE_AD_CONFIG);
                           ("client_secret", Broker.clientSecret AZURE_AD_CONFIG);
                           ("code_verifier", code_verifier) ] |}
              "Token exchange failed"
        | _, _, _ =>
            answered
              (sendJson 400
                 (ErrorBody "Missing required fields: code, redirect_uri, code_verifier"))
              []
        end
    end
  else if String.eqb pathname "/api/glean-auth/refresh" then
    match readJsonBody req with
    | BodyRejects => answered (sendJson 500 (ErrorBody "Token refresh failed")) []
    | BodyObject body =>
        match field body "refresh_token" with
        | Some refresh_token =>
            exchange fetch
              {| endpoint := tokenEndpoint;
                 form := [ ("grant_type", "refresh_token");
                           ("refresh_token", refresh_token);
                           ("client_id", Broker.clientId AZURE_AD_CONFIG);
                           ("client_secret", Broker.clientSecret AZURE_AD_CONFIG) ] |}
              "Token refresh failed"
        | None =>
            answered (sendJson 400 (ErrorBody "Missing required field: refresh_token")) []
        end
    end
  else notHandled
  end.

End Handler.

(** Fixtures: JSON answers kept as text; a URL parser for the request
    targets of the fixtures, which are paths (a target that starts with
    two slashes has an empty host and is refused). *)
Definition azure (request : UpstreamRequest) : UpstreamOutcome string :=
  if existsb (fun kv => String.eqb (fst kv) "code" && String.eqb (snd kv) "expired-code")
       (form request)
  then UpstreamAnswers string 400 (Some "{error: invalid_grant}")
  else UpstreamAnswers string 200 (Some "{access_token: A}").

Definition pathOf (target : string) : Oidc.Completion string :=
  if String.prefix "//" target then Oidc.Throws "Invalid URL" else Oidc.Returns target.

Definition unreachable (request : UpstreamRequest) : UpstreamOutcome string :=
  UpstreamRejects string.

Definition tokenPost (fields : gmap string Field) : IncomingMessage :=
  {| method := Some "POST"; url := Some "/api/glean-auth/token";
     readJsonBody := BodyObject fields |}.

Definition refreshPost (fields : gmap string Field) : IncomingMessage :=
  {| method := Some "POST"; url := Some "/api/glean-auth/refresh";
     readJsonBody := BodyObject fields |}.

End GleanAuthHttp.

(** ** The flex-desk tool ([agents/tools/nfd-desk.ts]) *)

Module NfdDesk.

Import Oidc.

(** [NFD_CONFIG], read from the environment when the module is loaded. *)
Record NfdConfig : Type := {
  scope : string;
  baseUrl : string
}.

Definition NFD_ACTIONS : list string :=
  ["list_locations"; "available_desks"; "my_reservations"; "book_desk"].

(** A request to the NFD API; the Content-Type header is the same on
    every request and is left out. *)
Record ApiRequest : Type := {
  apiUrl : string;
  apiMethod : string;
  authorization : string;
  apiBody : option string
}.

(** What the tool answers with (the argument of [jsonResult]). *)
Inductive Payload (Json : Type) : Type :=
| Failure (error message : string)
| Success (action : string) (result : Json).

Arguments Failure {Json} error message.
Arguments Success {Json} action result.

Section Tool.

(** The data of the NFD API, which the tool passes on as it is. *)
Variable Json : Type.

(** The tool's arguments, and the helpers of [common.ts], which is not
    among the sources: [readStringParam] with [required: true] (a string,
    or an exception), [readStringParam] without it (a string or
    [undefined]), and [jsonResult]. *)
Variable Params : Type.
Variable ToolResult : Type.
Variable readRequired : Params -> string -> Completion string.
Variable readOptional : Params -> string -> Completion (option string).
Variable jsonResult : Payload Json -> ToolResult.

(** [JSON.stringify(JSON.parse(s))]; [None] when parsing throws. *)
Variable reserialize : string -> option string.

(** The [message] property of an error body, when it is an object that
    has one. *)
Variable messageOf : Json -> option string.

Variable NFD_CONFIG : NfdConfig.
Variable AZURE_AD_CONFIG : Broker.AzureAdConfig.

(** What the [fetch] of the NFD API does: reject, or answer with a status
    and a body that parses as JSON or does not. *)
Inductive ApiOutcome : Type :=
| ApiRejects (message : string)
| ApiAnswers (status : N) (json : Completion Json).

(** The surroundings of one call of [execute]; [getRefreshToken] is the
    caller's function, which gives a token or [null], or throws. *)
Record Surroundings : Type := {
  getRefreshToken : Completion (option string);
  silentEnv : Broker.Env;
  exchangeEnv : Broker.Env;
  api : ApiRequest -> ApiOutcome;
  today : string
}.

(** How a handler ends, and the API requests it made. *)
Definition Handled : Type := Completion Json * list ApiRequest.

Definition callNfdApi (world : Surroundings) (token path : string)
    (method body : option string) : Handled :=
  let request :=
    {| apiUrl := baseUrl NFD_CONFIG +:+ path;
       apiMethod := Js.nullish method "GET";
       authorization := "Bearer " +:+ token;
       apiBody := match body with
                  | Some b => if Js.truthy b then Some b else None
                  | None => None
                  end |} in
  (match api world request with
   | ApiRejects message => Throws message
   | ApiAnswers status json =>
       match json with
       | Throws message => Throws message
       | Returns data =>
           if negb (statusOk status)
           then Throws (Js.nullish (messageOf data) ("NFD API error: " +:+ pretty status))
           else Returns data
       end
   end, [request]).

Definition handleListLocations (world : Surroundings) (nfdToken : string) : Handled :=
  callNfdApi world nfdToken "/api/locations" None None.

Definition handleAvailableDesks (world : Surroundings) (nfdToken : string)
    (params : Params) : Handled :=
  match readRequired params "location_id" with
  | Throws message => (Throws message, [])
  | Returns locationId =>
      match readOptional params "date" with
      | Throws message => (Throws message, [])
      | Returns date =>
          match readOptional params "time_block_type" with
          | Throws message => (Throws message, [])
          | Returns timeBlockType =>
              callNfdApi world nfdToken
                ("/api/available/" +:+ locationId +:+ "?SelectedDates="
                   +:+ Js.nullish date (today world) +:+ "&TimeBlockType="
                   +:+ Js.nullish timeBlockType "BizDay")
                None None
          end
      end
  end.

Definition handleMyReservations (world : Surroundings) (nfdToken : string) : Handled :=
  callNfdApi world nfdToken "/api/reservations" None None.

Definition handleBookDesk (world : Surroundings) (nfdToken : string)
    (params : Params) : Handled :=
  match readRequired params "reservation_body" with
  | Throws message => (Throws message, [])
  | Returns bodyStr =>
      match reserialize bodyStr with
      | None => (Throws "reservation_body must be valid JSON", [])
      | Some body => callNfdApi world nfdToken "/api/reservation" (Some "POST") (Some body)
      end
  end.

(** What one call of [execute] leaves behind. *)
Record Executed : Type := {
  outcome : Completion ToolResult;
  broker : Broker.State;
  apiCalls : list ApiRequest
}.

Definition finish (action : string) (st : Broker.State) (h : Handled) : Executed :=
  {| outcome :=
       match fst h with
       | Returns result => Returns (jsonResult (Success action result))
       | Throws message => Returns (jsonResult (Failure "nfd_api_error" message))
       end;
     broker := st;
     apiCalls := snd h |}.

Definition execute (world : Surroundings) (params : Params) (st : Broker.State) : Executed :=
  match getRefreshToken world with
  | Throws message => {| outcome := Throws message; broker := st; apiCalls := [] |}
  | Returns None =>
      {| outcome :=
           Returns (jsonResult
                      (Failure "not_authenticated"
                         "NFD desk tool requires NVIDIA SSO authentication. Please log in first."));
         broker := st; apiCalls := [] |}
  | Returns (Some refreshToken) =>
      if negb (Js.truthy refreshToken)
      then
        {| outcome :=
             Returns (jsonResult
                        (Failure "not_authenticated"
                           "NFD desk tool requires NVIDIA SSO authentication. Please log in first."));
           broker := st; apiCalls := [] |}
      else
        match readRequired params "action" with
        | Throws message => {| outcome := Throws message; broker := st; apiCalls := [] |}
        | Returns action =>
            let (tokenResult, st') :=
              Broker.acquireDownstreamToken AZURE_AD_CONFIG (silentEnv world)
                (exchangeEnv world) refreshToken (Broker.ScopeString (scope NFD_CONFIG)) st in
            match tokenResult with
            | Broker.TokenErr error =>
                {| outcome :=
                     Returns (jsonResult
                                (Failure "token_exchange_failed"
                                   ("Failed to acquire NFD token: " +:+ error)));
                   broker := st'; apiCalls := [] |}
            | Broker.TokenOk nfdToken =>
                if String.eqb action "list_locations"
                then finish action st' (handleListLocations world nfdToken)
                else if String.eqb action "available_desks"
                then finish action st' (handleAvailableDesks world nfdToken params)
                else if String.eqb action "my_reservations"
                then finish action st' (handleMyReservations world nfdToken)
                else if String.eqb action "book_desk"
                then finish action st' (handleBookDesk world nfdToken params)
                else
                  {| outcome :=
                       Returns (jsonResult
                                  (Failure "invalid_action"
                                     ("Unknown action: " +:+ action +:+ ". Valid: "
                                        +:+ Broker.join ", " NFD_ACTIONS)));
                     broker := st'; apiCalls := [] |}
            end
        end
  end.

(** [createNfdDeskTool]: the tool's [execute], or [null]. *)
Definition createNfdDeskTool (enabled : option bool)
  : option (Surroundings -> Params -> Broker.State -> Executed) :=
  match enabled with
  | Some false => None
  | _ =>
      if negb (Js.truthy (scope NFD_CONFIG)) then None
      else if negb (Broker.isAzureOBOConfigured AZURE_AD_CONFIG) then None
      else Some execute
  end.

End Tool.

(** Fixtures: arguments as a map of strings, JSON kept as text. *)
Definition nfd : NfdConfig :=
  {| scope := "api://nfd/.default"; baseUrl := "https://nfd-dev.nvidia.com" |}.

Definition requiredOf (params : gmap string string) (key : string) : Completion string :=
  match params !! key with
  | Some v => if Js.truthy (Js.trim v) then Returns (Js.trim v) else Throws (key +:+ " required")
  | None => Throws (key +:+ " required")
  end.

Definition optionalOf (params : gmap string string) (key : string)
  : Completion (option string) :=
  match params !! key with
  | Some v => Returns (if Js.truthy (Js.trim v) then Some (Js.trim v) else None)
  | None => Returns None
  end.

Definition bracesOnly (s : string) : option string :=
  if String.prefix "{" s then Some s else None.

Definition desks (status : N) : Surroundings string :=
  {| getRefreshToken := Returns (Some "refresh");
     silentEnv := Broker.issuing "own-app" None 0;
     exchangeEnv := Broker.issuing "nfd-token" None 50;
     api := fun _ => ApiAnswers string status (Returns "[desks]");
     today := "2025-01-15" |}.

(** The same surroundings with another [getRefreshToken]. *)
Definition withGetter (getter : Completion (option string)) (world : Surroundings string)
  : Surroundings string :=
  {| getRefreshToken := getter;
     silentEnv := silentEnv string world;
     exchangeEnv := exchangeEnv string world;
     api := api string world;
     today := today string world |}.

End NfdDesk.

(** ** The meeting-room tool ([agents/tools/meeting-room.ts]) *)

Module MeetingRoom.

Import Oidc.

Definition DEFAULT_TIMEZONE : string := "America/Los_Angeles".

(** [GRAPH_CONFIG.scopes], from the [GRAPH_SCOPES] variable of the
    environment: the non-empty pieces between spaces. *)
Definition graphScopes (GRAPH_SCOPES : option string) : list string :=
  List.filter Js.truthy
    (Js.split " "
       (Js.nullish GRAPH_SCOPES
          "https://graph.microsoft.com/Calendars.ReadWrite https://graph.microsoft.com/Group.Read.All")).

(** *** [handleSearchRooms] *)

Record MeetRoom : Type := {
  name : option string;
  email : option string;
  location : option string;
  isMTRSupported : option bool
}.

(** What the GET of the room directory does. *)
Inductive MeetOutcome : Type :=
| MeetRejects (message : string)
| MeetAnswers (status : N) (statusText : string) (json : Completion (list MeetRoom)).

Record RoomSummary : Type := {
  total : nat;
  locations : list string;
  rooms : list MeetRoom;
  note : option string
}.

(** [r.location && r.location.toLowerCase().includes(filter.toLowerCase())] *)
Definition inLocation (toLowerCase : Js.ToLowerCase) (locationFilter : string)
    (r : MeetRoom) : bool :=
  match location r with
  | Some l => Js.truthy l && Js.includes (toLowerCase l) (toLowerCase locationFilter)
  | None => false
  end.

(** The elements of a [Set] built from the list, in insertion order. *)
Fixpoint unique (seen l : list string) : list string :=
  match l with
  | [] => []
  | x :: l' =>
      if existsb (String.eqb x) seen then unique seen l'
      else x :: unique (x :: seen) l'
  end.

(** The truthy [location]s of the rooms. *)
Definition namedLocations (l : list MeetRoom) : list string :=
  omap (fun r => match location r with
                 | Some l => if Js.truthy l then Some l else None
                 | None => None
                 end) l.

Definition summarize (toLowerCase : Js.ToLowerCase) (locationFilter : option string)
    (all : list MeetRoom) : RoomSummary :=
  let filtered :=
    match locationFilter with
    | Some f => if Js.truthy f then List.filter (inLocation toLowerCase f) all else all
    | None => all
    end in
  let maxResults := 30%nat in
  {| total := length filtered;
     locations := @merge_sort _ Js.codeUnitLe Js.codeUnitLe_dec
                    (unique [] (namedLocations filtered));
     rooms := firstn maxResults filtered;
     note := if (maxResults <? length filtered)%nat
             then Some ("Showing first " +:+ pretty maxResults +:+ " of "
                          +:+ pretty (length filtered) +:+ ". Use location filter to narrow.")
             else None |}.

(** *** [handleCheckAvailability] *)

(** The body posted to [/me/calendar/getSchedule], before it is
    serialized. *)
Record ScheduleQuery : Type := {
  schedules : list string;
  startTime : string * string;
  endTime : string * string;
  availabilityViewInterval : N
}.

Record GraphRequest : Type := {
  graphUrl : string;
  graphMethod : string;
  bearer : string;
  query : ScheduleQuery
}.

Definition availableLabel (availabilityView : option string) : string :=
  match availabilityView with
  | Some view =>
      if String.eqb view "0" || String.eqb view "00" then "YES" else "NO (busy)"
  | None => "NO (busy)"
  end.

Section Availability.

(** The schedule items, which are passed on as they are. *)
Variable Json : Type.

Record ScheduleValue : Type := {
  scheduleId : option string;
  availabilityView : option string;
  scheduleItems : option Json
}.

Record RoomAvailability : Type := {
  room : option string;
  available : string;
  view : option string;
  items : option Json
}.

(** What [callGraphApi] can observe: the fetch rejects; the status is not
    ok, and the error body has a message or not; the status is ok, and the
    body parses (with or without a [value] field) or does not. *)
Inductive GraphOutcome : Type :=
| GraphRejects (message : string)
| GraphError (status : N) (errorMessage : option string)
| GraphData (json : Completion (option (list ScheduleValue))).

Variable Params : Type.
Variable readRequired : Params -> string -> Completion string.
Variable readOptional : Params -> string -> Completion (option string).

Definition handleCheckAvailability (graph : GraphRequest -> GraphOutcome)
    (graphToken : string) (params : Params)
  : Completion (list RoomAvailability) * list GraphRequest :=
  match readRequired params "room_emails" with
  | Throws message => (Throws message, [])
  | Returns roomEmailsStr =>
  match readRequired params "start_time" with
  | Throws message => (Throws message, [])
  | Returns start =>
  match readRequired params "end_time" with
  | Throws message => (Throws message, [])
  | Returns finish =>
  match readOptional params "timezone" with
  | Throws message => (Throws message, [])
  | Returns zone =>
      let timezone := Js.nullish zone DEFAULT_TIMEZONE in
      let schedules :=
        List.filter Js.truthy (map Js.trim (Js.split "," roomEmailsStr)) in
      match schedules with
      | [] => (Throws "At least one room email is required", [])
      | _ :: _ =>
          let request :=
            {| graphUrl := "https://graph.microsoft.com/v1.0" +:+ "/me/calendar/getSchedule";
               graphMethod := "POST";
               bearer := "Bearer " +:+ graphToken;
               query := {| schedules := schedules;
                           startTime := (start, timezone);
                           endTime := (finish, timezone);
                           availabilityViewInterval := 30 |} |} in
          (match graph request with
           | GraphRejects message => Throws message
           | GraphError status errorMessage =>
               Throws (Js.nullish errorMessage ("Graph API error: " +:+ pretty status))
           | GraphData (Throws message) => Throws message
           | GraphData (Returns value) =>
               Returns (map (fun s => {| room := scheduleId s;
                                         available := availableLabel (availabilityView s);
                                         view := availabilityView s;
                                         items := scheduleItems s |})
                          (Js.nullish value []))
           end, [request])
      end
  end end end end.

End Availability.

Definition handleSearchRooms (toLowerCase : Js.ToLowerCase) (Params : Type)
    (readOptional : Params -> string -> Completion (option string))
    (meet : MeetOutcome) (params : Params) : Completion RoomSummary :=
  match readOptional params "location" with
  | Throws message => Throws message
  | Returns locationFilter =>
      match meet with
      | MeetRejects message => Throws message
      | MeetAnswers status statusText json =>
          if negb (statusOk status)
          then Throws ("Meet API returned " +:+ pretty status +:+ ": " +:+ statusText)
          else
            match json with
            | Throws message => Throws message
            | Returns all => Returns (summarize toLowerCase locationFilter all)
            end
      end
  end.

(** The rooms the location filter lets through. *)
Definition selected (toLowerCase : Js.ToLowerCase) (locationFilter : option string)
    (r : MeetRoom) : bool :=
  match locationFilter with
  | Some f => if Js.truthy f then inLocation toLowerCase f r else true
  | None => true
  end.

(** An availability view of [n] free slots. *)
Fixpoint allFree (n : nat) : string :=
  match n with
  | O => EmptyString
  | S n' => String "0" (allFree n')
  end.

(** Fixtures. *)
Definition roomAt (n l : string) : MeetRoom :=
  {| name := Some n; email := Some (n +:+ "@rooms.example"); location := Some l;
     isMTRSupported := None |}.

(** A calendar in which Zeus is free for two slots and Hera for three. *)
Definition calendar (request : GraphRequest) : GraphOutcome string :=
  GraphData string
    (Returns
       (Some [ {| scheduleId := Some "zeus@rooms.example"; availabilityView := Some "00";
                  scheduleItems := None |};
               {| scheduleId := Some "hera@rooms.example"; availabilityView := Some "000";
                  scheduleItems := Some "[]" |} ])).

End MeetingRoom.

(** * Properties *)

(** ** String primitives *)

Module JsFacts.

Import Js.

Lemma app_cons (a : ascii) (s t : string) : String a s +:+ t = String a (s +:+ t).
Proof. reflexivity. Qed.

Lemma app_empty_l (t : string) : "" +:+ t = t.
Proof. reflexivity. Qed.

Lemma length_app (s t : string) :
  String.length (s +:+ t) = (String.length s + String.length t)%nat.
Proof.
  induction s as [|a s IH]; [reflexivity|].
  rewrite app_cons. simpl. now rewrite IH.
Qed.

Lemma substring_all (s : string) : substring 0 (String.length s) s = s.
Proof.
  induction s as [|a s IH]; [reflexivity|].
  simpl. now rewrite IH.
Qed.

Lemma substring_skip (pre s : string) (m : nat) :
  substring (String.length pre) m (pre +:+ s) = substring 0 m s.
Proof.
  induction pre as [|a pre IH]; [reflexivity|].
  rewrite app_cons. simpl. exact IH.
Qed.

Lemma substring_split (s : string) (k : nat) :
  (k <= String.length s)%nat ->
  s = substring 0 k s +:+ substring k (String.length s - k) s.
Proof.
  revert k. induction s as [|a s IH]; intros k Hk.
  - simpl in Hk. assert (k = 0)%nat as -> by lia. reflexivity.
  - destruct k as [|k].
    + simpl. rewrite substring_all. reflexivity.
    + simpl in Hk. simpl. rewrite app_cons. f_equal. apply IH. lia.
Qed.

(** [endsWith] decides "is a suffix of". *)
Lemma endsWith_spec (s search : string) :
  endsWith s search = true <-> exists pre, s = pre +:+ search.
Proof.
  unfold endsWith. rewrite andb_true_iff, Nat.leb_le, String.eqb_eq. split.
  - intros [Hle Hsub].
    exists (substring 0 (String.length s - String.length search) s).
    pose proof (substring_split s (String.length s - String.length search)) as Hsplit.
    replace (String.length s - (String.length s - String.length search))%nat
      with (String.length search) in Hsplit by lia.
    rewrite Hsub in Hsplit. apply Hsplit. lia.
  - intros [pre ->]. rewrite length_app. split; [lia|].
    replace (String.length pre + String.length search - String.length search)%nat
      with (String.length pre) by lia.
    rewrite substring_skip. apply substring_all.
Qed.

Lemma truthy_true (s : string) : truthy s = true <-> s <> "".
Proof. destruct s; simpl; split; congruence. Qed.

Lemma truthy_false (s : string) : truthy s = false <-> s = "".
Proof. destruct s; simpl; split; congruence. Qed.

Example trim_example : trim "  user-123 " = "user-123".
Proof. reflexivity. Qed.

Example trim_blank : trim "   " = "".
Proof. reflexivity. Qed.

(** White space beyond ASCII: a no-break space, an em space, the byte order
    mark and an ideographic space are trimmed; a zero-width space (U+200B)
    is not white space. *)
Example trim_unicode :
  trim (utf8 0xA0 +:+ "alice" +:+ utf8 0x2003) = "alice"
  /\ trim (utf8 0xFEFF +:+ " " +:+ utf8 0x3000) = ""
  /\ trim (utf8 0x200B) = utf8 0x200B.
Proof. repeat split; reflexivity. Qed.

Example asciiLowerCase_example : asciiLowerCase "Admin@Example.com" = "admin@example.com".
Proof. reflexivity. Qed.

Example endsWith_example :
  endsWith "user@mycompany.com" "@mycompany.com" = true
  /\ endsWith "user@other.com" "@mycompany.com" = false
  /\ endsWith "user@notmycompany.com" "@mycompany.com" = false
  /\ endsWith "user@MyCompany.com" "@mycompany.com" = false.
Proof. repeat split; reflexivity. Qed.

Example stripTrailingSlashes_example :
  stripTrailingSlashes "https://idp.example.com//" = "https://idp.example.com".
Proof. reflexivity. Qed.

(** *** Reversal, trimming and trailing slashes *)

Lemma app_empty_r (s : string) : s +:+ "" = s.
Proof. induction s as [|a s IH]; [reflexivity|]. now rewrite app_cons, IH. Qed.

Lemma app_assoc (s t u : string) : (s +:+ t) +:+ u = s +:+ t +:+ u.
Proof. induction s as [|a s IH]; [reflexivity|]. now rewrite !app_cons, IH. Qed.

Lemma rev_app_spec (s acc : string) : String.rev_app s acc = String.rev s +:+ acc.
Proof.
  unfold String.rev. revert acc. induction s as [|a s IH]; intros acc; [reflexivity|].
  simpl. rewrite (IH (String a acc)), (IH (String a "")), app_assoc. reflexivity.
Qed.

Lemma rev_cons (a : ascii) (s : string) :
  String.rev (String a s) = String.rev s +:+ String a "".
Proof. unfold String.rev at 1. simpl. apply rev_app_spec. Qed.

Lemma rev_app_distr (s t : string) :
  String.rev (s +:+ t) = String.rev t +:+ String.rev s.
Proof.
  induction s as [|a s IH].
  - rewrite app_empty_l. change (String.rev "") with "". now rewrite app_empty_r.
  - rewrite app_cons, !rev_cons, IH, app_assoc. reflexivity.
Qed.

Lemma rev_involutive (s : string) : String.rev (String.rev s) = s.
Proof.
  induction s as [|a s IH]; [reflexivity|].
  rewrite rev_cons, rev_app_distr, IH. reflexivity.
Qed.

Lemma rev_snoc (s : string) (a : ascii) :
  String.rev (s +:+ String a "") = String a (String.rev s).
Proof. now rewrite rev_app_distr. Qed.

(** *** Stripping characters from the start of a string *)

Lemma isOneOf_In (chars : list string) (s : string) :
  isOneOf chars s = true <-> In s chars.
Proof.
  unfold isOneOf. rewrite existsb_exists. split.
  - intros [c [Hc Heq]]. apply String.eqb_eq in Heq. now subst.
  - intros H. exists s. split; [exact H | apply String.eqb_refl].
Qed.

Lemma madeOf_one (chars : list string) (c : string) : In c chars -> madeOf chars c.
Proof.
  intros H. rewrite <- (app_empty_r c). apply madeOf_cons; [exact H | constructor].
Qed.

Lemma madeOf_app (chars : list string) (p q : string) :
  madeOf chars p -> madeOf chars q -> madeOf chars (p +:+ q).
Proof.
  induction 1 as [|c s Hc Hs IH]; intros Hq; [exact Hq|].
  rewrite app_assoc. apply madeOf_cons; auto.
Qed.

Lemma madeOf_rev_inv (chars : list string) (p : string) :
  madeOf (map String.rev chars) p -> madeOf chars (String.rev p).
Proof.
  induction 1 as [|c s Hc Hs IH]; [constructor|].
  rewrite rev_app_distr. apply madeOf_app; [exact IH|].
  apply in_map_iff in Hc as [c' [<- Hc']]. rewrite rev_involutive.
  now apply madeOf_one.
Qed.

(** A string that starts with none of the characters is left as it is. *)
Lemma strip_stuck (chars : list string) (s : string) :
  leads chars s = false -> strip chars s = s.
Proof.
  destruct s as [|a [|b [|c r]]]; cbn [leads strip]; intros H;
    repeat (apply orb_false_iff in H as [? H]);
    repeat match goal with Hx : isOneOf _ _ = false |- _ => rewrite Hx; clear Hx end;
    try rewrite H; reflexivity.
Qed.

(** What [strip] removes is a run of the characters, and what it leaves
    starts with none of them. *)
Lemma strip_decompose (chars : list string) (s : string) :
  exists p, madeOf chars p /\ s = p +:+ strip chars s /\ leads chars (strip chars s) = false.
Proof.
  assert (H : forall n s, (String.length s <= n)%nat ->
                exists p, madeOf chars p /\ s = p +:+ strip chars s
                          /\ leads chars (strip chars s) = false).
  { clear s. induction n as [|n IH]; intros s Hn.
    - destruct s; [|simpl in Hn; lia]. exists "". repeat split. constructor.
    - assert (Hstep : forall c rest,
                 isOneOf chars c = true -> (String.length rest <= n)%nat ->
                 exists p, madeOf chars p /\ c +:+ rest = p +:+ strip chars rest
                           /\ leads chars (strip chars rest) = false).
      { intros c rest Hc Hrest. destruct (IH rest Hrest) as (p & Hp & Heq & Hl).
        exists (c +:+ p). split; [|split; [|exact Hl]].
        - apply madeOf_cons; [now apply isOneOf_In | exact Hp].
        - rewrite app_assoc. now rewrite <- Heq. }
      destruct s as [|a r1]; [exists ""; repeat split; constructor|].
      simpl in Hn. cbn [strip].
      destruct (isOneOf chars (String a "")) eqn:H1.
      { apply (Hstep (String a "") r1 H1). lia. }
      destruct r1 as [|b r2].
      { exists "". repeat split; [constructor|]. cbn [leads]. now rewrite H1. }
      simpl in Hn.
      destruct (isOneOf chars (String a (String b ""))) eqn:H2.
      { apply (Hstep (String a (String b "")) r2 H2). lia. }
      destruct r2 as [|c r3].
      { exists "". repeat split; [constructor|]. cbn [leads]. now rewrite H1, H2. }
      simpl in Hn.
      destruct (isOneOf chars (String a (String b (String c "")))) eqn:H3.
      { apply (Hstep (String a (String b (String c ""))) r3 H3). lia. }
      exists "". repeat split; [constructor|]. cbn [leads]. now rewrite H1, H2, H3. }
  exact (H (String.length s) s (le_n _)).
Qed.

Lemma leads_prefix (chars : list string) (u x : string) :
  leads chars (u +:+ x) = false -> leads chars u = false.
Proof.
  destruct u as [|a [|b [|c r]]]; [reflexivity|..]; rewrite ?app_cons, ?app_empty_l;
    cbn [leads]; intros H.
  - destruct x as [|b x]; [exact H|]. apply orb_false_iff in H as [-> _]. reflexivity.
  - apply orb_false_iff in H as [-> H]. destruct x as [|c x]; [exact H|].
    apply orb_false_iff in H as [-> _]. reflexivity.
  - exact H.
Qed.

Section Stripping.

Variable chars : list string.
Hypothesis strip_char : forall c s, In c chars -> strip chars (c +:+ s) = strip chars s.
Hypothesis leads_char : forall c s, In c chars -> leads chars (c +:+ s) = true.

Lemma strip_madeOf (p s : string) : madeOf chars p -> strip chars (p +:+ s) = strip chars s.
Proof.
  induction 1 as [|c p Hc Hp IH]; [reflexivity|].
  now rewrite app_assoc, strip_char.
Qed.

Lemma strip_all (p : string) : madeOf chars p -> strip chars p = "".
Proof. intros H. rewrite <- (app_empty_r p). now rewrite strip_madeOf. Qed.

Lemma leads_false_char (s c rest : string) :
  leads chars s = false -> In c chars -> s <> c +:+ rest.
Proof. intros Hl Hc ->. rewrite leads_char in Hl; [discriminate | exact Hc]. Qed.

End Stripping.

(** The two facts above, for white space read from the start and from the
    end. *)
Lemma whiteSpace_strip (c s : string) :
  In c whiteSpace -> strip whiteSpace (c +:+ s) = strip whiteSpace s.
Proof.
  intros H. set (chars := whiteSpace) in H. vm_compute in chars. subst chars.
  repeat destruct H as [<-|H]; try reflexivity. destruct H.
Qed.

Lemma whiteSpace_leads (c s : string) :
  In c whiteSpace -> leads whiteSpace (c +:+ s) = true.
Proof.
  intros H. set (chars := whiteSpace) in H. vm_compute in chars. subst chars.
  repeat destruct H as [<-|H]; try reflexivity. destruct H.
Qed.

Lemma whiteSpaceReversed_leads (c s : string) :
  In c whiteSpaceReversed -> leads whiteSpaceReversed (c +:+ s) = true.
Proof.
  intros H. set (chars := whiteSpaceReversed) in H. vm_compute in chars. subst chars.
  repeat destruct H as [<-|H]; try reflexivity. destruct H.
Qed.

(** *** [trim] *)

(** What [trimStart] removes is white space, and what it leaves does not
    start with white space. *)
Lemma trimStart_decompose (s : string) :
  exists p, blank p /\ s = p +:+ trimStart s /\ leads whiteSpace (trimStart s) = false.
Proof. apply strip_decompose. Qed.

(** What [trimEnd] removes is white space, and what it leaves does not
    end with white space. *)
Lemma trimEnd_decompose (s : string) :
  exists q, blank q /\ s = trimEnd s +:+ q
            /\ leads whiteSpaceReversed (String.rev (trimEnd s)) = false.
Proof.
  unfold trimEnd.
  destruct (strip_decompose whiteSpaceReversed (String.rev s)) as (p & Hp & Heq & Hl).
  exists (String.rev p). split; [now apply madeOf_rev_inv|]. split.
  - rewrite <- rev_app_distr, <- Heq. symmetry. apply rev_involutive.
  - now rewrite rev_involutive.
Qed.

(** [trim] removes white space from both ends and nothing else. *)
Lemma trim_decompose (s : string) :
  exists p q, blank p /\ blank q /\ s = p +:+ trim s +:+ q.
Proof.
  destruct (trimStart_decompose s) as (p & Hp & Heq & _).
  destruct (trimEnd_decompose (trimStart s)) as (q & Hq & Heq' & _).
  exists p, q. repeat split; [exact Hp | exact Hq|].
  unfold trim. now rewrite <- Heq', <- Heq.
Qed.

(** [trim] gives the empty string exactly on the strings of white space. *)
Lemma trim_empty_iff (s : string) : trim s = "" <-> blank s.
Proof.
  split.
  - intros H. destruct (trim_decompose s) as (p & q & Hp & Hq & Heq).
    rewrite H, app_empty_l in Heq. subst s. now apply madeOf_app.
  - intros H. unfold trim, trimStart.
    now rewrite (strip_all whiteSpace whiteSpace_strip s H).
Qed.

Lemma trim_empty_iff_blank (s : string) : truthy (trim s) = false <-> blank s.
Proof. rewrite truthy_false. apply trim_empty_iff. Qed.

Lemma trim_leads (s : string) : leads whiteSpace (trim s) = false.
Proof.
  destruct (trimStart_decompose s) as (_ & _ & _ & Hl).
  destruct (trimEnd_decompose (trimStart s)) as (q & _ & Heq & _).
  rewrite Heq in Hl. exact (leads_prefix _ _ _ Hl).
Qed.

Lemma trim_leads_reversed (s : string) :
  leads whiteSpaceReversed (String.rev (trim s)) = false.
Proof. unfold trim. now destruct (trimEnd_decompose (trimStart s)) as (_ & _ & _ & Hl). Qed.

(** The result of [trim] neither starts nor ends with a white-space
    character. *)
Lemma trim_start (s c rest : string) : In c whiteSpace -> trim s <> c +:+ rest.
Proof.
  intros Hc. exact (leads_false_char whiteSpace whiteSpace_leads _ c rest (trim_leads s) Hc).
Qed.

Lemma trim_end (s c rest : string) : In c whiteSpace -> trim s <> rest +:+ c.
Proof.
  intros Hc Heq. apply (f_equal String.rev) in Heq. rewrite rev_app_distr in Heq.
  revert Heq.
  apply (leads_false_char whiteSpaceReversed whiteSpaceReversed_leads _ _ _
           (trim_leads_reversed s)).
  now apply in_map.
Qed.

Lemma trim_idempotent (s : string) : trim (trim s) = trim s.
Proof.
  unfold trim at 1. unfold trimStart. rewrite (strip_stuck _ _ (trim_leads s)).
  unfold trimEnd. rewrite (strip_stuck _ _ (trim_leads_reversed s)).
  apply rev_involutive.
Qed.

Lemma dropSlashes_slash (s : string) : dropSlashes (String "/" s) = dropSlashes s.
Proof. reflexivity. Qed.

Lemma dropSlashes_head (s : string) (c : ascii) (rest : string) :
  dropSlashes s = String c rest -> c <> "/"%char.
Proof.
  induction s as [|a s IH]; [discriminate|].
  simpl. destruct (Ascii.eqb a "/") eqn:Ha; [exact IH|].
  intros [= <- _]. now apply Ascii.eqb_neq.
Qed.

(** One more trailing slash changes nothing. *)
Lemma stripTrailingSlashes_slash (s : string) :
  stripTrailingSlashes (s +:+ "/") = stripTrailingSlashes s.
Proof. unfold stripTrailingSlashes. now rewrite rev_snoc, dropSlashes_slash. Qed.

(** The result has no trailing slash. *)
Lemma stripTrailingSlashes_last (s pre : string) :
  stripTrailingSlashes s <> pre +:+ "/".
Proof.
  unfold stripTrailingSlashes. intros H. apply (f_equal String.rev) in H.
  rewrite rev_involutive, rev_snoc in H. now apply dropSlashes_head in H.
Qed.


(** *** Splitting *)

Lemma lacks_app (c : ascii) (s t : string) :
  Oidc.lacks c (s +:+ t) = Oidc.lacks c s && Oidc.lacks c t.
Proof.
  induction s as [|a s IH]; [reflexivity|].
  rewrite app_cons. simpl. now rewrite IH, andb_assoc.
Qed.

Lemma split_nonempty (sep : ascii) (s : string) : split sep s <> [].
Proof.
  induction s as [|a s IH]; simpl; [discriminate|].
  destruct (Ascii.eqb a sep); [discriminate|].
  destruct (split sep s); discriminate.
Qed.

(** No piece contains the separator. *)
Lemma split_lacks (sep : ascii) (s : string) :
  Forall (fun piece => Oidc.lacks sep piece = true) (split sep s).
Proof.
  induction s as [|a s IH]; simpl; [repeat constructor|].
  destruct (Ascii.eqb a sep) eqn:Ha; [now constructor|].
  destruct (split sep s) as [|piece pieces]; [repeat constructor; simpl; now rewrite Ha|].
  inversion IH as [|? ? Hp Hps]; subst. constructor; [|exact Hps].
  simpl. now rewrite Ha, Hp.
Qed.

Lemma split_whole (sep : ascii) (s : string) :
  Oidc.lacks sep s = true -> split sep s = [s].
Proof.
  induction s as [|a s IH]; [reflexivity|].
  simpl. intros [Ha Hs]%andb_true_iff. apply negb_true_iff in Ha.
  now rewrite Ha, (IH Hs).
Qed.

Lemma split_app (sep : ascii) (s rest : string) :
  Oidc.lacks sep s = true ->
  split sep (s +:+ String sep rest) = s :: split sep rest.
Proof.
  induction s as [|a s IH]; intros Hs.
  - rewrite app_empty_l. simpl. now rewrite Ascii.eqb_refl.
  - simpl in Hs. apply andb_true_iff in Hs as [Ha Hs]. apply negb_true_iff in Ha.
    rewrite app_cons. simpl. now rewrite Ha, (IH Hs).
Qed.

(** Trimming keeps within the string. *)
Lemma trim_lacks (c : ascii) (s : string) :
  Oidc.lacks c s = true -> Oidc.lacks c (trim s) = true.
Proof.
  intros Hs. destruct (trim_decompose s) as (p & q & _ & _ & Heq).
  rewrite Heq, !lacks_app in Hs.
  apply andb_true_iff in Hs as [_ Hs]. now apply andb_true_iff in Hs as [Hs _].
Qed.

(** *** The order of [sort] *)

Lemma codeUnitLe_total : Total codeUnitLe.
Proof. intros s t. exact (String.le_total (ranked s) (ranked t)). Qed.

(** A character outside the Basic Multilingual Plane (here U+1F3E2) sorts
    before a character of U+E000-U+FFFF (here U+FF21), although its bytes
    are greater; elsewhere the order is that of the bytes. *)
Example codeUnitLe_example :
  codeUnitLe (utf8 0x1F3E2) (utf8 0xFF21)
  /\ ~ codeUnitLe (utf8 0xFF21) (utf8 0x1F3E2)
  /\ String.le (utf8 0xFF21) (utf8 0x1F3E2)
  /\ codeUnitLe "Austin" "Santa Clara"
  /\ codeUnitLe "Z" (utf8 0xE9).
Proof. repeat split; try exact I. intros []. Qed.

End JsFacts.

(** ** The OIDC verifier *)

Module OidcFacts.

Import Js JsFacts Oidc.

Lemma emailOf_Some (payload : JWTPayload) (email : string) :
  emailOf payload = Some email <-> payload !! "email" = Some (JString email).
Proof.
  unfold emailOf.
  destruct (payload !! "email") as [[| | |s|]|]; split; intros H; congruence.
Qed.

Lemma extractUserClaim_Some (payload : JWTPayload) (claim user : string) :
  extractUserClaim payload claim = Some user ->
  user <> "" /\ exists val, payload !! claim = Some (JString val) /\ user = trim val.
Proof.
  unfold extractUserClaim.
  destruct (payload !! claim) as [[| | |val|]|]; try discriminate.
  destruct (truthy (trim val)) eqn:Ht; [|discriminate].
  intros [= <-]. split; [now apply truthy_true | eauto].
Qed.

Lemma extractUserClaim_None (payload : JWTPayload) (claim : string) :
  extractUserClaim payload claim = None <-> ~ userClaimUsable payload claim.
Proof.
  unfold extractUserClaim, userClaimUsable. split.
  - intros H [val [Hval Hne]]. rewrite Hval in H.
    destruct (truthy (trim val)) eqn:Ht; [discriminate|].
    now apply trim_empty_iff_blank in Ht.
  - intros H. destruct (payload !! claim) as [[| | |val|]|]; try reflexivity.
    destruct (truthy (trim val)) eqn:Ht; [|reflexivity].
    exfalso. apply H. exists val. split; [reflexivity|].
    intros Hb. apply trim_empty_iff_blank in Hb. congruence.
Qed.

(** A string with something left after trimming is not blank. *)
Lemma trimmed_not_blank (s : string) : truthy (trim s) = true -> ~ blank s.
Proof. intros Ht Hb. apply trim_empty_iff_blank in Hb. congruence. Qed.

Lemma truthy_at (pre d : string) : truthy (pre +:+ "@" +:+ d) = true.
Proof. destruct pre; reflexivity. Qed.

(** [checkDomainRestriction] decides [emailInDomains]. *)
Lemma checkDomainRestriction_spec (payload : JWTPayload) (domains : list string) :
  checkDomainRestriction (emailOf payload) domains = true <-> emailInDomains payload domains.
Proof.
  unfold checkDomainRestriction, emailInDomains. split.
  - destruct (emailOf payload) as [email|] eqn:He; [|discriminate].
    apply emailOf_Some in He.
    destruct (truthy email); [|discriminate].
    intros H. apply existsb_exists in H as [d [Hd Hends]].
    apply endsWith_spec in Hends as [pre Hpre]. eauto 6.
  - intros [email [d [pre [He [Hd Heq]]]]].
    apply emailOf_Some in He. rewrite He. subst email. rewrite truthy_at.
    apply existsb_exists. exists d. split; [exact Hd|].
    apply endsWith_spec. eauto.
Qed.

(** [checkEmailAllowlist] decides [emailInAllowlist]. *)
Lemma checkEmailAllowlist_spec (toLowerCase : ToLowerCase)
    (payload : JWTPayload) (emails : list string) :
  checkEmailAllowlist toLowerCase (emailOf payload) emails = true <-> emailInAllowlist toLowerCase payload emails.
Proof.
  unfold checkEmailAllowlist, emailInAllowlist. split.
  - destruct (emailOf payload) as [email|] eqn:He; [|discriminate].
    apply emailOf_Some in He.
    destruct (truthy email) eqn:Ht; [|discriminate].
    apply truthy_true in Ht.
    intros H. apply existsb_exists in H as [e [Hin Heq]].
    apply String.eqb_eq in Heq. eauto 6.
  - intros [email [e [He [Hne [Hin Heq]]]]].
    apply emailOf_Some in He. rewrite He.
    apply truthy_true in Hne. rewrite Hne.
    apply existsb_exists. exists e. split; [exact Hin|]. now apply String.eqb_eq.
Qed.

Lemma hasLength_true (l : option (list string)) :
  hasLength l = true <-> exists x xs, l = Some (x :: xs).
Proof.
  destruct l as [[|x xs]|]; simpl; split; try discriminate; eauto.
  - intros (? & ? & [=]).
  - intros (? & ? & [=]).
Qed.

Lemma hasLength_Some (domains : list string) :
  domains <> [] -> hasLength (Some domains) = true.
Proof. destruct domains; [congruence | reflexivity]. Qed.

(** The test suite of the verifier, on the fixtures. *)
Example accepts_valid_token :
  verify asciiLowerCase testJwtVerify testConfig "good"
  = VerifyOk "user-123" (claimsOf (Some "user-123") (Some "user@mycompany.com")).
Proof. reflexivity. Qed.

Example rejects_expired_token :
  verify asciiLowerCase testJwtVerify testConfig "expired" = VerifyFail "oidc_token_expired".
Proof. reflexivity. Qed.

Example rejects_wrong_audience :
  verify asciiLowerCase testJwtVerify testConfig "wrong-audience" = VerifyFail "oidc_token_invalid".
Proof. reflexivity. Qed.

Example rejects_garbage :
  verify asciiLowerCase testJwtVerify testConfig "not-a-jwt" = VerifyFail "oidc_token_invalid".
Proof. reflexivity. Qed.

Example rejects_missing_sub :
  verify asciiLowerCase testJwtVerify testConfig "no-sub" = VerifyFail "oidc_user_claim_missing".
Proof. reflexivity. Qed.

Example custom_user_claim :
  verify asciiLowerCase testJwtVerify
    {| issuer := issuer testConfig; audience := audience testConfig;
       jwksUri := jwksUri testConfig; userClaim := Some "email";
       allowedDomains := None; allowedEmails := None |} "good"
  = VerifyOk "user@mycompany.com" (claimsOf (Some "user-123") (Some "user@mycompany.com")).
Proof. reflexivity. Qed.

Example enforces_allowedDomains :
  let domainConfig := setAllowedDomains (Some ["mycompany.com"]) testConfig in
  verify asciiLowerCase testJwtVerify domainConfig "good"
  = VerifyOk "user-123" (claimsOf (Some "user-123") (Some "user@mycompany.com"))
  /\ verify asciiLowerCase testJwtVerify domainConfig "other-domain" = VerifyFail "oidc_domain_not_allowed"
  /\ verify asciiLowerCase testJwtVerify domainConfig "no-email" = VerifyFail "oidc_domain_not_allowed".
Proof. repeat split; reflexivity. Qed.

Example enforces_allowedEmails :
  let emailConfig :=
    setAllowedEmails (Some ["admin@example.com"; "dev@example.com"]) testConfig in
  verify asciiLowerCase testJwtVerify emailConfig "admin"
  = VerifyOk "user-2" (claimsOf (Some "user-2") (Some "Admin@Example.com"))
  /\ verify asciiLowerCase testJwtVerify emailConfig "random" = VerifyFail "oidc_email_not_allowed".
Proof. repeat split; reflexivity. Qed.

(** Every rejection reason [verify] can report. *)
Lemma verify_reasons (toLowerCase : ToLowerCase)
    (jwtVerify : JwtVerify) (config : OidcVerifierConfig)
    (token reason : string) :
  verify toLowerCase jwtVerify config token = VerifyFail reason ->
  In reason ["oidc_user_claim_missing"; "oidc_domain_not_allowed"; "oidc_email_not_allowed";
             "oidc_token_expired"; "oidc_signature_invalid"; "oidc_token_invalid"].
Proof.
  unfold verify.
  destruct (jwtVerify token _ _) as [payload|err].
  - destruct (extractUserClaim payload _); [|intros [= <-]; simpl; tauto].
    destruct (_ && _); [intros [= <-]; simpl; tauto|].
    destruct (_ && _); [intros [= <-]; simpl; tauto|discriminate].
  - destruct (String.eqb _ _); [intros [= <-]; simpl; tauto|].
    destruct (String.eqb _ _); intros [= <-]; simpl; tauto.
Qed.

(** C6. When the cryptographic validation of the assertion fails, [verify]
    does not throw: it returns a tagged failure, whose reason is
    [oidc_token_expired] for an expired token, [oidc_signature_invalid] for
    a failed signature verification, and the generic [oidc_token_invalid]
    for every other failure (wrong issuer, wrong audience, malformed
    token, a thrown value without a code). *)
Theorem verify_failure_mapping (toLowerCase : ToLowerCase)
    (jwtVerify : JwtVerify) (config : OidcVerifierConfig)
    (token : string) (err : Thrown) :
  jwtVerify token (normalizedIssuer config) (audience config) = Threw err ->
  exists reason,
    verify toLowerCase jwtVerify config token = VerifyFail reason
    /\ (codeOf err = "ERR_JWT_EXPIRED" -> reason = "oidc_token_expired")
    /\ (codeOf err = "ERR_JWS_SIGNATURE_VERIFICATION_FAILED" ->
        reason = "oidc_signature_invalid")
    /\ (codeOf err <> "ERR_JWT_EXPIRED" ->
        codeOf err <> "ERR_JWS_SIGNATURE_VERIFICATION_FAILED" ->
        reason = "oidc_token_invalid").
Proof.
  intros Hthrew. unfold verify. rewrite Hthrew. cbv zeta.
  destruct (String.eqb (codeOf err) "ERR_JWT_EXPIRED") eqn:Hexp.
  - apply String.eqb_eq in Hexp. eexists. split; [reflexivity|].
    repeat split; intros; try reflexivity; congruence.
  - apply String.eqb_neq in Hexp.
    destruct (String.eqb (codeOf err) "ERR_JWS_SIGNATURE_VERIFICATION_FAILED") eqn:Hsig.
    + apply String.eqb_eq in Hsig. eexists. split; [reflexivity|].
      repeat split; intros; try reflexivity; congruence.
    + apply String.eqb_neq in Hsig. eexists. split; [reflexivity|].
      repeat split; intros; try reflexivity; congruence.
Qed.

Lemma verify_failure_mapping_witness :
  verify asciiLowerCase testJwtVerify testConfig "expired" = VerifyFail "oidc_token_expired"
  /\ verify asciiLowerCase testJwtVerify testConfig "forged" = VerifyFail "oidc_signature_invalid"
  /\ verify asciiLowerCase testJwtVerify testConfig "wrong-audience" = VerifyFail "oidc_token_invalid".
Proof.
  split; [|split].
  - destruct (verify_failure_mapping asciiLowerCase testJwtVerify testConfig "expired"
                (ErrWithCode "ERR_JWT_EXPIRED") eq_refl) as [reason [Hv [Hexp _]]].
    rewrite Hv. f_equal. apply Hexp. reflexivity.
  - destruct (verify_failure_mapping asciiLowerCase testJwtVerify testConfig "forged"
                (ErrWithCode "ERR_JWS_SIGNATURE_VERIFICATION_FAILED") eq_refl)
      as [reason [Hv [_ [Hsig _]]]].
    rewrite Hv. f_equal. apply Hsig. reflexivity.
  - destruct (verify_failure_mapping asciiLowerCase testJwtVerify testConfig "wrong-audience"
                (ErrWithCode "ERR_JWT_CLAIM_VALIDATION_FAILED") eq_refl)
      as [reason [Hv [_ [_ Hother]]]].
    rewrite Hv. f_equal. apply Hother; discriminate.
Defined.

(** C7. For an assertion that passes cryptographic validation, [verify]
    fails with [oidc_user_claim_missing] exactly when the configured user
    claim ([sub] unless configured otherwise) is absent from the payload,
    is not a string, or is a string of white space only (so that nothing
    is left of it after trimming).  No allowlist is consulted for this, so
    the reason is reported whatever the allowlists say; and it is never
    reported when cryptographic validation fails. *)
Theorem user_claim_missing_iff (toLowerCase : ToLowerCase) (jwtVerify : JwtVerify)
    (config : OidcVerifierConfig) (token : string) :
  effectiveUserClaim config = match userClaim config with Some c => c | None => "sub" end
  /\ match jwtVerify token (normalizedIssuer config) (audience config) with
     | Verified payload =>
         verify toLowerCase jwtVerify config token = VerifyFail "oidc_user_claim_missing"
         <-> ~ userClaimUsable payload (effectiveUserClaim config)
     | Threw _ =>
         verify toLowerCase jwtVerify config token <> VerifyFail "oidc_user_claim_missing"
     end.
Proof.
  split; [reflexivity|].
  unfold verify.
  destruct (jwtVerify token _ _) as [payload|err].
  - rewrite <- extractUserClaim_None.
    destruct (extractUserClaim payload _) as [user|]; [|tauto].
    cbv zeta. split; [|discriminate].
    destruct (_ && _); [discriminate|].
    destruct (_ && _); discriminate.
  - cbv zeta. destruct (String.eqb _ _); [discriminate|].
    destruct (String.eqb _ _); discriminate.
Qed.

(** A [sub] made of a no-break space, a space and an ideographic space is
    missing, although its email is outside the configured domain; a [sub]
    with a name between a no-break space and an em space is not. *)
Lemma user_claim_missing_iff_witness :
  let config := setAllowedDomains (Some ["mycompany.com"]) testConfig in
  verify asciiLowerCase testJwtVerify config "nbsp-sub" = VerifyFail "oidc_user_claim_missing"
  /\ verify asciiLowerCase testJwtVerify config "padded-sub"
     <> VerifyFail "oidc_user_claim_missing".
Proof.
  intros config. split.
  - refine (proj2 (proj2 (user_claim_missing_iff asciiLowerCase testJwtVerify config
                            "nbsp-sub")
                   : _ <-> ~ userClaimUsable
                               (claimsOf (Some (utf8 0xA0 +:+ " " +:+ utf8 0x3000))
                                  (Some "user@other.com")) "sub") _).
    intros [val [Hval Hnot]]. apply Hnot.
    assert (Hsub : val = utf8 0xA0 +:+ " " +:+ utf8 0x3000)
      by (vm_compute in Hval; now injection Hval as <-).
    rewrite Hsub. now apply trim_empty_iff.
  - intros Hmissing.
    refine (proj1 (proj2 (user_claim_missing_iff asciiLowerCase testJwtVerify config
                            "padded-sub")
                   : _ <-> ~ userClaimUsable
                               (claimsOf (Some (utf8 0xA0 +:+ "alice" +:+ utf8 0x2003))
                                  (Some "alice@mycompany.com")) "sub") Hmissing _).
    exists (utf8 0xA0 +:+ "alice" +:+ utf8 0x2003).
    split; [reflexivity | now apply trimmed_not_blank].
Defined.

(** A token with a blank [sub] and an email outside the configured domain
    reports the missing user claim, not the domain. *)
Example user_claim_checked_before_allowlists :
  verify asciiLowerCase testJwtVerify (setAllowedDomains (Some ["mycompany.com"]) testConfig) "blank-sub"
  = VerifyFail "oidc_user_claim_missing".
Proof. reflexivity. Qed.

(** [verify] on an assertion that passes cryptographic validation. *)
Lemma verify_Verified (toLowerCase : ToLowerCase)
    (jwtVerify : JwtVerify) (config : OidcVerifierConfig)
    (token : string) (payload : JWTPayload) :
  jwtVerify token (normalizedIssuer config) (audience config) = Verified payload ->
  verify toLowerCase jwtVerify config token =
  match extractUserClaim payload (effectiveUserClaim config) with
  | None => VerifyFail "oidc_user_claim_missing"
  | Some user =>
      if hasLength (allowedDomains config)
         && negb (checkDomainRestriction (emailOf payload)
                    (nullish (allowedDomains config) []))
      then VerifyFail "oidc_domain_not_allowed"
      else if hasLength (allowedEmails config)
              && negb (checkEmailAllowlist toLowerCase (emailOf payload)
                         (nullish (allowedEmails config) []))
      then VerifyFail "oidc_email_not_allowed"
      else VerifyOk user payload
  end.
Proof. intros H. unfold verify. now rewrite H. Qed.

Lemma domainStepPasses_false (config : OidcVerifierConfig) (payload : JWTPayload) :
  domainStepPasses config payload ->
  hasLength (allowedDomains config)
  && negb (checkDomainRestriction (emailOf payload) (nullish (allowedDomains config) []))
  = false.
Proof.
  intros [Hno | Hin].
  - now rewrite Hno.
  - apply checkDomainRestriction_spec in Hin. rewrite Hin. apply andb_false_r.
Qed.

(** C8, as worded, fails: an [allowedDomains] that is configured as the
    empty list restricts nothing, and an assertion without an email claim
    is accepted. *)
Lemma empty_allowedDomains_accepts_missing_email :
  let config := setAllowedDomains (Some []) testConfig in
  let payload := claimsOf (Some "user-789") None in
  allowedDomains config = Some []
  /\ testJwtVerify "no-email" (normalizedIssuer config) (audience config) = Verified payload
  /\ emailOf payload = None
  /\ ~ emailInDomains payload []
  /\ verify asciiLowerCase testJwtVerify config "no-email" = VerifyOk "user-789" payload.
Proof.
  repeat split; try reflexivity.
  intros (email & d & pre & _ & [] & _).
Qed.

(** C8, amended. When [allowedDomains] is configured with at least one
    domain, [verify] accepts only if the email claim is a string ending
    with ["@"] followed by one of the configured domains (compared as
    written), and an assertion that carries a usable user claim but no such
    email is rejected with [oidc_domain_not_allowed]; in particular when the
    email claim is absent or not a string. *)
Theorem domain_restriction (toLowerCase : ToLowerCase)
    (jwtVerify : JwtVerify) (config : OidcVerifierConfig)
    (token : string) (payload : JWTPayload) (domains : list string) :
  allowedDomains config = Some domains ->
  domains <> [] ->
  jwtVerify token (normalizedIssuer config) (audience config) = Verified payload ->
  (forall user claims,
      verify toLowerCase jwtVerify config token = VerifyOk user claims -> emailInDomains payload domains)
  /\ (userClaimUsable payload (effectiveUserClaim config) ->
      ~ emailInDomains payload domains ->
      verify toLowerCase jwtVerify config token = VerifyFail "oidc_domain_not_allowed")
  /\ (userClaimUsable payload (effectiveUserClaim config) ->
      emailOf payload = None ->
      verify toLowerCase jwtVerify config token = VerifyFail "oidc_domain_not_allowed").
Proof.
  intros Hdoms Hne Hverified.
  rewrite (verify_Verified _ _ _ _ _ Hverified), Hdoms, (hasLength_Some _ Hne).
  cbn [nullish andb].
  assert (Hreject : userClaimUsable payload (effectiveUserClaim config) ->
                    ~ emailInDomains payload domains ->
                    match extractUserClaim payload (effectiveUserClaim config) with
                    | Some user =>
                        if negb (checkDomainRestriction (emailOf payload) domains)
                        then VerifyFail "oidc_domain_not_allowed"
                        else if hasLength (allowedEmails config)
                                && negb (checkEmailAllowlist toLowerCase (emailOf payload)
                                           (nullish (allowedEmails config) []))
                        then VerifyFail "oidc_email_not_allowed"
                        else VerifyOk user payload
                    | None => VerifyFail "oidc_user_claim_missing"
                    end = VerifyFail "oidc_domain_not_allowed").
  { intros Husable Hnot.
    destruct (extractUserClaim payload _) as [user|] eqn:Hu.
    - rewrite <- checkDomainRestriction_spec in Hnot.
      apply not_true_is_false in Hnot. now rewrite Hnot.
    - apply extractUserClaim_None in Hu. contradiction. }
  split; [|split].
  - intros user claims.
    destruct (extractUserClaim payload _) as [u|]; [|discriminate].
    destruct (checkDomainRestriction (emailOf payload) domains) eqn:Hc; [|discriminate].
    intros _. now apply checkDomainRestriction_spec.
  - exact Hreject.
  - intros Husable Hnone. apply Hreject; [exact Husable|].
    intros (email & d & pre & He & _). apply emailOf_Some in He. congruence.
Qed.

Lemma domain_restriction_witness :
  emailInDomains (claimsOf (Some "user-123") (Some "user@mycompany.com")) ["mycompany.com"]
  /\ verify asciiLowerCase testJwtVerify (setAllowedDomains (Some ["mycompany.com"]) testConfig) "no-email"
     = VerifyFail "oidc_domain_not_allowed".
Proof.
  split.
  - refine (proj1 (domain_restriction asciiLowerCase testJwtVerify
                     (setAllowedDomains (Some ["mycompany.com"]) testConfig) "good"
                     _ ["mycompany.com"] eq_refl _ eq_refl) _ _ eq_refl).
    discriminate.
  - refine (proj2 (proj2 (domain_restriction asciiLowerCase testJwtVerify
                     (setAllowedDomains (Some ["mycompany.com"]) testConfig) "no-email"
                     _ ["mycompany.com"] eq_refl _ eq_refl)) _ eq_refl).
    + discriminate.
    + exists "user-789". split; [reflexivity | now apply trimmed_not_blank].
Defined.

(** C9, as worded, fails in two places: an [allowedEmails] configured as the
    empty list restricts nothing (an assertion without an email claim is
    accepted), and an email claim that is the empty string counts as
    missing even when the allowlist has an entry equal to it. *)
Lemma allowedEmails_membership_gaps :
  (let config := setAllowedEmails (Some []) testConfig in
   let payload := claimsOf (Some "user-789") None in
   allowedEmails config = Some []
   /\ testJwtVerify "no-email" (normalizedIssuer config) (audience config) = Verified payload
   /\ ~ emailMatches asciiLowerCase payload []
   /\ verify asciiLowerCase testJwtVerify config "no-email" = VerifyOk "user-789" payload)
  /\
  (let config := setAllowedEmails (Some [""]) testConfig in
   let payload := claimsOf (Some "user-0") (Some "") in
   allowedEmails config = Some [""]
   /\ testJwtVerify "empty-email" (normalizedIssuer config) (audience config)
      = Verified payload
   /\ emailMatches asciiLowerCase payload [""]
   /\ verify asciiLowerCase testJwtVerify config "empty-email" = VerifyFail "oidc_email_not_allowed").
Proof.
  split; repeat split; try reflexivity.
  - intros (email & e & _ & [] & _).
  - exists "", "". repeat split. now left.
Qed.

(** C9, amended. When [allowedEmails] is configured with at least one
    entry, an assertion that has passed the cryptographic, user-claim and
    domain checks is accepted if its email claim is a non-empty string
    equal to one of the entries up to letter case (after [toLowerCase], the
    engine's, on both), and is rejected with [oidc_email_not_allowed]
    otherwise; in particular when the email claim is missing. *)
Theorem email_allowlist (toLowerCase : ToLowerCase)
    (jwtVerify : JwtVerify) (config : OidcVerifierConfig)
    (token user : string) (payload : JWTPayload) (emails : list string) :
  allowedEmails config = Some emails ->
  emails <> [] ->
  jwtVerify token (normalizedIssuer config) (audience config) = Verified payload ->
  extractUserClaim payload (effectiveUserClaim config) = Some user ->
  domainStepPasses config payload ->
  (emailInAllowlist toLowerCase payload emails ->
   verify toLowerCase jwtVerify config token = VerifyOk user payload)
  /\ (~ emailInAllowlist toLowerCase payload emails ->
      verify toLowerCase jwtVerify config token = VerifyFail "oidc_email_not_allowed")
  /\ (emailOf payload = None ->
      verify toLowerCase jwtVerify config token = VerifyFail "oidc_email_not_allowed").
Proof.
  intros Hemails Hne Hverified Huser Hdomain.
  rewrite (verify_Verified _ _ _ _ _ Hverified), Huser,
    (domainStepPasses_false _ _ Hdomain), Hemails, (hasLength_Some _ Hne).
  cbn [nullish andb].
  assert (Hreject : ~ emailInAllowlist toLowerCase payload emails ->
                    (if negb (checkEmailAllowlist toLowerCase (emailOf payload) emails)
                     then VerifyFail "oidc_email_not_allowed"
                     else VerifyOk user payload) = VerifyFail "oidc_email_not_allowed").
  { intros Hnot. rewrite <- checkEmailAllowlist_spec in Hnot.
    apply not_true_is_false in Hnot. now rewrite Hnot. }
  split; [|split].
  - intros Hin. apply checkEmailAllowlist_spec in Hin. now rewrite Hin.
  - exact Hreject.
  - intros Hnone. apply Hreject.
    intros (email & e & He & _). apply emailOf_Some in He. congruence.
Qed.

Lemma email_allowlist_witness :
  let emailConfig :=
    setAllowedEmails (Some ["admin@example.com"; "dev@example.com"]) testConfig in
  verify asciiLowerCase testJwtVerify emailConfig "admin"
  = VerifyOk "user-2" (claimsOf (Some "user-2") (Some "Admin@Example.com"))
  /\ verify asciiLowerCase testJwtVerify emailConfig "no-email" = VerifyFail "oidc_email_not_allowed".
Proof.
  split.
  - refine (proj1 (email_allowlist asciiLowerCase testJwtVerify
                     (setAllowedEmails (Some ["admin@example.com"; "dev@example.com"])
                        testConfig) "admin" "user-2" _
                     ["admin@example.com"; "dev@example.com"]
                     eq_refl _ eq_refl eq_refl (or_introl eq_refl)) _).
    + discriminate.
    + exists "Admin@Example.com", "admin@example.com".
      repeat split; [discriminate | now left].
  - refine (proj2 (proj2 (email_allowlist asciiLowerCase testJwtVerify
                     (setAllowedEmails (Some ["admin@example.com"; "dev@example.com"])
                        testConfig) "no-email" "user-789" _
                     ["admin@example.com"; "dev@example.com"]
                     eq_refl _ eq_refl eq_refl (or_introl eq_refl))) eq_refl).
    discriminate.
Defined.

(** C10. An allowlist that is present but empty imposes no restriction:
    [verify] answers as if the allowlist were not configured, so an
    assertion that is otherwise valid is accepted under empty allowlists
    even when it carries no email claim. *)
Theorem empty_allowlist_is_no_allowlist (toLowerCase : ToLowerCase) (jwtVerify : JwtVerify)
    (config : OidcVerifierConfig) (token : string) :
  verify toLowerCase jwtVerify (setAllowedDomains (Some []) config) token
  = verify toLowerCase jwtVerify (setAllowedDomains None config) token
  /\ verify toLowerCase jwtVerify (setAllowedEmails (Some []) config) token
     = verify toLowerCase jwtVerify (setAllowedEmails None config) token
  /\ (forall payload user,
        jwtVerify token (normalizedIssuer config) (audience config) = Verified payload ->
        extractUserClaim payload (effectiveUserClaim config) = Some user ->
        emailOf payload = None ->
        verify toLowerCase jwtVerify
          (setAllowedDomains (Some []) (setAllowedEmails (Some []) config)) token
        = VerifyOk user payload).
Proof.
  split; [reflexivity | split; [reflexivity|]].
  intros payload user Hverified Huser _.
  unfold verify, normalizedIssuer, effectiveUserClaim in *. cbn [issuer audience userClaim
    allowedDomains allowedEmails setAllowedDomains setAllowedEmails hasLength andb].
  now rewrite Hverified, Huser.
Qed.

Lemma empty_allowlist_is_no_allowlist_witness :
  verify asciiLowerCase testJwtVerify
    (setAllowedDomains (Some []) (setAllowedEmails (Some []) testConfig)) "no-email"
  = VerifyOk "user-789" (claimsOf (Some "user-789") None).
Proof.
  exact (proj2 (proj2 (empty_allowlist_is_no_allowlist asciiLowerCase testJwtVerify testConfig "no-email"))
           _ _ eq_refl eq_refl eq_refl).
Defined.

(** *** Further properties of the verifier *)

Lemma verify_reasons_witness :
  In "oidc_domain_not_allowed"
    ["oidc_user_claim_missing"; "oidc_domain_not_allowed"; "oidc_email_not_allowed";
     "oidc_token_expired"; "oidc_signature_invalid"; "oidc_token_invalid"].
Proof.
  exact (verify_reasons asciiLowerCase testJwtVerify (setAllowedDomains (Some ["mycompany.com"]) testConfig)
           "no-email" "oidc_domain_not_allowed" eq_refl).
Defined.


(** The user of an accepted assertion is the user claim without the white
    space around it: the claim is white space, the user, white space; the
    user is not empty and neither starts nor ends with a white-space
    character (of ASCII or beyond); and trimming it again changes
    nothing. *)
Theorem accepted_user_is_trimmed (toLowerCase : ToLowerCase) (jwtVerify : JwtVerify)
    (config : OidcVerifierConfig) (token user : string) (claims : JWTPayload) :
  verify toLowerCase jwtVerify config token = VerifyOk user claims ->
  (exists val before after,
      claims !! effectiveUserClaim config = Some (JString val)
      /\ blank before /\ blank after /\ val = before +:+ user +:+ after)
  /\ user <> ""
  /\ (forall c rest, In c whiteSpace -> user <> c +:+ rest /\ user <> rest +:+ c)
  /\ trim user = user.
Proof.
  intros Hok.
  assert (Hu : extractUserClaim claims (effectiveUserClaim config) = Some user).
  { destruct (jwtVerify token (normalizedIssuer config) (audience config))
      as [payload|err] eqn:Hjw.
    - rewrite (verify_Verified _ _ _ _ _ Hjw) in Hok.
      destruct (extractUserClaim payload _) as [u|] eqn:Hu; [|discriminate].
      destruct (hasLength (allowedDomains config) && _); [discriminate|].
      destruct (hasLength (allowedEmails config) && _); [discriminate|].
      injection Hok as <- <-. exact Hu.
    - unfold verify in Hok. rewrite Hjw in Hok. cbv zeta in Hok.
      destruct (String.eqb _ _); [discriminate|].
      destruct (String.eqb _ _); discriminate. }
  apply extractUserClaim_Some in Hu as (Hne & val & Hval & ->).
  split; [|split; [exact Hne|split; [|apply trim_idempotent]]].
  - destruct (trim_decompose val) as (before & after & Hb & Ha & Heq). eauto 8.
  - intros c rest Hc. split; [now apply trim_start | now apply trim_end].
Qed.

Lemma accepted_user_is_trimmed_witness :
  exists val before after,
    claimsOf (Some (utf8 0xA0 +:+ "alice" +:+ utf8 0x2003)) (Some "alice@mycompany.com")
      !! "sub" = Some (JString val)
    /\ blank before /\ blank after /\ val = before +:+ "alice" +:+ after.
Proof.
  exact (proj1 (accepted_user_is_trimmed asciiLowerCase testJwtVerify testConfig "padded-sub"
                  "alice" _ eq_refl)).
Defined.

(** A trailing slash on the configured issuer makes no difference: the
    verifier answers the same, discovery asks for the same document, and
    the issuer that tokens are checked against never ends with a slash. *)
Theorem issuer_trailing_slash (toLowerCase : ToLowerCase)
    (jwtVerify : JwtVerify) (config : OidcVerifierConfig)
    (token : string) :
  verify toLowerCase jwtVerify (setIssuer (issuer config +:+ "/") config) token
  = verify toLowerCase jwtVerify config token
  /\ wellKnownUrl (issuer config +:+ "/") = wellKnownUrl (issuer config)
  /\ forall pre, normalizedIssuer config <> pre +:+ "/".
Proof.
  split; [|split].
  - unfold verify, normalizedIssuer, effectiveUserClaim. simpl.
    now rewrite stripTrailingSlashes_slash.
  - unfold wellKnownUrl. now rewrite stripTrailingSlashes_slash.
  - intros pre. apply stripTrailingSlashes_last.
Qed.

Lemma lacks_afterLast (c : ascii) (s : string) : lacks c s = true -> afterLast c s = None.
Proof.
  induction s as [|a s IH]; [reflexivity|].
  simpl. intros [Ha Hs]%andb_true_iff. rewrite (IH Hs).
  apply negb_true_iff in Ha. now rewrite Ha.
Qed.

Lemma afterLast_app (c : ascii) (pre d : string) :
  lacks c d = true -> afterLast c (pre +:+ String c d) = Some d.
Proof.
  intros Hd. induction pre as [|a pre IH].
  - rewrite app_empty_l. simpl. now rewrite (lacks_afterLast _ _ Hd), Ascii.eqb_refl.
  - rewrite app_cons. simpl. now rewrite IH.
Qed.

Lemma afterLast_Some (c : ascii) (s d : string) :
  afterLast c s = Some d -> exists pre, s = pre +:+ String c d.
Proof.
  revert d. induction s as [|a s IH]; intros d; [discriminate|].
  simpl. destruct (afterLast c s) as [t|] eqn:Ht.
  - intros [= <-]. destruct (IH t eq_refl) as [pre ->].
    exists (String a pre). now rewrite app_cons.
  - destruct (Ascii.eqb a c) eqn:Ha; [|discriminate].
    apply Ascii.eqb_eq in Ha as ->. intros [= <-]. now exists "".
Qed.

(** For configured domains that contain no ["@"], the domain restriction
    compares the whole domain part of the email (what follows its last
    ["@"]) with the configured domains: a sub-domain, a longer domain with
    the same ending, or a different letter case does not pass. *)
Theorem domain_check_is_exact (email : string) (domains : list string) :
  forallb (lacks "@") domains = true ->
  (checkDomainRestriction (Some email) domains = true
   <-> exists d, In d domains /\ domainPart email = Some d).
Proof.
  intros Hlacks. unfold checkDomainRestriction, domainPart. split.
  - destruct (truthy email); [|discriminate].
    intros H. apply existsb_exists in H as [d [Hd Hends]].
    apply endsWith_spec in Hends as [pre ->].
    exists d. split; [exact Hd|].
    rewrite forallb_forall in Hlacks. apply afterLast_app. now apply Hlacks.
  - intros [d [Hd Hpart]]. apply afterLast_Some in Hpart as [pre ->].
    change (pre +:+ String "@" d) with (pre +:+ "@" +:+ d). rewrite truthy_at.
    apply existsb_exists. exists d. split; [exact Hd|]. apply endsWith_spec. eauto.
Qed.

Lemma domain_check_is_exact_witness :
  checkDomainRestriction (Some "user@sub.mycompany.com") ["mycompany.com"; "example.org"]
  = true
  <-> exists d, In d ["mycompany.com"; "example.org"]
                /\ domainPart "user@sub.mycompany.com" = Some d.
Proof.
  exact (domain_check_is_exact "user@sub.mycompany.com" ["mycompany.com"; "example.org"]
           eq_refl).
Defined.

Example sub_domain_is_rejected :
  domainPart "user@sub.mycompany.com" = Some "sub.mycompany.com"
  /\ checkDomainRestriction (Some "user@sub.mycompany.com") ["mycompany.com"] = false
  /\ checkDomainRestriction (Some "user@evilmycompany.com") ["mycompany.com"] = false.
Proof. repeat split; reflexivity. Qed.

(** Where the verifier gets its keys from.  A configured [jwksUri] is used
    as it is and the discovery document is not consulted.  Without one, a
    verifier is only constructed when the issuer's discovery document (at
    the issuer without trailing slashes) is served with a 2xx status and
    names a non-empty [jwks_uri]; the keys are then those of that URI. *)
Theorem construction_locates_key_set (toLowerCase : ToLowerCase)
    (Url : Type) (newUrl : string -> Completion Url)
    (createRemoteJWKSet : Url -> JwtVerify) (fetchDocument : string -> DiscoveryOutcome)
    (config : OidcVerifierConfig) :
  (forall configured other,
      jwksUri config = Some configured ->
      createOidcVerifier toLowerCase Url newUrl createRemoteJWKSet fetchDocument config
      = createOidcVerifier toLowerCase Url newUrl createRemoteJWKSet other config)
  /\ (forall verifier,
        createOidcVerifier toLowerCase Url newUrl createRemoteJWKSet fetchDocument config
        = Returns verifier ->
        exists uri url,
          newUrl uri = Returns url
          /\ verifier = verify toLowerCase (createRemoteJWKSet url) config
          /\ match jwksUri config with
             | Some configured => uri = configured
             | None =>
                 uri <> ""
                 /\ exists status,
                     statusOk status = true
                     /\ fetchDocument (wellKnownUrl (issuer config))
                        = DiscoveryResponse status (Returns (Some uri))
             end).
Proof.
  unfold createOidcVerifier. split.
  - intros configured other ->. reflexivity.
  - intros verifier. destruct (jwksUri config) as [configured|].
    + destruct (newUrl configured) as [url|m] eqn:Hurl; [|discriminate].
      intros [= <-]. exists configured, url. auto.
    + unfold discoverJwksUri.
      destruct (fetchDocument _) as [m|status [[uri|]|m]] eqn:Hfetch; try discriminate;
        destruct (statusOk status) eqn:Hok; simpl; try discriminate.
      destruct (truthy uri) eqn:Huri; [|discriminate].
      destruct (newUrl uri) as [url|m] eqn:Hurl; [|discriminate].
      intros [= <-]. exists uri, url. repeat split; try assumption.
      * now apply truthy_true.
      * exists status. auto.
Qed.

Lemma construction_locates_key_set_witness :
  exists verifier,
    createOidcVerifier asciiLowerCase string testNewUrl testKeySet testDiscovery
      (setIssuer "http://127.0.0.1:4000//"
         {| issuer := ""; audience := "test-client-id"; jwksUri := None;
            userClaim := None; allowedDomains := None; allowedEmails := None |})
    = Returns verifier
    /\ verifier "expired" = VerifyFail "oidc_token_expired".
Proof.
  eexists. split; [reflexivity|].
  destruct (proj2 (construction_locates_key_set asciiLowerCase string testNewUrl testKeySet testDiscovery
                     (setIssuer "http://127.0.0.1:4000//"
                        {| issuer := ""; audience := "test-client-id"; jwksUri := None;
                           userClaim := None; allowedDomains := None;
                           allowedEmails := None |})) _ eq_refl)
    as (uri & url & _ & _ & _).
  reflexivity.
Defined.

Example construction_fails_without_document :
  createOidcVerifier asciiLowerCase string testNewUrl testKeySet testDiscovery
    (setIssuer "http://elsewhere.example" testConfig)
  = Returns (verify asciiLowerCase (testKeySet "http://127.0.0.1:4000/.well-known/jwks.json")
               (setIssuer "http://elsewhere.example" testConfig))
  /\ createOidcVerifier asciiLowerCase string testNewUrl testKeySet testDiscovery
       {| issuer := "http://elsewhere.example"; audience := "a"; jwksUri := None;
          userClaim := None; allowedDomains := None; allowedEmails := None |}
     = Throws "OIDC discovery failed: HTTP 404 from http://elsewhere.example/.well-known/openid-configuration".
Proof. split; reflexivity. Qed.

End OidcFacts.

(** ** The connection authorizer *)

Module AuthFacts.

Import Oidc Auth.

(** The authorizer's test suite. *)
Example token_reasons (r : string) :
  authorize r (tokenMode (Some "secret") false) (withToken "secret") directContext
  = Accepted MethodToken None
  /\ authorize r (tokenMode (Some "secret") false) noCredentials directContext
     = Rejected "token_missing"
  /\ authorize r (tokenMode (Some "secret") false) (withToken "wrong") directContext
     = Rejected "token_mismatch"
  /\ authorize r (tokenMode None false) (withToken "anything") directContext
     = Rejected "token_missing_config".
Proof. repeat split; reflexivity. Qed.

Example password_reasons (r : string) :
  authorize r (passwordMode (Some "secret")) noCredentials directContext
  = Rejected "password_missing"
  /\ authorize r (passwordMode (Some "secret")) (withPassword "wrong") directContext
     = Rejected "password_mismatch"
  /\ authorize r (passwordMode None) (withPassword "secret") directContext
     = Rejected "password_missing_config"
  /\ authorize r (passwordMode (Some "s3cr3t")) (withPassword "s3cr3t") directContext
     = Accepted MethodPassword None.
Proof. repeat split; reflexivity. Qed.

Example tailscale_identity_satisfies_token_mode (r : string) :
  authorize r (tokenMode (Some "secret") true) noCredentials
    {| overlayProxyOrigin := true;
       identityLookup := Some {| login := "peter"; name := "Peter" |};
       oidcVerifier := None |}
  = Accepted MethodTailscale (Some "peter").
Proof. reflexivity. Qed.

Example local_serve_hostname_is_direct (r : string) :
  authorize r (tokenMode (Some "secret") true) (withToken "secret") directContext
  = Accepted MethodToken None.
Proof. reflexivity. Qed.

Example oidc_mode (r : string) :
  authorize r oidcMode
    {| presentedToken := None; presentedPassword := None; oidcToken := Some "valid-jwt" |}
    (withVerifier (createMockOidcVerifier (Some "sso-user@corp.com") None None))
  = Accepted MethodOidc (Some "sso-user@corp.com")
  /\ authorize r oidcMode
       {| presentedToken := None; presentedPassword := None;
          oidcToken := Some "expired-jwt" |}
       (withVerifier (createMockOidcVerifier None (Some false) (Some "oidc_token_expired")))
     = Rejected "oidc_token_expired"
  /\ authorize r oidcMode noCredentials
       (withVerifier (createMockOidcVerifier None None None))
     = Rejected "oidc_token_missing".
Proof. repeat split; reflexivity. Qed.

Example falls_through_to_token_auth (r : string) :
  authorize r (tokenMode (Some "secret") false)
    {| presentedToken := Some "secret"; presentedPassword := None;
       oidcToken := Some "bad-jwt" |}
    (withVerifier (createMockOidcVerifier None (Some false) (Some "oidc_token_invalid")))
  = Accepted MethodToken None.
Proof. reflexivity. Qed.

Example oidc_succeeds_in_token_mode (r : string) :
  authorize r (tokenMode (Some "secret") false)
    {| presentedToken := Some "wrong-token"; presentedPassword := None;
       oidcToken := Some "good-jwt" |}
    (withVerifier (createMockOidcVerifier (Some "oidc-user") None None))
  = Accepted MethodOidc (Some "oidc-user").
Proof. reflexivity. Qed.

(** C1, as worded, fails where the identity-proxy shortcut applies: it is
    evaluated before the OIDC check and before the token comparison, so a
    connection from the overlay with a resolved identity is accepted with
    method [tailscale], whatever the verifier and the token say. *)
Lemma identity_shortcut_precedes_oidc_and_token :
  let config := tokenMode (Some "secret") true in
  let presented :=
    {| presentedToken := Some "secret"; presentedPassword := None;
       oidcToken := Some "bad-jwt" |} in
  let verifier := createMockOidcVerifier None (Some false) (Some "oidc_token_invalid") in
  let context :=
    {| overlayProxyOrigin := true;
       identityLookup := Some {| login := "peter"; name := "Peter" |};
       oidcVerifier := Some verifier |} in
  mode config = ModeToken
  /\ token config = presentedToken presented
  /\ verifier "bad-jwt" = VerifyFail "oidc_token_invalid"
  /\ authorize "" config presented context = Accepted MethodTailscale (Some "peter")
  /\ authorize "" config presented context <> Accepted MethodToken None.
Proof. repeat split; discriminate. Qed.

(** C1, amended. In token mode, with a verifier and an assertion supplied,
    and the identity-proxy shortcut not accepting the connection: when the
    verifier rejects the assertion and the presented token equals the
    configured one, the connection is accepted with method [token]; when the
    verifier accepts the assertion, the connection is accepted with method
    [oidc] and the verified user, whatever static token is presented. *)
Theorem oidc_precedence_in_token_mode (r : string) (config : AuthConfig)
    (presented : ConnectAuth) (context : Context)
    (verifier : string -> OidcVerifyResult) (assertion : string) :
  identityShortcut config context = None ->
  mode config = ModeToken ->
  oidcVerifier context = Some verifier ->
  oidcToken presented = Some assertion ->
  (forall reason secret,
      verifier assertion = VerifyFail reason ->
      token config = Some secret ->
      presentedToken presented = Some secret ->
      authorize r config presented context = Accepted MethodToken None)
  /\ (forall user claims,
        verifier assertion = VerifyOk user claims ->
        authorize r config presented context = Accepted MethodOidc (Some user)).
Proof.
  intros Hshortcut Hmode Hverifier Hassertion.
  unfold authorize, oidcAttempt. rewrite Hshortcut, Hverifier, Hassertion. split.
  - intros reason secret Hfail Hconfigured Hpresented. rewrite Hfail.
    unfold modeCheck, secretCheck.
    rewrite Hmode, Hconfigured, Hpresented, String.eqb_refl. reflexivity.
  - intros user claims Hok. now rewrite Hok.
Qed.

Lemma oidc_precedence_in_token_mode_witness :
  authorize "" (tokenMode (Some "secret") false)
    {| presentedToken := Some "secret"; presentedPassword := None;
       oidcToken := Some "bad-jwt" |}
    (withVerifier (createMockOidcVerifier None (Some false) (Some "oidc_token_invalid")))
  = Accepted MethodToken None
  /\ authorize "" (tokenMode (Some "secret") false)
       {| presentedToken := Some "wrong-token"; presentedPassword := None;
          oidcToken := Some "good-jwt" |}
       (withVerifier (createMockOidcVerifier (Some "oidc-user") None None))
     = Accepted MethodOidc (Some "oidc-user").
Proof.
  split.
  - exact (proj1 (oidc_precedence_in_token_mode "" (tokenMode (Some "secret") false)
                    {| presentedToken := Some "secret"; presentedPassword := None;
                       oidcToken := Some "bad-jwt" |}
                    (withVerifier
                       (createMockOidcVerifier None (Some false)
                          (Some "oidc_token_invalid")))
                    _ "bad-jwt" eq_refl eq_refl eq_refl eq_refl)
             "oidc_token_invalid" "secret" eq_refl eq_refl eq_refl).
  - exact (proj2 (oidc_precedence_in_token_mode "" (tokenMode (Some "secret") false)
                    {| presentedToken := Some "wrong-token"; presentedPassword := None;
                       oidcToken := Some "good-jwt" |}
                    (withVerifier (createMockOidcVerifier (Some "oidc-user") None None))
                    _ "good-jwt" eq_refl eq_refl eq_refl eq_refl)
             "oidc-user" _ eq_refl).
Defined.

End AuthFacts.

(** ** The token broker *)

Module BrokerFacts.

Import Js JsFacts Broker.

Local Open Scope Z_scope.

Lemma getCachedToken_eta (now : Z) (cacheKey : string) (st : State) :
  getCachedToken now cacheKey st = (fst (getCachedToken now cacheKey st), st).
Proof.
  unfold getCachedToken.
  destruct (tokenCache st !! cacheKey) as [cached|]; [|reflexivity].
  destruct (expiresAt cached >? _); reflexivity.
Qed.

(** [getCachedToken] answers with a token exactly when the entry under the
    key is fresh. *)
Lemma getCachedToken_Some (now : Z) (cacheKey : string) (st : State) (tok : string) :
  fst (getCachedToken now cacheKey st) = Some tok
  <-> exists cached,
      tokenCache st !! cacheKey = Some cached /\ accessToken cached = tok /\ fresh now cached.
Proof.
  unfold getCachedToken, fresh. split.
  - destruct (tokenCache st !! cacheKey) as [cached|]; [|discriminate].
    destruct (expiresAt cached >? _) eqn:Hgt; [|discriminate].
    intros [= <-]. exists cached. repeat split. lia.
  - intros (cached & -> & <- & Hfresh).
    destruct (expiresAt cached >? _) eqn:Hgt; [reflexivity|lia].
Qed.

Lemma getCachedToken_stale (now : Z) (cacheKey : string) (st : State) (cached : CachedToken) :
  tokenCache st !! cacheKey = Some cached ->
  expiresAt cached <= now + TOKEN_EXPIRY_BUFFER_MS ->
  fst (getCachedToken now cacheKey st) = None.
Proof.
  intros Hc Hstale. unfold getCachedToken. rewrite Hc.
  destruct (expiresAt cached >? _) eqn:Hgt; [lia|reflexivity].
Qed.

Lemma getCachedToken_absent (now : Z) (cacheKey : string) (st : State) :
  tokenCache st !! cacheKey = None ->
  fst (getCachedToken now cacheKey st) = None.
Proof. intros Hc. unfold getCachedToken. now rewrite Hc. Qed.

Lemma hit_Some (cached : option string) (tok : string) :
  hit cached = Some tok <-> cached = Some tok /\ tok <> "".
Proof.
  unfold hit. destruct cached as [t|].
  - destruct (truthy t) eqn:Ht.
    + apply truthy_true in Ht. split; [intros [= <-]; auto | intros [[= <-] _]; auto].
    + apply truthy_false in Ht. subst t. split; [discriminate | intros [[= <-] H]; congruence].
  - split; [discriminate | intros [[=] _]].
Qed.

Lemma configuration_check (cfg : AzureAdConfig) :
  negb (truthy (clientId cfg)) || negb (truthy (clientSecret cfg))
  || negb (truthy (tenantId cfg))
  = negb (isAzureOBOConfigured cfg).
Proof.
  unfold isAzureOBOConfigured.
  destruct (truthy (clientId cfg)), (truthy (clientSecret cfg)), (truthy (tenantId cfg));
    reflexivity.
Qed.

Lemma unconfigured_iff (cfg : AzureAdConfig) :
  isAzureOBOConfigured cfg = false
  <-> clientId cfg = "" \/ clientSecret cfg = "" \/ tenantId cfg = "".
Proof.
  unfold isAzureOBOConfigured. rewrite !andb_false_iff, !truthy_false. tauto.
Qed.

(** A fresh, non-empty entry is returned as it is; nothing else happens. *)
Lemma run_hit (cfg : AzureAdConfig) (o : Operation) (env : Env) (credential : string) (ts : TargetScopes)
    (st : State) (tok : string) :
  hit (fst (getCachedToken (clockAtLookup env) (cacheKeyOf o ts) st)) = Some tok ->
  run cfg o env credential ts st = (TokenOk tok, st).
Proof.
  intros Hhit.
  destruct o; unfold run, acquireTokenSilent, exchangeTokenOBO, bind, cacheKeyOf in *;
    rewrite getCachedToken_eta; rewrite Hhit; reflexivity.
Qed.

(** Without a usable entry and without configuration: the error, at once. *)
Lemma run_unconfigured (cfg : AzureAdConfig) (o : Operation) (env : Env) (credential : string)
    (ts : TargetScopes) (st : State) :
  hit (fst (getCachedToken (clockAtLookup env) (cacheKeyOf o ts) st)) = None ->
  isAzureOBOConfigured cfg = false ->
  run cfg o env credential ts st = (TokenErr NOT_CONFIGURED, st).
Proof.
  intros Hmiss Hcfg.
  destruct o; unfold run, acquireTokenSilent, exchangeTokenOBO, bind, cacheKeyOf in *;
    rewrite getCachedToken_eta; rewrite Hmiss, configuration_check, Hcfg; reflexivity.
Qed.

(** Without a usable entry, with configuration: one request, and the entry
    is written when the endpoint answers with a token. *)
Lemma run_fetch (cfg : AzureAdConfig) (o : Operation) (env : Env) (credential : string) (ts : TargetScopes)
    (st : State) :
  hit (fst (getCachedToken (clockAtLookup env) (cacheKeyOf o ts) st)) = None ->
  isAzureOBOConfigured cfg = true ->
  let req := requestOf cfg o credential ts in
  let asked := {| tokenCache := tokenCache st; sent := sent st ++ [req] |} in
  match respond env req with
  | HttpJson access_token expires_in =>
      match hit access_token with
      | Some tok =>
          run cfg o env credential ts st
          = (TokenOk tok,
             {| tokenCache :=
                  <[cacheKeyOf o ts :=
                      {| accessToken := tok;
                         expiresAt := clockAtStore env + nullish expires_in 3600 * 1000 |}]>
                    (tokenCache st);
                sent := sent st ++ [req] |})
      | None => exists msg, run cfg o env credential ts st = (TokenErr msg, asked)
      end
  | _ => exists msg, run cfg o env credential ts st = (TokenErr msg, asked)
  end.
Proof.
  intros Hmiss Hcfg.
  destruct o; unfold run, acquireTokenSilent, exchangeTokenOBO, bind, cacheKeyOf, requestOf,
    fetch, setCachedToken, ret in *;
    rewrite getCachedToken_eta; rewrite Hmiss, configuration_check, Hcfg; cbn [negb];
    cbv zeta;
    (match goal with |- context [respond env ?r] => destruct (respond env r) as [m|s d t|a e] end);
    try (eexists; reflexivity);
    (destruct (hit a); [reflexivity | eexists; reflexivity]).
Qed.

(** Two states without a usable entry under the key get the same answer. *)
Lemma run_miss_answer (cfg : AzureAdConfig) (o : Operation) (env : Env) (credential : string)
    (ts : TargetScopes) (st st2 : State) :
  hit (fst (getCachedToken (clockAtLookup env) (cacheKeyOf o ts) st)) = None ->
  hit (fst (getCachedToken (clockAtLookup env) (cacheKeyOf o ts) st2)) = None ->
  fst (run cfg o env credential ts st) = fst (run cfg o env credential ts st2).
Proof.
  intros Hmiss Hmiss2.
  destruct o; unfold run, acquireTokenSilent, exchangeTokenOBO, bind, cacheKeyOf,
    fetch, setCachedToken, ret in *;
    rewrite (getCachedToken_eta _ _ st), (getCachedToken_eta _ _ st2);
    rewrite Hmiss, Hmiss2;
    (destruct (_ || _); [reflexivity|]); cbv zeta;
    (match goal with |- context [respond env ?r] => destruct (respond env r) as [m|s d t|a e] end);
    try reflexivity;
    destruct (hit a); reflexivity.
Qed.

(** An operation sends nothing, or exactly its one request. *)
Lemma run_sent (cfg : AzureAdConfig) (o : Operation) (env : Env) (credential : string) (ts : TargetScopes)
    (st : State) :
  sent (snd (run cfg o env credential ts st)) = sent st
  \/ sent (snd (run cfg o env credential ts st)) = sent st ++ [requestOf cfg o credential ts].
Proof.
  destruct (hit (fst (getCachedToken (clockAtLookup env) (cacheKeyOf o ts) st)))
    as [tok|] eqn:Hhit.
  - left. now rewrite (run_hit _ _ _ _ _ _ _ Hhit).
  - destruct (isAzureOBOConfigured cfg) eqn:Hcfg.
    + right. pose proof (run_fetch cfg o env credential ts st Hhit Hcfg) as Hfetch.
      cbv zeta in Hfetch.
      destruct (respond env _) as [m|s d t|a e].
      * destruct Hfetch as [msg ->]. reflexivity.
      * destruct Hfetch as [msg ->]. reflexivity.
      * destruct (hit a); [now rewrite Hfetch | destruct Hfetch as [msg ->]; reflexivity].
    + left. now rewrite (run_unconfigured _ _ _ _ _ _ Hhit Hcfg).
Qed.

(** A token delivered without a request comes from the cache. *)
Lemma run_silent_is_hit (cfg : AzureAdConfig) (o : Operation) (env : Env) (credential : string)
    (ts : TargetScopes) (st st' : State) (tok : string) :
  run cfg o env credential ts st = (TokenOk tok, st') ->
  sent st' = sent st ->
  hit (fst (getCachedToken (clockAtLookup env) (cacheKeyOf o ts) st)) = Some tok.
Proof.
  intros Hrun Hsent.
  destruct (hit (fst (getCachedToken (clockAtLookup env) (cacheKeyOf o ts) st)))
    as [tok'|] eqn:Hhit.
  - rewrite (run_hit _ _ _ _ _ _ _ Hhit) in Hrun. congruence.
  - exfalso. destruct (isAzureOBOConfigured cfg) eqn:Hcfg.
    + pose proof (run_fetch cfg o env credential ts st Hhit Hcfg) as Hfetch.
      cbv zeta in Hfetch.
      assert (Hgrow : sent st' = sent st ++ [requestOf cfg o credential ts]).
      { destruct (respond env _) as [m|s d t|a e].
        - destruct Hfetch as [msg Hf]. congruence.
        - destruct Hfetch as [msg Hf]. congruence.
        - destruct (hit a); [|destruct Hfetch as [msg Hf]; congruence].
          rewrite Hfetch in Hrun. injection Hrun as _ <-. reflexivity. }
      rewrite Hsent in Hgrow. apply (f_equal (@List.length _)) in Hgrow.
      rewrite List.length_app in Hgrow. simpl in Hgrow. lia.
    + rewrite (run_unconfigured _ _ _ _ _ _ Hhit Hcfg) in Hrun. discriminate.
Qed.

(** After a success, the token sits in the cache under the operation's
    key. *)
Lemma run_ok_entry (cfg : AzureAdConfig) (o : Operation) (env : Env) (credential : string) (ts : TargetScopes)
    (st st' : State) (tok : string) :
  run cfg o env credential ts st = (TokenOk tok, st') ->
  tok <> ""
  /\ exists entry, tokenCache st' !! cacheKeyOf o ts = Some entry /\ accessToken entry = tok.
Proof.
  intros Hrun.
  destruct (hit (fst (getCachedToken (clockAtLookup env) (cacheKeyOf o ts) st)))
    as [tok'|] eqn:Hhit.
  - rewrite (run_hit _ _ _ _ _ _ _ Hhit) in Hrun. injection Hrun as <- <-.
    apply hit_Some in Hhit as [Hget Hne]. split; [exact Hne|].
    apply getCachedToken_Some in Hget as (entry & Hentry & Htok & _). eauto.
  - destruct (isAzureOBOConfigured cfg) eqn:Hcfg.
    + pose proof (run_fetch cfg o env credential ts st Hhit Hcfg) as Hfetch.
      cbv zeta in Hfetch.
      destruct (respond env _) as [m|s d t|a e].
      * destruct Hfetch as [msg Hf]. congruence.
      * destruct Hfetch as [msg Hf]. congruence.
      * destruct (hit a) as [tok'|] eqn:Ha; [|destruct Hfetch as [msg Hf]; congruence].
        rewrite Hfetch in Hrun. injection Hrun as <- <-.
        apply hit_Some in Ha as [_ Hne]. split; [exact Hne|].
        eexists. split; [apply lookup_insert_eq | reflexivity].
    + rewrite (run_unconfigured _ _ _ _ _ _ Hhit Hcfg) in Hrun. discriminate.
Qed.

Lemma run_wellStored (cfg : AzureAdConfig) (o : Operation) (env : Env) (credential : string) (ts : TargetScopes)
    (st : State) :
  wellStored cfg st -> wellStored cfg (snd (run cfg o env credential ts st)).
Proof.
  intros Hst.
  destruct (hit (fst (getCachedToken (clockAtLookup env) (cacheKeyOf o ts) st)))
    as [tok|] eqn:Hhit.
  - now rewrite (run_hit _ _ _ _ _ _ _ Hhit).
  - destruct (isAzureOBOConfigured cfg) eqn:Hcfg.
    + pose proof (run_fetch cfg o env credential ts st Hhit Hcfg) as Hfetch.
      cbv zeta in Hfetch.
      destruct (respond env _) as [m|s d t|a e].
      * destruct Hfetch as [msg ->]. exact Hst.
      * destruct Hfetch as [msg ->]. exact Hst.
      * destruct (hit a) as [tok|] eqn:Ha; [|destruct Hfetch as [msg ->]; exact Hst].
        rewrite Hfetch. intros k c. simpl. rewrite lookup_insert.
        destruct (decide (cacheKeyOf o ts = k)) as [_|_].
        -- intros [= <-]. simpl. apply hit_Some in Ha as [_ Hne]. split; assumption.
        -- intros Hk. exact (Hst k c Hk).
    + now rewrite (run_unconfigured _ _ _ _ _ _ Hhit Hcfg).
Qed.

Lemma perform_wellStored (cfg : AzureAdConfig) (c : Call) (st : State) :
  wellStored cfg st -> wellStored cfg (snd (perform cfg c st)).
Proof.
  intros Hst. destruct c as [env rt ts|env ut ts|env1 env2 rt ts]; simpl.
  - exact (run_wellStored cfg Silent env rt ts st Hst).
  - exact (run_wellStored cfg OnBehalfOf env ut ts st Hst).
  - unfold acquireDownstreamToken, bind.
    pose proof (run_wellStored cfg Silent env1 rt (ScopeString (OUR_APP_SCOPE cfg)) st Hst) as H1.
    simpl in H1.
    destruct (acquireTokenSilent cfg env1 rt (ScopeString (OUR_APP_SCOPE cfg)) st)
      as [[tok|e] st1]; simpl in *.
    + exact (run_wellStored cfg OnBehalfOf env2 tok ts st1 H1).
    + exact H1.
Qed.

(** Every entry of a reachable cache was stored under a complete
    configuration and holds a non-empty token. *)
Lemma reachable_wellStored (cfg : AzureAdConfig) (st : State) : reachable cfg st -> wellStored cfg st.
Proof.
  induction 1 as [|st c _ IH].
  - intros k c. simpl. rewrite lookup_empty. discriminate.
  - now apply perform_wellStored.
Qed.

(** With an incomplete configuration no operation contacts the endpoint,
    whatever the cache holds. *)
Lemma unconfigured_sends_nothing (cfg : AzureAdConfig) (o : Operation) (env : Env) (credential : string)
    (ts : TargetScopes) (st : State) :
  isAzureOBOConfigured cfg = false ->
  snd (run cfg o env credential ts st) = st.
Proof.
  intros Hcfg.
  destruct (hit (fst (getCachedToken (clockAtLookup env) (cacheKeyOf o ts) st)))
    as [tok|] eqn:Hhit.
  - now rewrite (run_hit _ _ _ _ _ _ _ Hhit).
  - now rewrite (run_unconfigured _ _ _ _ _ _ Hhit Hcfg).
Qed.

(** C2. The on-behalf-of cache is keyed by the scope string alone.  Once a
    call of [exchangeTokenOBO] has succeeded, its token sits under
    ["obo:" + scopes]; as long as that entry is there and fresh, every later
    call for the same scope string gets that very token and leaves the
    state as it is (no request is sent), whatever assertion it passes. *)
Theorem obo_cache_ignores_assertion (cfg : AzureAdConfig) (env1 : Env)
    (assertion1 : string) (ts : TargetScopes) (st st1 : State) (tok : string) :
  exchangeTokenOBO cfg env1 assertion1 ts st = (TokenOk tok, st1) ->
  exists entry,
    tokenCache st1 !! ("obo:" +:+ scopesOf ts) = Some entry
    /\ accessToken entry = tok
    /\ forall (env2 : Env) (assertion2 : string) (ts2 : TargetScopes) (st2 : State),
        scopesOf ts2 = scopesOf ts ->
        tokenCache st2 !! ("obo:" +:+ scopesOf ts) = Some entry ->
        fresh (clockAtLookup env2) entry ->
        exchangeTokenOBO cfg env2 assertion2 ts2 st2 = (TokenOk tok, st2).
Proof.
  intros Hrun.
  destruct (run_ok_entry cfg OnBehalfOf env1 assertion1 ts st st1 tok Hrun)
    as [Hne (entry & Hentry & Htok)].
  exists entry. split; [exact Hentry | split; [exact Htok|]].
  intros env2 assertion2 ts2 st2 Hscopes Hentry2 Hfresh.
  apply (run_hit cfg OnBehalfOf). apply hit_Some. split; [|exact Hne].
  apply getCachedToken_Some. exists entry.
  unfold cacheKeyOf. rewrite Hscopes. auto.
Qed.

Lemma obo_cache_ignores_assertion_witness :
  let st1 :=
    snd (exchangeTokenOBO configured (issuing "token-of-alice" (Some 3600) 0)
           "assertion-of-alice" graphScopes initial) in
  exchangeTokenOBO configured (failing 1000) "assertion-of-bob" graphScopes st1
  = (TokenOk "token-of-alice", st1).
Proof.
  intros st1.
  destruct (obo_cache_ignores_assertion configured (issuing "token-of-alice" (Some 3600) 0)
              "assertion-of-alice" graphScopes initial st1 "token-of-alice" eq_refl)
    as (entry & Hentry & _ & Hlater).
  apply (Hlater (failing 1000) "assertion-of-bob" graphScopes st1 eq_refl Hentry).
  vm_compute in Hentry. injection Hentry as <-. reflexivity.
Defined.

(** C3. The expiry buffer.  For either operation, on a reachable state: a
    token that is delivered without a request to the endpoint is the token
    of the entry under the operation's key, and that entry expires more
    than five minutes after the current time.  An entry that expires within
    five minutes (or has expired) counts as absent: the answer is the one
    the operation gives with the entry removed, exactly one request is
    sent, and when the endpoint answers with a token the entry is replaced
    by the new token with its new expiry. *)
Theorem expiry_buffer (cfg : AzureAdConfig) (o : Operation) (env : Env)
    (credential : string) (ts : TargetScopes) (st : State) :
  reachable cfg st ->
  (forall tok st',
      run cfg o env credential ts st = (TokenOk tok, st') ->
      sent st' = sent st ->
      exists cached,
        tokenCache st !! cacheKeyOf o ts = Some cached
        /\ accessToken cached = tok
        /\ expiresAt cached > clockAtLookup env + 5 * 60 * 1000)
  /\ (forall cached,
        tokenCache st !! cacheKeyOf o ts = Some cached ->
        expiresAt cached <= clockAtLookup env + 5 * 60 * 1000 ->
        let req := requestOf cfg o credential ts in
        fst (run cfg o env credential ts st)
        = fst (run cfg o env credential ts
                 {| tokenCache := delete (cacheKeyOf o ts) (tokenCache st);
                    sent := sent st |})
        /\ sent (snd (run cfg o env credential ts st)) = sent st ++ [req]
        /\ forall tok expires_in,
            respond env req = HttpJson (Some tok) expires_in ->
            tok <> "" ->
            run cfg o env credential ts st
            = (TokenOk tok,
               {| tokenCache :=
                    <[cacheKeyOf o ts :=
                        {| accessToken := tok;
                           expiresAt :=
                             clockAtStore env + nullish expires_in 3600 * 1000 |}]>
                      (tokenCache st);
                  sent := sent st ++ [req] |})).
Proof.
  intros Hreach. split.
  - intros tok st' Hrun Hsent.
    pose proof (run_silent_is_hit cfg o env credential ts st st' tok Hrun Hsent) as Hhit.
    apply hit_Some in Hhit as [Hget _].
    apply getCachedToken_Some in Hget. exact Hget.
  - intros cached Hcached Hstale req.
    assert (Hmiss : hit (fst (getCachedToken (clockAtLookup env) (cacheKeyOf o ts) st)) = None).
    { now rewrite (getCachedToken_stale _ _ _ _ Hcached Hstale). }
    destruct (reachable_wellStored cfg st Hreach _ _ Hcached) as [Hcfg _].
    pose proof (run_fetch cfg o env credential ts st Hmiss Hcfg) as Hfetch.
    cbv zeta in Hfetch. fold req in Hfetch.
    split; [|split].
    + apply run_miss_answer; [exact Hmiss|].
      rewrite getCachedToken_absent; [reflexivity|]. simpl. apply lookup_delete_eq.
    + destruct (respond env req) as [m|s d t|a e].
      * destruct Hfetch as [msg ->]. reflexivity.
      * destruct Hfetch as [msg ->]. reflexivity.
      * destruct (hit a); [now rewrite Hfetch | destruct Hfetch as [msg ->]; reflexivity].
    + intros tok expires_in Hanswer Hne. rewrite Hanswer in Hfetch.
      assert (Hhit : hit (Some tok) = Some tok) by (apply hit_Some; auto).
      rewrite Hhit in Hfetch. exact Hfetch.
Qed.

Lemma expiry_buffer_witness :
  let st1 :=
    snd (perform configured
           (CallOBO (issuing "first" (Some 3600) 0) "assertion" graphScopes) initial) in
  tokenCache st1 !! cacheKeyOf OnBehalfOf graphScopes
  = Some {| accessToken := "first"; expiresAt := 3600040 |}
  /\ fst (run configured OnBehalfOf (issuing "second" None 3300040) "assertion"
            graphScopes st1)
     = TokenOk "second"
  /\ tokenCache
       (snd (run configured OnBehalfOf (issuing "second" None 3300040) "assertion"
               graphScopes st1))
     !! cacheKeyOf OnBehalfOf graphScopes
     = Some {| accessToken := "second"; expiresAt := 6900080 |}.
Proof.
  intros st1.
  assert (Hentry : tokenCache st1 !! cacheKeyOf OnBehalfOf graphScopes
                   = Some {| accessToken := "first"; expiresAt := 3600040 |})
    by (vm_compute; reflexivity).
  split; [exact Hentry|].
  destruct (expiry_buffer configured OnBehalfOf (issuing "second" None 3300040) "assertion"
              graphScopes st1
              (reachable_step configured initial _ (reachable_initial configured)))
    as [_ Hstale].
  destruct (Hstale _ Hentry) as (_ & _ & Hstore).
  - simpl. lia.
  - rewrite (Hstore "second" None eq_refl); [|discriminate].
    split; [reflexivity|]. simpl. rewrite lookup_insert_eq. reflexivity.
Defined.

(** C4. [acquireDownstreamToken] is the composition of the two steps.  It
    runs [acquireTokenSilent] on the scope of the broker's own application.
    When that step fails, its error is the result, unchanged, and the
    state is the one the silent step left: nothing was sent beyond the
    silent step's own request, so no exchange was attempted.  When it
    succeeds, the result and the state are those of [exchangeTokenOBO]
    applied to the silent step's token and the requested scopes. *)
Theorem downstream_is_composition (cfg : AzureAdConfig) (env1 env2 : Env)
    (refreshToken : string) (ts : TargetScopes) (st : State) :
  OUR_APP_SCOPE cfg = "api://" +:+ clientId cfg +:+ "/User.Access"
  /\ match acquireTokenSilent cfg env1 refreshToken (ScopeString (OUR_APP_SCOPE cfg)) st with
     | (TokenErr e, st1) =>
         acquireDownstreamToken cfg env1 env2 refreshToken ts st = (TokenErr e, st1)
         /\ (sent st1 = sent st
             \/ sent st1
                = sent st
                  ++ [requestOf cfg Silent refreshToken (ScopeString (OUR_APP_SCOPE cfg))])
     | (TokenOk silentToken, st1) =>
         acquireDownstreamToken cfg env1 env2 refreshToken ts st
         = exchangeTokenOBO cfg env2 silentToken ts st1
     end.
Proof.
  split; [reflexivity|].
  pose proof (run_sent cfg Silent env1 refreshToken (ScopeString (OUR_APP_SCOPE cfg)) st)
    as Hsent.
  unfold acquireDownstreamToken, bind. simpl in Hsent.
  destruct (acquireTokenSilent cfg env1 refreshToken (ScopeString (OUR_APP_SCOPE cfg)) st)
    as [[silentToken|e] st1]; simpl in *.
  - reflexivity.
  - split; [reflexivity | exact Hsent].
Qed.

(** The two outcomes of the composition, on the fixtures. *)
Example downstream_propagates_silent_error :
  acquireDownstreamToken configured (failing 0) (issuing "never" None 50) "refresh"
    graphScopes initial
  = (TokenErr "Silent token acquisition error (503): Service Unavailable",
     {| tokenCache := ∅;
        sent := [requestOf configured Silent "refresh"
                   (ScopeString "api://6afc7495/User.Access")] |}).
Proof. reflexivity. Qed.

Example downstream_exchanges_silent_token :
  fst (acquireDownstreamToken configured (issuing "own-app" None 0)
         (issuing "graph" None 50) "refresh" graphScopes initial)
  = TokenOk "graph"
  /\ sent (snd (acquireDownstreamToken configured (issuing "own-app" None 0)
                  (issuing "graph" None 50) "refresh" graphScopes initial))
     = [requestOf configured Silent "refresh" (ScopeString "api://6afc7495/User.Access");
        requestOf configured OnBehalfOf "own-app" graphScopes].
Proof. split; reflexivity. Qed.

(** C5. When the client id, the client secret or the tenant id is empty,
    [acquireTokenSilent] and [exchangeTokenOBO] return the not-configured
    error and leave the state as it is: in particular nothing is sent to
    the token endpoint.  (The cache is consulted first, but under such a
    configuration nothing is ever stored in it.) *)
Theorem unconfigured_fails_at_once (cfg : AzureAdConfig) (st : State) (env : Env)
    (credential : string) (ts : TargetScopes) :
  reachable cfg st ->
  clientId cfg = "" \/ clientSecret cfg = "" \/ tenantId cfg = "" ->
  acquireTokenSilent cfg env credential ts st = (TokenErr NOT_CONFIGURED, st)
  /\ exchangeTokenOBO cfg env credential ts st = (TokenErr NOT_CONFIGURED, st).
Proof.
  intros Hreach Hempty. apply unconfigured_iff in Hempty.
  assert (Hmiss : forall o,
             hit (fst (getCachedToken (clockAtLookup env) (cacheKeyOf o ts) st)) = None).
  { intros o. rewrite getCachedToken_absent; [reflexivity|].
    destruct (tokenCache st !! cacheKeyOf o ts) as [cached|] eqn:Hc; [|reflexivity].
    destruct (reachable_wellStored cfg st Hreach _ _ Hc) as [Hcfg _]. congruence. }
  split.
  - exact (run_unconfigured cfg Silent env credential ts st (Hmiss Silent) Hempty).
  - exact (run_unconfigured cfg OnBehalfOf env credential ts st (Hmiss OnBehalfOf) Hempty).
Qed.

Lemma unconfigured_fails_at_once_witness :
  let st :=
    snd (perform unconfigured
           (CallDownstream (issuing "own-app" None 0) (issuing "graph" None 50)
              "refresh" graphScopes) initial) in
  acquireTokenSilent unconfigured (issuing "own-app" None 100) "refresh" graphScopes st
  = (TokenErr NOT_CONFIGURED, st)
  /\ exchangeTokenOBO unconfigured (issuing "own-app" None 100) "refresh" graphScopes st
     = (TokenErr NOT_CONFIGURED, st).
Proof.
  intros st.
  apply (unconfigured_fails_at_once unconfigured st).
  - exact (reachable_step unconfigured initial _ (reachable_initial unconfigured)).
  - right. left. reflexivity.
Defined.

(** *** Further properties of the broker *)

Lemma downstream_unfold (cfg : AzureAdConfig) (env1 env2 : Env) (refreshToken : string)
    (ts : TargetScopes) (st : State) :
  acquireDownstreamToken cfg env1 env2 refreshToken ts st
  = match run cfg Silent env1 refreshToken (ScopeString (OUR_APP_SCOPE cfg)) st with
    | (TokenOk silentToken, st1) => run cfg OnBehalfOf env2 silentToken ts st1
    | (TokenErr e, st1) => (TokenErr e, st1)
    end.
Proof.
  unfold acquireDownstreamToken, bind. simpl.
  destruct (acquireTokenSilent cfg env1 refreshToken _ st) as [[tok|e] st1]; reflexivity.
Qed.

Lemma perform_unconfigured (cfg : AzureAdConfig) (c : Call) (st : State) :
  isAzureOBOConfigured cfg = false -> snd (perform cfg c st) = st.
Proof.
  intros Hcfg. destruct c as [env rt ts|env ut ts|env1 env2 rt ts]; simpl.
  - exact (unconfigured_sends_nothing cfg Silent env rt ts st Hcfg).
  - exact (unconfigured_sends_nothing cfg OnBehalfOf env ut ts st Hcfg).
  - rewrite downstream_unfold.
    pose proof (unconfigured_sends_nothing cfg Silent env1 rt
                  (ScopeString (OUR_APP_SCOPE cfg)) st Hcfg) as H1.
    destruct (run cfg Silent env1 rt _ st) as [[tok|e] st1]; simpl in H1; subst st1.
    + exact (unconfigured_sends_nothing cfg OnBehalfOf env2 tok ts st Hcfg).
    + reflexivity.
Qed.

(** Under an incomplete configuration the broker never leaves its initial
    state: the cache stays empty and no request is ever sent, whatever is
    called and whatever the endpoint would answer. *)
Theorem unconfigured_stays_initial (cfg : AzureAdConfig) (st : State) :
  reachable cfg st ->
  isAzureOBOConfigured cfg = false ->
  st = initial.
Proof.
  intros Hreach Hcfg. induction Hreach as [|st c _ IH]; [reflexivity|].
  now rewrite (perform_unconfigured cfg c st Hcfg).
Qed.

Lemma unconfigured_stays_initial_witness :
  snd (perform unconfigured
         (CallOBO (issuing "graph" None 50) "assertion" graphScopes)
         (snd (perform unconfigured
                 (CallDownstream (issuing "own-app" None 0) (issuing "graph" None 50)
                    "refresh" graphScopes) initial)))
  = initial.
Proof.
  apply (unconfigured_stays_initial unconfigured); [|reflexivity].
  apply reachable_step, reachable_step, reachable_initial.
Defined.

Lemma cacheKeyOf_prefix (o1 o2 : Operation) (ts1 ts2 : TargetScopes) :
  cacheKeyOf o1 ts1 = cacheKeyOf o2 ts2 -> o1 = o2 /\ scopesOf ts1 = scopesOf ts2.
Proof.
  destruct o1, o2; unfold cacheKeyOf; intros H;
    try (split; [reflexivity|]; now apply String.app_inj in H);
    vm_compute in H; discriminate.
Qed.

(** The state after an operation, entry by entry. *)
Lemma run_lookup (cfg : AzureAdConfig) (o : Operation) (env : Env) (credential : string)
    (ts : TargetScopes) (st : State) (key : string) :
  key <> cacheKeyOf o ts ->
  tokenCache (snd (run cfg o env credential ts st)) !! key = tokenCache st !! key.
Proof.
  intros Hkey.
  destruct (hit (fst (getCachedToken (clockAtLookup env) (cacheKeyOf o ts) st)))
    as [tok|] eqn:Hhit.
  - now rewrite (run_hit _ _ _ _ _ _ _ Hhit).
  - destruct (isAzureOBOConfigured cfg) eqn:Hcfg.
    + pose proof (run_fetch cfg o env credential ts st Hhit Hcfg) as Hfetch.
      cbv zeta in Hfetch.
      destruct (respond env _) as [m|s d t|a e].
      * destruct Hfetch as [msg ->]. reflexivity.
      * destruct Hfetch as [msg ->]. reflexivity.
      * destruct (hit a); [|destruct Hfetch as [msg ->]; reflexivity].
        rewrite Hfetch. simpl. now rewrite lookup_insert_ne.
    + now rewrite (run_unconfigured _ _ _ _ _ _ Hhit Hcfg).
Qed.

(** An operation changes the cache under its own key at most: every other
    key, and in particular every key of the other operation and every key
    of the same operation for another scope string, keeps its entry. *)
Theorem operations_touch_own_key (cfg : AzureAdConfig) (o : Operation) (env : Env)
    (credential : string) (ts : TargetScopes) (st : State) :
  (forall key,
      key <> cacheKeyOf o ts ->
      tokenCache (snd (run cfg o env credential ts st)) !! key = tokenCache st !! key)
  /\ (forall o' ts',
        o' <> o ->
        tokenCache (snd (run cfg o env credential ts st)) !! cacheKeyOf o' ts'
        = tokenCache st !! cacheKeyOf o' ts')
  /\ (forall ts',
        scopesOf ts' <> scopesOf ts ->
        tokenCache (snd (run cfg o env credential ts st)) !! cacheKeyOf o ts'
        = tokenCache st !! cacheKeyOf o ts').
Proof.
  split; [|split].
  - intros key. apply run_lookup.
  - intros o' ts' Hne. apply run_lookup.
    intros H. apply cacheKeyOf_prefix in H as [Ho _]. contradiction.
  - intros ts' Hne. apply run_lookup.
    intros H. apply cacheKeyOf_prefix in H as [_ Hs]. contradiction.
Qed.

Lemma operations_touch_own_key_witness :
  let st1 := snd (run configured Silent (issuing "own-app" None 0) "refresh"
                    (ScopeString "api://6afc7495/User.Access") initial) in
  tokenCache (snd (run configured OnBehalfOf (issuing "graph" None 50) "own-app"
                     graphScopes st1))
  !! cacheKeyOf Silent (ScopeString "api://6afc7495/User.Access")
  = tokenCache st1 !! cacheKeyOf Silent (ScopeString "api://6afc7495/User.Access").
Proof.
  intros st1.
  apply (proj1 (proj2 (operations_touch_own_key configured OnBehalfOf
                         (issuing "graph" None 50) "own-app" graphScopes st1))).
  discriminate.
Defined.

(** A failed operation leaves the cache exactly as it was. *)
Theorem failure_keeps_cache (cfg : AzureAdConfig) (o : Operation) (env : Env)
    (credential : string) (ts : TargetScopes) (st st' : State) (e : string) :
  run cfg o env credential ts st = (TokenErr e, st') ->
  tokenCache st' = tokenCache st.
Proof.
  intros Hrun.
  destruct (hit (fst (getCachedToken (clockAtLookup env) (cacheKeyOf o ts) st)))
    as [tok|] eqn:Hhit.
  - rewrite (run_hit _ _ _ _ _ _ _ Hhit) in Hrun. discriminate.
  - destruct (isAzureOBOConfigured cfg) eqn:Hcfg.
    + pose proof (run_fetch cfg o env credential ts st Hhit Hcfg) as Hfetch.
      cbv zeta in Hfetch.
      destruct (respond env _) as [m|s d t|a ex].
      * destruct Hfetch as [msg Hf]. rewrite Hf in Hrun. now injection Hrun as _ <-.
      * destruct Hfetch as [msg Hf]. rewrite Hf in Hrun. now injection Hrun as _ <-.
      * destruct (hit a).
        -- rewrite Hfetch in Hrun. discriminate.
        -- destruct Hfetch as [msg Hf]. rewrite Hf in Hrun. now injection Hrun as _ <-.
    + rewrite (run_unconfigured _ _ _ _ _ _ Hhit Hcfg) in Hrun. now injection Hrun as _ <-.
Qed.

Lemma failure_keeps_cache_witness :
  let st1 := snd (run configured OnBehalfOf (issuing "graph" (Some 100) 0) "own-app"
                    graphScopes initial) in
  tokenCache (snd (run configured OnBehalfOf (failing 50) "own-app" graphScopes st1))
  = tokenCache st1.
Proof.
  intros st1.
  exact (failure_keeps_cache configured OnBehalfOf (failing 50) "own-app" graphScopes st1
           _ _ eq_refl).
Defined.

(** The cache after an operation: as before, or with the operation's own
    key overwritten. *)
Lemma run_cache_cases (cfg : AzureAdConfig) (o : Operation) (env : Env)
    (credential : string) (ts : TargetScopes) (st : State) :
  tokenCache (snd (run cfg o env credential ts st)) = tokenCache st
  \/ exists entry,
      tokenCache (snd (run cfg o env credential ts st))
      = <[cacheKeyOf o ts := entry]> (tokenCache st).
Proof.
  destruct (run cfg o env credential ts st) as [[tok|e] st'] eqn:Hrun.
  - destruct (hit (fst (getCachedToken (clockAtLookup env) (cacheKeyOf o ts) st)))
      as [tok'|] eqn:Hhit.
    + rewrite (run_hit _ _ _ _ _ _ _ Hhit) in Hrun. injection Hrun as _ <-. now left.
    + destruct (isAzureOBOConfigured cfg) eqn:Hcfg.
      * pose proof (run_fetch cfg o env credential ts st Hhit Hcfg) as Hfetch.
        cbv zeta in Hfetch.
        destruct (respond env _) as [m|s d t|a ex].
        -- destruct Hfetch as [msg Hf]. congruence.
        -- destruct Hfetch as [msg Hf]. congruence.
        -- destruct (hit a); [|destruct Hfetch as [msg Hf]; congruence].
           rewrite Hfetch in Hrun. injection Hrun as _ <-. right. eexists. reflexivity.
      * rewrite (run_unconfigured _ _ _ _ _ _ Hhit Hcfg) in Hrun. discriminate.
  - left.
    destruct (hit (fst (getCachedToken (clockAtLookup env) (cacheKeyOf o ts) st)))
      as [tok'|] eqn:Hhit.
    + rewrite (run_hit _ _ _ _ _ _ _ Hhit) in Hrun. discriminate.
    + destruct (isAzureOBOConfigured cfg) eqn:Hcfg.
      * pose proof (run_fetch cfg o env credential ts st Hhit Hcfg) as Hfetch.
        cbv zeta in Hfetch.
        destruct (respond env _) as [m|s d t|a ex].
        -- destruct Hfetch as [msg Hf]. rewrite Hf in Hrun. now injection Hrun as _ <-.
        -- destruct Hfetch as [msg Hf]. rewrite Hf in Hrun. now injection Hrun as _ <-.
        -- destruct (hit a).
           ++ rewrite Hfetch in Hrun. discriminate.
           ++ destruct Hfetch as [msg Hf]. rewrite Hf in Hrun. now injection Hrun as _ <-.
      * rewrite (run_unconfigured _ _ _ _ _ _ Hhit Hcfg) in Hrun. now injection Hrun as _ <-.
Qed.

Lemma run_keeps_entries (cfg : AzureAdConfig) (o : Operation) (env : Env)
    (credential : string) (ts : TargetScopes) (st : State) (key : string) :
  is_Some (tokenCache st !! key) ->
  is_Some (tokenCache (snd (run cfg o env credential ts st)) !! key).
Proof.
  intros Hkey.
  destruct (run_cache_cases cfg o env credential ts st) as [-> | [entry ->]];
    [exact Hkey|].
  rewrite lookup_insert. destruct (decide (cacheKeyOf o ts = key)); [eauto | exact Hkey].
Qed.

(** Nothing is ever evicted: a key that has an entry keeps having one
    through every call of the broker. *)
Theorem cache_never_evicts (cfg : AzureAdConfig) (c : Call) (st : State) (key : string) :
  is_Some (tokenCache st !! key) ->
  is_Some (tokenCache (snd (perform cfg c st)) !! key).
Proof.
  intros Hkey. destruct c as [env rt ts|env ut ts|env1 env2 rt ts]; simpl.
  - exact (run_keeps_entries cfg Silent env rt ts st key Hkey).
  - exact (run_keeps_entries cfg OnBehalfOf env ut ts st key Hkey).
  - rewrite downstream_unfold.
    pose proof (run_keeps_entries cfg Silent env1 rt (ScopeString (OUR_APP_SCOPE cfg))
                  st key Hkey) as H1.
    destruct (run cfg Silent env1 rt _ st) as [[tok|e] st1]; simpl in H1.
    + exact (run_keeps_entries cfg OnBehalfOf env2 tok ts st1 key H1).
    + exact H1.
Qed.

Lemma cache_never_evicts_witness :
  let st1 := snd (run configured OnBehalfOf (issuing "graph" (Some 100) 0) "own-app"
                    graphScopes initial) in
  is_Some (tokenCache
             (snd (perform configured
                     (CallDownstream (failing 5000000) (failing 5000000) "refresh"
                        (ScopeString "other")) st1))
           !! cacheKeyOf OnBehalfOf graphScopes).
Proof.
  intros st1. apply (cache_never_evicts configured). vm_compute. eauto.
Defined.

Lemma run_requests (cfg : AzureAdConfig) (o : Operation) (env : Env) (credential : string)
    (ts : TargetScopes) (st : State) :
  sent (snd (run cfg o env credential ts st)) = sent st
  \/ (isAzureOBOConfigured cfg = true
      /\ sent (snd (run cfg o env credential ts st))
         = sent st ++ [requestOf cfg o credential ts]).
Proof.
  destruct (isAzureOBOConfigured cfg) eqn:Hcfg.
  - destruct (run_sent cfg o env credential ts st) as [H|H]; auto.
  - left. now rewrite (unconfigured_sends_nothing cfg o env credential ts st Hcfg).
Qed.

(** The broker talks to one place only: every request it has ever sent is
    the form of one of its two grants, posted to the token endpoint of the
    configured tenant, and none is sent under an incomplete
    configuration. *)
Theorem requests_go_to_the_tenant_endpoint (cfg : AzureAdConfig) (st : State)
    (req : Request) :
  reachable cfg st ->
  In req (sent st) ->
  isAzureOBOConfigured cfg = true
  /\ url req = "https://login.microsoftonline.com/" +:+ tenantId cfg +:+ "/oauth2/v2.0/token"
  /\ exists o credential ts, req = requestOf cfg o credential ts.
Proof.
  intros Hreach. revert req.
  assert (Hstep : forall o env credential ts st0,
             (forall req, In req (sent st0) ->
                          isAzureOBOConfigured cfg = true
                          /\ url req = tokenUrl cfg
                          /\ exists o credential ts, req = requestOf cfg o credential ts) ->
             forall req, In req (sent (snd (run cfg o env credential ts st0))) ->
                         isAzureOBOConfigured cfg = true
                         /\ url req = tokenUrl cfg
                         /\ exists o credential ts, req = requestOf cfg o credential ts).
  { intros o env credential ts st0 IH req.
    destruct (run_requests cfg o env credential ts st0) as [-> | [Hcfg ->]]; [apply IH|].
    rewrite in_app_iff. intros [Hin | [<- | []]]; [now apply IH|].
    split; [exact Hcfg|]. split; [destruct o; reflexivity | eauto]. }
  induction Hreach as [|st c _ IH]; [intros req []|].
  destruct c as [env rt ts|env ut ts|env1 env2 rt ts]; simpl.
  - apply (Hstep Silent). exact IH.
  - apply (Hstep OnBehalfOf). exact IH.
  - rewrite downstream_unfold.
    pose proof (Hstep Silent env1 rt (ScopeString (OUR_APP_SCOPE cfg)) st IH) as H1.
    destruct (run cfg Silent env1 rt _ st) as [[tok|e] st1]; simpl in H1.
    + apply (Hstep OnBehalfOf). exact H1.
    + exact H1.
Qed.

Lemma requests_go_to_the_tenant_endpoint_witness :
  url (requestOf configured OnBehalfOf "own-app" graphScopes)
  = "https://login.microsoftonline.com/contoso/oauth2/v2.0/token".
Proof.
  refine (proj1 (proj2 (requests_go_to_the_tenant_endpoint configured
                          (snd (perform configured
                                  (CallDownstream (issuing "own-app" None 0)
                                     (issuing "graph" None 50) "refresh" graphScopes)
                                  initial))
                          (requestOf configured OnBehalfOf "own-app" graphScopes) _ _))).
  - apply reachable_step, reachable_initial.
  - vm_compute. right. left. reflexivity.
Defined.

(** One call of [acquireDownstreamToken] sends at most two requests: the
    refresh grant for the broker's own scope, if that token is not cached,
    and then the on-behalf-of grant carrying the silent step's token as its
    assertion, if the silent step succeeded and the downstream token is not
    cached. *)
Theorem downstream_requests (cfg : AzureAdConfig) (env1 env2 : Env) (refreshToken : string)
    (ts : TargetScopes) (st : State) :
  exists first second,
    sent (snd (acquireDownstreamToken cfg env1 env2 refreshToken ts st))
    = sent st ++ first ++ second
    /\ (first = []
        \/ first = [requestOf cfg Silent refreshToken (ScopeString (OUR_APP_SCOPE cfg))])
    /\ (second = []
        \/ exists silentToken,
            fst (acquireTokenSilent cfg env1 refreshToken
                   (ScopeString (OUR_APP_SCOPE cfg)) st) = TokenOk silentToken
            /\ second = [requestOf cfg OnBehalfOf silentToken ts]).
Proof.
  rewrite downstream_unfold.
  pose proof (run_sent cfg Silent env1 refreshToken (ScopeString (OUR_APP_SCOPE cfg)) st)
    as H1.
  change (acquireTokenSilent cfg) with (run cfg Silent).
  destruct (run cfg Silent env1 refreshToken _ st) as [[tok|e] st1]; simpl in H1.
  - pose proof (run_sent cfg OnBehalfOf env2 tok ts st1) as H2.
    destruct H1 as [H1|H1], H2 as [H2|H2]; rewrite H2, H1.
    + exists [], []. rewrite !app_nil_r. auto.
    + exists [], [requestOf cfg OnBehalfOf tok ts].
      split; [reflexivity|]. split; [now left|]. right. exists tok. now split.
    + exists [requestOf cfg Silent refreshToken (ScopeString (OUR_APP_SCOPE cfg))], [].
      rewrite !app_nil_r. auto.
    + exists [requestOf cfg Silent refreshToken (ScopeString (OUR_APP_SCOPE cfg))],
        [requestOf cfg OnBehalfOf tok ts].
      split; [now rewrite <- List.app_assoc|]. split; [now right|].
      right. exists tok. now split.
  - destruct H1 as [H1|H1]; simpl; rewrite H1.
    + exists [], []. rewrite !app_nil_r. auto.
    + exists [requestOf cfg Silent refreshToken (ScopeString (OUR_APP_SCOPE cfg))], [].
      rewrite !app_nil_r. auto.
Qed.

(** While the token for the broker's own scope is cached and fresh, the
    refresh token passed to [acquireDownstreamToken] is not looked at: the
    call is the exchange of the cached token, whatever refresh token is
    given. *)
Theorem cached_silent_token_shadows_refresh_token (cfg : AzureAdConfig) (env1 env2 : Env)
    (refreshToken : string) (ts : TargetScopes) (st : State) (entry : CachedToken) :
  tokenCache st !! ("silent:" +:+ OUR_APP_SCOPE cfg) = Some entry ->
  fresh (clockAtLookup env1) entry ->
  accessToken entry <> "" ->
  acquireDownstreamToken cfg env1 env2 refreshToken ts st
  = exchangeTokenOBO cfg env2 (accessToken entry) ts st.
Proof.
  intros Hentry Hfresh Hne. rewrite downstream_unfold.
  rewrite (run_hit cfg Silent env1 refreshToken (ScopeString (OUR_APP_SCOPE cfg)) st
             (accessToken entry)); [reflexivity|].
  apply hit_Some. split; [|exact Hne].
  apply getCachedToken_Some. exists entry. auto.
Qed.

Lemma cached_silent_token_shadows_refresh_token_witness :
  let st1 := snd (run configured Silent (issuing "own-app" None 0) "refresh-of-alice"
                    (ScopeString "api://6afc7495/User.Access") initial) in
  acquireDownstreamToken configured (failing 1000) (issuing "graph" None 1000)
    "not-a-refresh-token" graphScopes st1
  = exchangeTokenOBO configured (issuing "graph" None 1000) "own-app" graphScopes st1.
Proof.
  intros st1.
  apply (cached_silent_token_shadows_refresh_token configured (failing 1000)
           (issuing "graph" None 1000) "not-a-refresh-token" graphScopes st1
           {| accessToken := "own-app"; expiresAt := 3600040 |}).
  - reflexivity.
  - reflexivity.
  - discriminate.
Defined.

(** How long a fetched token is served.  After an operation has fetched a
    token, a later call for the same key (with the entry still in place)
    is answered from the cache, without a request, exactly as long as the
    current time is more than five minutes before [time of storing +
    lifetime], the lifetime being [expires_in] seconds or 3600 when the
    response names none; from then on the call goes to the endpoint again.
    In particular a token whose lifetime is five minutes or less is never
    served from the cache once the clock has reached the time of storing. *)
Theorem cache_window (cfg : AzureAdConfig) (o : Operation) (env : Env) (credential : string)
    (ts : TargetScopes) (st st' : State) (tok : string)
    (access_token : option string) (expires_in : option Z) :
  run cfg o env credential ts st = (TokenOk tok, st') ->
  sent st' <> sent st ->
  respond env (requestOf cfg o credential ts) = HttpJson access_token expires_in ->
  let expiry := clockAtStore env + nullish expires_in 3600 * 1000 in
  forall (env2 : Env) (credential2 : string),
    (clockAtLookup env2 + 5 * 60 * 1000 < expiry ->
     run cfg o env2 credential2 ts st' = (TokenOk tok, st'))
    /\ (expiry <= clockAtLookup env2 + 5 * 60 * 1000 ->
        sent (snd (run cfg o env2 credential2 ts st'))
        = sent st' ++ [requestOf cfg o credential2 ts])
    /\ (nullish expires_in 3600 <= 5 * 60 ->
        clockAtStore env <= clockAtLookup env2 ->
        sent (snd (run cfg o env2 credential2 ts st'))
        = sent st' ++ [requestOf cfg o credential2 ts]).
Proof.
  intros Hrun Hsent Hanswer expiry env2 credential2.
  assert (Hstored : isAzureOBOConfigured cfg = true
                    /\ tok <> ""
                    /\ tokenCache st' !! cacheKeyOf o ts
                       = Some {| accessToken := tok; expiresAt := expiry |}).
  { destruct (hit (fst (getCachedToken (clockAtLookup env) (cacheKeyOf o ts) st)))
      as [tok'|] eqn:Hhit.
    - rewrite (run_hit _ _ _ _ _ _ _ Hhit) in Hrun. injection Hrun as _ <-. contradiction.
    - destruct (isAzureOBOConfigured cfg) eqn:Hcfg.
      + pose proof (run_fetch cfg o env credential ts st Hhit Hcfg) as Hfetch.
        cbv zeta in Hfetch. rewrite Hanswer in Hfetch.
        destruct (hit access_token) as [tok'|] eqn:Ha;
          [|destruct Hfetch as [msg Hf]; congruence].
        rewrite Hfetch in Hrun. injection Hrun as <- <-.
        apply hit_Some in Ha as [_ Hne]. repeat split; [exact Hne|].
        simpl. apply lookup_insert_eq.
      + rewrite (run_unconfigured _ _ _ _ _ _ Hhit Hcfg) in Hrun. discriminate. }
  destruct Hstored as (Hcfg & Hne & Hentry).
  assert (Hrefetch : expiry <= clockAtLookup env2 + 5 * 60 * 1000 ->
                     sent (snd (run cfg o env2 credential2 ts st'))
                     = sent st' ++ [requestOf cfg o credential2 ts]).
  { intros Hstale.
    assert (Hmiss : hit (fst (getCachedToken (clockAtLookup env2) (cacheKeyOf o ts) st'))
                    = None).
    { now rewrite (getCachedToken_stale _ _ _ _ Hentry Hstale). }
    pose proof (run_fetch cfg o env2 credential2 ts st' Hmiss Hcfg) as Hfetch.
    cbv zeta in Hfetch.
    destruct (respond env2 _) as [m|s d t|a e].
    - destruct Hfetch as [msg ->]. reflexivity.
    - destruct Hfetch as [msg ->]. reflexivity.
    - destruct (hit a); [now rewrite Hfetch | destruct Hfetch as [msg ->]; reflexivity]. }
  split; [|split].
  - intros Hfresh. apply run_hit. apply hit_Some. split; [|exact Hne].
    apply getCachedToken_Some. eexists. split; [exact Hentry|].
    split; [reflexivity|]. unfold fresh, TOKEN_EXPIRY_BUFFER_MS. simpl. lia.
  - exact Hrefetch.
  - intros Hshort Hclock. apply Hrefetch. unfold expiry. lia.
Qed.

Lemma cache_window_witness :
  let st1 := snd (run configured OnBehalfOf (issuing "graph" None 0) "own-app"
                    graphScopes initial) in
  run configured OnBehalfOf (failing 3300039) "other" graphScopes st1 = (TokenOk "graph", st1)
  /\ sent (snd (run configured OnBehalfOf (failing 3300040) "other" graphScopes st1))
     = sent st1 ++ [requestOf configured OnBehalfOf "other" graphScopes].
Proof.
  intros st1.
  assert (Hne : sent st1 <> sent initial) by discriminate.
  pose proof (cache_window configured OnBehalfOf (issuing "graph" None 0) "own-app"
                graphScopes initial st1 "graph" (Some "graph") None eq_refl Hne eq_refl)
    as Hwindow.
  split.
  - apply (Hwindow (failing 3300039) "other"). reflexivity.
  - apply (proj1 (proj2 (Hwindow (failing 3300040) "other"))). discriminate.
Defined.

(** Under a complete configuration (the condition under which the tools
    that use the broker are created) no call of the broker answers with
    the not-configured error. *)
Theorem configured_never_reports_unconfigured (cfg : AzureAdConfig) (c : Call) (st : State) :
  isAzureOBOConfigured cfg = true ->
  fst (perform cfg c st) <> TokenErr NOT_CONFIGURED.
Proof.
  intros Hcfg.
  assert (Hrun : forall o env credential ts st0,
             fst (run cfg o env credential ts st0) <> TokenErr NOT_CONFIGURED).
  { intros o env credential ts st0.
    destruct o; unfold run, acquireTokenSilent, exchangeTokenOBO, bind, fetch,
      setCachedToken, ret;
      rewrite getCachedToken_eta;
      (destruct (hit (fst (getCachedToken _ _ st0))); [discriminate|]);
      rewrite configuration_check, Hcfg; cbn [negb]; cbv zeta;
      (match goal with |- context [respond env ?r] => destruct (respond env r) as [m|s d t|a e] end);
      try (destruct (hit a)); simpl; intros [= H]; vm_compute in H; discriminate. }
  destruct c as [env rt ts|env ut ts|env1 env2 rt ts]; simpl.
  - apply (Hrun Silent).
  - apply (Hrun OnBehalfOf).
  - rewrite downstream_unfold.
    pose proof (Hrun Silent env1 rt (ScopeString (OUR_APP_SCOPE cfg)) st) as H1.
    destruct (run cfg Silent env1 rt _ st) as [[tok|e] st1]; simpl in H1.
    + apply (Hrun OnBehalfOf).
    + exact H1.
Qed.

Lemma configured_never_reports_unconfigured_witness :
  fst (perform configured
         (CallDownstream (failing 0) (failing 0) "refresh" graphScopes) initial)
  <> TokenErr NOT_CONFIGURED.
Proof.
  exact (configured_never_reports_unconfigured configured _ initial eq_refl).
Defined.

End BrokerFacts.

(** ** The token-exchange proxy *)

Module GleanAuthHttpFacts.

Import Js JsFacts GleanAuthHttp.

Lemma field_Some (fields : gmap string Field) (key text : string) :
  field fields key = Some text
  <-> exists value, fields !! key = Some value /\ sentAs value text.
Proof.
  unfold field. destruct (fields !! key) as [[w|[] t]|]; simpl.
  - destruct (truthy w) eqn:Hw.
    + apply truthy_true in Hw. split.
      * intros [= <-]. exists (FString w). simpl. auto.
      * intros (value & [= <-] & _ & ->). reflexivity.
    + apply truthy_false in Hw. subst w. split; [discriminate|].
      intros (value & [= <-] & Hne & _). congruence.
  - split.
    + intros [= <-]. exists (FOther true t). simpl. auto.
    + intros (value & [= <-] & _ & ->). reflexivity.
  - split; [discriminate|]. intros (value & [= <-] & [=] & _).
  - split; [discriminate|]. intros (value & [=] & _).
Qed.

Lemma exchange_outcome (Json : Type) (fetch : UpstreamRequest -> UpstreamOutcome Json)
    (request : UpstreamRequest) (failure : string) :
  returned Json (exchange Json fetch request failure) = Oidc.Returns true
  /\ upstream Json (exchange Json fetch request failure) = [request]
  /\ response Json (exchange Json fetch request failure)
     = Some match fetch request with
            | UpstreamAnswers _ status (Some data) =>
                sendJson Json (if Oidc.statusOk status then 200%N else status)
                  (Relayed Json data)
            | _ => sendJson Json 500 (ErrorBody Json failure)
            end.
Proof.
  unfold exchange.
  destruct (fetch request) as [|status [data|]]; try (repeat split; reflexivity).
  destruct (Oidc.statusOk status); repeat split; reflexivity.
Qed.

Lemma method_is (req : IncomingMessage) (m : string) :
  (match method req with Some x => String.eqb x m | None => false end) = true
  <-> method req = Some m.
Proof.
  destruct (method req) as [x|].
  - rewrite String.eqb_eq. split; congruence.
  - split; discriminate.
Qed.

(** The ways a call can end. *)
Lemma handler_cases (Json : Type) (cfg : Broker.AzureAdConfig)
    (pathnameOf : string -> Oidc.Completion string)
    (fetch : UpstreamRequest -> UpstreamOutcome Json) (req : IncomingMessage) :
  let outcome := handleGleanAuthHttpRequest Json cfg pathnameOf fetch req in
  (exists message,
      pathnameOf (nullish (url req) "/") = Oidc.Throws message
      /\ outcome = rejected Json message)
  \/ exists pathname,
      pathnameOf (nullish (url req) "/") = Oidc.Returns pathname
      /\ ((method req = Some "OPTIONS"
           /\ String.prefix "/api/glean-auth/" pathname = true
           /\ outcome = answered Json (preflight Json) [])
          \/ ((method req <> Some "OPTIONS"
               \/ String.prefix "/api/glean-auth/" pathname = false)
              /\ (method req <> Some "POST"
                  \/ (pathname <> "/api/glean-auth/token"
                      /\ pathname <> "/api/glean-auth/refresh"))
              /\ outcome = notHandled Json)
          \/ (method req = Some "POST"
              /\ (pathname = "/api/glean-auth/token" \/ pathname = "/api/glean-auth/refresh")
              /\ exists status message,
                  (status = 400%N \/ status = 500%N)
                  /\ outcome = answered Json (sendJson Json status (ErrorBody Json message)) [])
          \/ (method req = Some "POST"
              /\ exists fields request failure,
                  readJsonBody req = BodyObject fields
                  /\ outcome = exchange Json fetch request failure
                  /\ endpoint request = tokenEndpoint cfg
                  /\ ((pathname = "/api/glean-auth/token"
                       /\ failure = "Token exchange failed"
                       /\ exists code redirect_uri code_verifier,
                           field fields "code" = Some code
                           /\ field fields "redirect_uri" = Some redirect_uri
                           /\ field fields "code_verifier" = Some code_verifier
                           /\ form request
                              = [ ("grant_type", "authorization_code"); ("code", code);
                                  ("redirect_uri", redirect_uri);
                                  ("client_id", Broker.clientId cfg);
                                  ("client_secret", Broker.clientSecret cfg);
                                  ("code_verifier", code_verifier) ])
                      \/ (pathname = "/api/glean-auth/refresh"
                          /\ failure = "Token refresh failed"
                          /\ exists refresh_token,
                              field fields "refresh_token" = Some refresh_token
                              /\ form request
                                 = [ ("grant_type", "refresh_token");
                                     ("refresh_token", refresh_token);
                                     ("client_id", Broker.clientId cfg);
                                     ("client_secret", Broker.clientSecret cfg) ])))).
Proof.
  cbv zeta. unfold handleGleanAuthHttpRequest.
  destruct (pathnameOf (nullish (url req) "/")) as [pathname|message];
    [right; exists pathname; split; [reflexivity|] | left; eauto].
  destruct (match method req with Some m => String.eqb m "OPTIONS" | None => false end)
    eqn:Hoptions.
  - apply method_is in Hoptions.
    destruct (String.prefix "/api/glean-auth/" pathname) eqn:Hprefix; simpl; [now left|].
    right; left. rewrite Hoptions. simpl. split; [now right|]. split; [left; discriminate|].
    reflexivity.
  - assert (Hnot : method req <> Some "OPTIONS").
    { intros H. apply method_is in H. congruence. }
    simpl.
    destruct (match method req with Some m => String.eqb m "POST" | None => false end)
      eqn:Hpost; simpl.
    2:{ right; left. split; [now left|]. split; [|reflexivity].
        left. intros H. apply method_is in H. congruence. }
    apply method_is in Hpost.
    destruct (String.eqb pathname "/api/glean-auth/token") eqn:Htoken.
    + apply String.eqb_eq in Htoken.
      destruct (readJsonBody req) as [|body] eqn:Hbody;
        [right; right; left; split; [exact Hpost|]; split; [now left|];
         eexists _, _; split; [right|]; reflexivity|].
      destruct (field body "code") as [code|] eqn:Hc;
        [|right; right; left; split; [exact Hpost|]; split; [now left|];
          eexists _, _; split; [left|]; reflexivity].
      destruct (field body "redirect_uri") as [ru|] eqn:Hr;
        [|right; right; left; split; [exact Hpost|]; split; [now left|];
          eexists _, _; split; [left|]; reflexivity].
      destruct (field body "code_verifier") as [cv|] eqn:Hv;
        [|right; right; left; split; [exact Hpost|]; split; [now left|];
          eexists _, _; split; [left|]; reflexivity].
      right; right; right. split; [exact Hpost|].
      eexists body, _, _. split; [reflexivity|]. split; [reflexivity|].
      split; [reflexivity|]. left. split; [exact Htoken|]. split; [reflexivity|].
      eexists _, _, _. eauto.
    + apply String.eqb_neq in Htoken.
      destruct (String.eqb pathname "/api/glean-auth/refresh") eqn:Hrefresh.
      2:{ apply String.eqb_neq in Hrefresh. right; left.
          split; [now left|]. split; [now right | reflexivity]. }
      apply String.eqb_eq in Hrefresh.
      destruct (readJsonBody req) as [|body] eqn:Hbody;
        [right; right; left; split; [exact Hpost|]; split; [now right|];
         eexists _, _; split; [right|]; reflexivity|].
      destruct (field body "refresh_token") as [rt|] eqn:Hrt;
        [|right; right; left; split; [exact Hpost|]; split; [now right|];
          eexists _, _; split; [left|]; reflexivity].
      right; right; right. split; [exact Hpost|].
      eexists body, _, _. split; [reflexivity|]. split; [reflexivity|].
      split; [reflexivity|]. right. split; [exact Hrefresh|]. split; [reflexivity|].
      eexists. eauto.
Qed.

(** How a call ends.  The handler is rejected exactly when the request
    target does not parse as a URL, with the parser's exception; it
    returns [false] exactly for a target that parses and is neither a
    preflight of the handler's prefix nor a POST to one of its two routes.
    In both cases nothing has been written and nothing has been sent.  In
    every other case it returns [true] and has written a response. *)
Theorem passes_on_iff (Json : Type) (cfg : Broker.AzureAdConfig)
    (pathnameOf : string -> Oidc.Completion string)
    (fetch : UpstreamRequest -> UpstreamOutcome Json) (req : IncomingMessage) :
  let outcome := handleGleanAuthHttpRequest Json cfg pathnameOf fetch req in
  let parsed := pathnameOf (nullish (url req) "/") in
  (forall message, returned Json outcome = Oidc.Throws message <-> parsed = Oidc.Throws message)
  /\ (returned Json outcome = Oidc.Returns false
      <-> exists pathname,
           parsed = Oidc.Returns pathname
           /\ (method req <> Some "OPTIONS"
               \/ String.prefix "/api/glean-auth/" pathname = false)
           /\ (method req <> Some "POST"
               \/ (pathname <> "/api/glean-auth/token"
                   /\ pathname <> "/api/glean-auth/refresh")))
  /\ (returned Json outcome <> Oidc.Returns true ->
      response Json outcome = None /\ upstream Json outcome = [])
  /\ (returned Json outcome = Oidc.Returns true -> response Json outcome <> None).
Proof.
  cbv zeta.
  destruct (handler_cases Json cfg pathnameOf fetch req)
    as [(message & Hparsed & ->)
       | (pathname & Hparsed
          & [(Hoptions & Hprefix & ->)
            | [(Hnot & Hroute & ->)
              | [(Hpost & Hpath & status & text & _ & ->)
                | (Hpost & fields & request & failure & _ & -> & _ & Hroute)]]])];
    rewrite Hparsed.
  - simpl. split; [intros m; split; congruence|]. split; [|split; [auto | discriminate]].
    split; [discriminate | intros (? & [=] & _)].
  - simpl. split; [intros m; split; discriminate|]. split; [|split; [congruence | discriminate]].
    split; [discriminate|]. intros (p' & [= <-] & [H|H] & _); congruence.
  - simpl. split; [intros m; split; discriminate|]. split; [|split; [auto | discriminate]].
    split; [eauto | reflexivity].
  - simpl. split; [intros m; split; discriminate|]. split; [|split; [congruence | discriminate]].
    split; [discriminate|].
    intros (p' & [= <-] & _ & [H|[H1 H2]]); [congruence|]. destruct Hpath; congruence.
  - destruct (exchange_outcome Json fetch request failure) as (-> & _ & ->).
    split; [intros m; split; discriminate|]. split; [|split; [congruence | discriminate]].
    split; [discriminate|].
    intros (p' & [= <-] & _ & [H|[H1 H2]]); [congruence|].
    destruct Hroute as [[Hpath _] | [Hpath _]]; congruence.
Qed.

(** A target with an empty host is refused by the URL parser, and the
    handler is rejected before it looks at the method; a GET passes. *)
Example rejected_and_passed_on :
  handleGleanAuthHttpRequest string Broker.configured pathOf azure
    {| method := Some "POST"; url := Some "//"; readJsonBody := BodyRejects |}
  = rejected string "Invalid URL"
  /\ handleGleanAuthHttpRequest string Broker.configured pathOf azure
       {| method := Some "GET"; url := None; readJsonBody := BodyRejects |}
     = notHandled string.
Proof. split; reflexivity. Qed.

(** The token endpoint is contacted at most once per call, and only for a
    POST to one of the two routes whose body carries every required field
    with a truthy value.  The request goes to the configured tenant's
    endpoint; a field that is a string is passed as it is, a field of
    another type (the body is not checked) as the text [URLSearchParams]
    makes of it; the client id and the client secret come from the
    server's configuration. *)
Theorem upstream_only_after_validation (Json : Type) (cfg : Broker.AzureAdConfig)
    (pathnameOf : string -> Oidc.Completion string)
    (fetch : UpstreamRequest -> UpstreamOutcome Json) (req : IncomingMessage)
    (request : UpstreamRequest) :
  In request (upstream Json (handleGleanAuthHttpRequest Json cfg pathnameOf fetch req)) ->
  upstream Json (handleGleanAuthHttpRequest Json cfg pathnameOf fetch req) = [request]
  /\ method req = Some "POST"
  /\ endpoint request
     = "https://login.microsoftonline.com/" +:+ Broker.tenantId cfg +:+ "/oauth2/v2.0/token"
  /\ exists pathname fields,
      pathnameOf (nullish (url req) "/") = Oidc.Returns pathname
      /\ readJsonBody req = BodyObject fields
      /\ ((pathname = "/api/glean-auth/token"
           /\ exists code redirect_uri code_verifier,
               (exists value, fields !! "code" = Some value /\ sentAs value code)
               /\ (exists value,
                      fields !! "redirect_uri" = Some value /\ sentAs value redirect_uri)
               /\ (exists value,
                      fields !! "code_verifier" = Some value /\ sentAs value code_verifier)
               /\ form request
                  = [ ("grant_type", "authorization_code"); ("code", code);
                      ("redirect_uri", redirect_uri);
                      ("client_id", Broker.clientId cfg);
                      ("client_secret", Broker.clientSecret cfg);
                      ("code_verifier", code_verifier) ])
          \/ (pathname = "/api/glean-auth/refresh"
              /\ exists refresh_token,
                  (exists value,
                      fields !! "refresh_token" = Some value /\ sentAs value refresh_token)
                  /\ form request
                     = [ ("grant_type", "refresh_token");
                         ("refresh_token", refresh_token);
                         ("client_id", Broker.clientId cfg);
                         ("client_secret", Broker.clientSecret cfg) ])).
Proof.
  destruct (handler_cases Json cfg pathnameOf fetch req)
    as [(message & _ & ->)
       | (pathname & Hparsed
          & [(_ & _ & ->)
            | [(_ & _ & ->)
              | [(_ & _ & status & text & _ & ->)
                | (Hpost & fields & request' & failure & Hbody & -> & Hendpoint & Hroute)]]])];
    try (intros []).
  destruct (exchange_outcome Json fetch request' failure) as (_ & -> & _).
  intros [<- | []]. split; [reflexivity|]. split; [exact Hpost|].
  split; [exact Hendpoint|]. exists pathname, fields.
  split; [exact Hparsed|]. split; [exact Hbody|].
  destruct Hroute as [(Hpath & _ & code & ru & cv & Hc & Hr & Hv & Hform)
                     | (Hpath & _ & rt & Hrt & Hform)].
  - left. split; [exact Hpath|]. exists code, ru, cv.
    apply field_Some in Hc, Hr, Hv. auto.
  - right. split; [exact Hpath|]. exists rt. apply field_Some in Hrt. auto.
Qed.

(** A body whose [code] is the number 1 and whose [code_verifier] is the
    array [["x"]] passes the check, and the endpoint gets their texts. *)
Lemma upstream_only_after_validation_witness :
  upstream string
    (handleGleanAuthHttpRequest string Broker.configured pathOf azure
       (tokenPost {[ "code" := FOther true "1";
                     "redirect_uri" := FString "https://ui/callback";
                     "code_verifier" := FOther true "x" ]}))
  = [ {| endpoint := "https://login.microsoftonline.com/contoso/oauth2/v2.0/token";
         form := [ ("grant_type", "authorization_code"); ("code", "1");
                   ("redirect_uri", "https://ui/callback"); ("client_id", "6afc7495");
                   ("client_secret", "s3cr3t"); ("code_verifier", "x") ] |} ].
Proof.
  refine (proj1 (upstream_only_after_validation string Broker.configured pathOf azure
                   (tokenPost {[ "code" := FOther true "1";
                                 "redirect_uri" := FString "https://ui/callback";
                                 "code_verifier" := FOther true "x" ]}) _ _)).
  vm_compute. left. reflexivity.
Defined.

(** Once the token endpoint has been contacted, its answer is what the
    caller gets: the parsed body unchanged, under status 200 when the
    endpoint's status is in 200-299 and under the endpoint's own status
    otherwise; when the endpoint cannot be reached or its body is not
    JSON, status 500 with the message of the route that was called. *)
Theorem relays_the_answer (Json : Type) (cfg : Broker.AzureAdConfig)
    (pathnameOf : string -> Oidc.Completion string)
    (fetch : UpstreamRequest -> UpstreamOutcome Json) (req : IncomingMessage)
    (request : UpstreamRequest) :
  In request (upstream Json (handleGleanAuthHttpRequest Json cfg pathnameOf fetch req)) ->
  exists pathname failure,
    pathnameOf (nullish (url req) "/") = Oidc.Returns pathname
    /\ ((pathname = "/api/glean-auth/token" /\ failure = "Token exchange failed")
        \/ (pathname = "/api/glean-auth/refresh" /\ failure = "Token refresh failed"))
    /\ response Json (handleGleanAuthHttpRequest Json cfg pathnameOf fetch req)
       = Some match fetch request with
              | UpstreamAnswers _ status (Some data) =>
                  sendJson Json (if Oidc.statusOk status then 200%N else status)
                    (Relayed Json data)
              | _ => sendJson Json 500 (ErrorBody Json failure)
              end.
Proof.
  destruct (handler_cases Json cfg pathnameOf fetch req)
    as [(message & _ & ->)
       | (pathname & Hparsed
          & [(_ & _ & ->)
            | [(_ & _ & ->)
              | [(_ & _ & status & text & _ & ->)
                | (_ & fields & request' & failure & _ & -> & _ & Hroute)]]])];
    try (intros []).
  destruct (exchange_outcome Json fetch request' failure) as (_ & -> & ->).
  intros [<- | []]. exists pathname, failure. split; [exact Hparsed|].
  split; [|reflexivity].
  destruct Hroute as [(Hpath & Hfailure & _) | (Hpath & Hfailure & _)]; auto.
Qed.

(** An error answer of the endpoint is passed on with its status; when the
    endpoint cannot be reached during a refresh, the caller is told that
    the refresh failed. *)
Lemma relays_the_answer_witness :
  response string
    (handleGleanAuthHttpRequest string Broker.configured pathOf azure
       (tokenPost {[ "code" := FString "expired-code";
                     "redirect_uri" := FString "https://ui/callback";
                     "code_verifier" := FString "v3rifier" ]}))
  = Some (sendJson string 400 (Relayed string "{error: invalid_grant}"))
  /\ response string
       (handleGleanAuthHttpRequest string Broker.configured pathOf unreachable
          (refreshPost {[ "refresh_token" := FString "r3fresh" ]}))
     = Some (sendJson string 500 (ErrorBody string "Token refresh failed")).
Proof.
  split.
  - destruct (relays_the_answer string Broker.configured pathOf azure
                (tokenPost {[ "code" := FString "expired-code";
                              "redirect_uri" := FString "https://ui/callback";
                              "code_verifier" := FString "v3rifier" ]})
                {| endpoint := "https://login.microsoftonline.com/contoso/oauth2/v2.0/token";
                   form := [ ("grant_type", "authorization_code"); ("code", "expired-code");
                             ("redirect_uri", "https://ui/callback");
                             ("client_id", "6afc7495"); ("client_secret", "s3cr3t");
                             ("code_verifier", "v3rifier") ] |})
      as (pathname & failure & _ & _ & Hresponse).
    + vm_compute. left. reflexivity.
    + rewrite Hresponse. reflexivity.
  - destruct (relays_the_answer string Broker.configured pathOf unreachable
                (refreshPost {[ "refresh_token" := FString "r3fresh" ]})
                {| endpoint := "https://login.microsoftonline.com/contoso/oauth2/v2.0/token";
                   form := [ ("grant_type", "refresh_token"); ("refresh_token", "r3fresh");
                             ("client_id", "6afc7495"); ("client_secret", "s3cr3t") ] |})
      as (pathname & failure & Hparsed & Hroute & Hresponse).
    + vm_compute. left. reflexivity.
    + rewrite Hresponse. simpl. injection Hparsed as <-.
      destruct Hroute as [[[=] _] | [_ ->]]. reflexivity.
Defined.

(** Every response the handler writes, the preflight answer and the error
    answers included, allows any origin, the methods POST and OPTIONS, and
    the Content-Type header; and its status is 204, 200, 400, 500 or the
    status the token endpoint answered with. *)
Theorem every_response_carries_cors (Json : Type) (cfg : Broker.AzureAdConfig)
    (pathnameOf : string -> Oidc.Completion string)
    (fetch : UpstreamRequest -> UpstreamOutcome Json) (req : IncomingMessage)
    (written : ServerResponse Json) :
  response Json (handleGleanAuthHttpRequest Json cfg pathnameOf fetch req) = Some written ->
  In ("Access-Control-Allow-Origin", "*") (headers Json written)
  /\ In ("Access-Control-Allow-Methods", "POST, OPTIONS") (headers Json written)
  /\ In ("Access-Control-Allow-Headers", "Content-Type") (headers Json written)
  /\ (In (statusCode Json written) [204; 200; 400; 500]%N
      \/ exists request json,
          In request
            (upstream Json (handleGleanAuthHttpRequest Json cfg pathnameOf fetch req))
          /\ fetch request = UpstreamAnswers Json (statusCode Json written) json).
Proof.
  destruct (handler_cases Json cfg pathnameOf fetch req)
    as [(message & _ & ->)
       | (pathname & _
          & [(_ & _ & ->)
            | [(_ & _ & ->)
              | [(_ & _ & status & text & Hstatus & ->)
                | (_ & fields & request & failure & _ & -> & _)]]])].
  - discriminate.
  - intros [= <-]. simpl. tauto.
  - discriminate.
  - intros [= <-]. simpl. destruct Hstatus as [-> | ->]; tauto.
  - destruct (exchange_outcome Json fetch request failure) as (_ & -> & ->).
    intros [= <-].
    destruct (fetch request) as [|status [data|]] eqn:Hfetch; simpl; try tauto.
    destruct (Oidc.statusOk status); simpl; [tauto|].
    repeat split; try tauto. right. exists request, (Some data). auto.
Qed.

Lemma every_response_carries_cors_witness :
  In ("Access-Control-Allow-Origin", "*")
    (headers string (sendJson string 400
                       (ErrorBody string
                          "Missing required fields: code, redirect_uri, code_verifier"))).
Proof.
  exact (proj1 (every_response_carries_cors string Broker.configured pathOf azure
                  (tokenPost {[ "code" := FString "c0de"; "redirect_uri" := FString "" ]})
                  _ eq_refl)).
Defined.

Example preflight_and_pass_through :
  handleGleanAuthHttpRequest string Broker.configured pathOf azure
    {| method := Some "OPTIONS"; url := Some "/api/glean-auth/anything";
       readJsonBody := BodyRejects |}
  = answered string (preflight string) []
  /\ handleGleanAuthHttpRequest string Broker.configured pathOf azure
       {| method := Some "GET"; url := Some "/api/glean-auth/token";
          readJsonBody := BodyRejects |}
     = notHandled string
  /\ handleGleanAuthHttpRequest string Broker.configured pathOf azure
       {| method := Some "POST"; url := Some "/api/glean-auth/token";
          readJsonBody := BodyRejects |}
     = answered string (sendJson string 500 (ErrorBody string "Token exchange failed")) [].
Proof. repeat split; reflexivity. Qed.

End GleanAuthHttpFacts.

(** ** The flex-desk tool *)

Module NfdDeskFacts.

Import Js JsFacts Oidc NfdDesk.

Section Facts.

Variable Json Params ToolResult : Type.
Variable readRequired : Params -> string -> Completion string.
Variable readOptional : Params -> string -> Completion (option string).
Variable jsonResult : Payload Json -> ToolResult.
Variable reserialize : string -> option string.
Variable messageOf : Json -> option string.
Variable NFD_CONFIG : NfdConfig.
Variable AZURE_AD_CONFIG : Broker.AzureAdConfig.

Abbreviation execute :=
  (execute Json Params ToolResult readRequired readOptional jsonResult reserialize messageOf
     NFD_CONFIG AZURE_AD_CONFIG).
Abbreviation callNfdApi := (callNfdApi Json messageOf NFD_CONFIG).

Lemma callNfdApi_request (world : Surroundings Json) (token path : string)
    (method body : option string) :
  exists request,
    snd (callNfdApi world token path method body) = [request]
    /\ apiUrl request = baseUrl NFD_CONFIG +:+ path
    /\ apiMethod request = nullish method "GET"
    /\ authorization request = "Bearer " +:+ token
    /\ apiBody request
       = match body with
         | Some b => if truthy b then Some b else None
         | None => None
         end.
Proof. eexists. repeat split. Qed.

(** When [execute] gets as far as the NFD API. *)
Lemma api_calls_cases (world : Surroundings Json) (params : Params) (st : Broker.State) :
  apiCalls ToolResult (execute world params st) = []
  \/ exists refreshToken action nfdToken path method body,
      getRefreshToken Json world = Returns (Some refreshToken)
      /\ refreshToken <> ""
      /\ readRequired params "action" = Returns action
      /\ In action NFD_ACTIONS
      /\ fst (Broker.acquireDownstreamToken AZURE_AD_CONFIG (silentEnv Json world)
                (exchangeEnv Json world) refreshToken
                (Broker.ScopeString (scope NFD_CONFIG)) st)
         = Broker.TokenOk nfdToken
      /\ apiCalls ToolResult (execute world params st)
         = snd (callNfdApi world nfdToken path method body)
      /\ (action <> "book_desk" -> method = None /\ body = None)
      /\ (action = "book_desk" ->
          method = Some "POST"
          /\ exists bodyStr b,
              readRequired params "reservation_body" = Returns bodyStr
              /\ reserialize bodyStr = Some b /\ body = Some b).
Proof.
  unfold NfdDesk.execute.
  destruct (getRefreshToken Json world) as [[refreshToken|]|m0]; [|now left..].
  destruct (truthy refreshToken) eqn:Hrt; [|now left]. cbn [negb].
  apply truthy_true in Hrt.
  destruct (readRequired params "action") as [action|m] eqn:Haction; [|now left].
  destruct (Broker.acquireDownstreamToken AZURE_AD_CONFIG (silentEnv Json world)
              (exchangeEnv Json world) refreshToken
              (Broker.ScopeString (scope NFD_CONFIG)) st)
    as [[nfdToken|e] st'] eqn:Htoken; [|now left].
  assert (Hfst : fst (Broker.acquireDownstreamToken AZURE_AD_CONFIG (silentEnv Json world)
                        (exchangeEnv Json world) refreshToken
                        (Broker.ScopeString (scope NFD_CONFIG)) st)
                 = Broker.TokenOk nfdToken) by now rewrite Htoken.
  destruct (String.eqb action "list_locations") eqn:H1.
  { apply String.eqb_eq in H1. subst action. right.
    exists refreshToken, "list_locations", nfdToken, "/api/locations", None, None.
    repeat split; auto; try discriminate. simpl. tauto. }
  destruct (String.eqb action "available_desks") eqn:H2.
  { apply String.eqb_eq in H2. subst action.
    unfold finish, handleAvailableDesks. cbn [apiCalls].
    destruct (readRequired params "location_id") as [loc|]; [|now left].
    destruct (readOptional params "date") as [date|]; [|now left].
    destruct (readOptional params "time_block_type") as [tb|]; [|now left].
    right. eexists refreshToken, "available_desks", nfdToken, _, None, None.
    repeat split; auto; try discriminate. simpl. tauto. }
  destruct (String.eqb action "my_reservations") eqn:H3.
  { apply String.eqb_eq in H3. subst action. right.
    exists refreshToken, "my_reservations", nfdToken, "/api/reservations", None, None.
    repeat split; auto; try discriminate. simpl. tauto. }
  destruct (String.eqb action "book_desk") eqn:H4; [|now left].
  apply String.eqb_eq in H4. subst action.
  unfold finish, handleBookDesk. cbn [apiCalls].
  destruct (readRequired params "reservation_body") as [bodyStr|] eqn:Hbody; [|now left].
  destruct (reserialize bodyStr) as [b|] eqn:Hser; [|now left].
  right. exists refreshToken, "book_desk", nfdToken, "/api/reservation", (Some "POST"), (Some b).
  repeat split; auto; try congruence; [simpl; tauto | eauto].
Qed.

(** The NFD API is called at most once per execution: only when a
    refresh token is at hand, the action is one of the four known ones and
    the broker has returned a token for the NFD scope; the request then
    carries exactly that token as its bearer token and goes to a path
    under the configured base URL.  Only [book_desk] posts a body (the
    re-serialized [reservation_body]); the other actions are GETs without
    a body. *)
Theorem api_call_needs_token (world : Surroundings Json) (params : Params)
    (st : Broker.State) (request : ApiRequest) :
  In request (apiCalls ToolResult (execute world params st)) ->
  apiCalls ToolResult (execute world params st) = [request]
  /\ exists refreshToken action nfdToken path,
      getRefreshToken Json world = Returns (Some refreshToken)
      /\ refreshToken <> ""
      /\ readRequired params "action" = Returns action
      /\ In action NFD_ACTIONS
      /\ fst (Broker.acquireDownstreamToken AZURE_AD_CONFIG (silentEnv Json world)
                (exchangeEnv Json world) refreshToken
                (Broker.ScopeString (scope NFD_CONFIG)) st)
         = Broker.TokenOk nfdToken
      /\ authorization request = "Bearer " +:+ nfdToken
      /\ apiUrl request = baseUrl NFD_CONFIG +:+ path
      /\ (action <> "book_desk" -> apiMethod request = "GET" /\ apiBody request = None)
      /\ (action = "book_desk" ->
          apiMethod request = "POST"
          /\ exists bodyStr body,
              readRequired params "reservation_body" = Returns bodyStr
              /\ reserialize bodyStr = Some body
              /\ apiBody request = if truthy body then Some body else None).
Proof.
  destruct (api_calls_cases world params st)
    as [-> | (refreshToken & action & nfdToken & path & method & body & Hrt & Hne & Haction
              & Hin & Htoken & -> & Hget & Hpost)]; [intros []|].
  destruct (callNfdApi_request world nfdToken path method body)
    as (r & -> & Hurl & Hmethod & Hauth & Hbody).
  intros [<- | []]. split; [reflexivity|].
  exists refreshToken, action, nfdToken, path.
  repeat split; try assumption.
  - rewrite Hmethod. destruct (Hget H) as [-> _]. reflexivity.
  - rewrite Hbody. destruct (Hget H) as [_ ->]. reflexivity.
  - rewrite Hmethod. destruct (Hpost H) as [-> _]. reflexivity.
  - destruct (Hpost H) as [_ (bodyStr & b & Hread & Hser & ->)].
    exists bodyStr, b. rewrite Hbody. auto.
Qed.

Lemma finish_returns (action : string) (st : Broker.State) (h : Handled Json)
    (message : string) :
  outcome ToolResult (finish Json ToolResult jsonResult action st h) <> Throws message.
Proof. unfold finish. simpl. destruct (fst h); discriminate. Qed.

(** [execute] throws in two cases only, both before its [try] block:
    [getRefreshToken] throws, or it gives a token and reading the [action]
    argument throws.  The exception is the one that was thrown, and
    nothing has been sent by then, neither to the token endpoint nor to
    the NFD API.  Every other failure (no refresh token, token
    acquisition, unknown action, other missing arguments, the API itself)
    is reported as a result. *)
Theorem execute_throws_before_the_try (world : Surroundings Json) (params : Params)
    (st : Broker.State) (message : string) :
  (outcome ToolResult (execute world params st) = Throws message
   <-> getRefreshToken Json world = Throws message
       \/ ((exists refreshToken,
               getRefreshToken Json world = Returns (Some refreshToken)
               /\ refreshToken <> "")
           /\ readRequired params "action" = Throws message))
  /\ (outcome ToolResult (execute world params st) = Throws message ->
      broker ToolResult (execute world params st) = st
      /\ apiCalls ToolResult (execute world params st) = []).
Proof.
  unfold NfdDesk.execute.
  destruct (getRefreshToken Json world) as [[refreshToken|]|m0].
  - destruct (truthy refreshToken) eqn:Hrt; simpl.
    + apply truthy_true in Hrt.
      destruct (readRequired params "action") as [action|m] eqn:Haction.
      * destruct (Broker.acquireDownstreamToken _ _ _ _ _ st) as [[nfdToken|e] st'].
        2:{ split; [split|]; [discriminate | intros [[=] | (_ & [=])] | discriminate]. }
        repeat (match goal with |- context [if ?b then _ else _] => destruct b end);
          (split; [split|];
           [ first [discriminate | intros H; now apply finish_returns in H]
           | intros [[=] | (_ & [=])]
           | first [discriminate | intros H; now apply finish_returns in H] ]).
      * simpl. split; [split|].
        -- intros [= <-]. right. eauto.
        -- intros [[=] | (_ & [= <-])]. reflexivity.
        -- auto.
    + apply truthy_false in Hrt. subst refreshToken.
      split; [split|]; [discriminate | | discriminate].
      intros [[=] | ((rt & [= <-] & Hne) & _)]. contradiction.
  - split; [split|]; [discriminate | | discriminate].
    intros [[=] | ((rt & [=] & _) & _)].
  - simpl. split; [split|].
    + intros [= <-]. now left.
    + intros [[= <-] | ((rt & [=] & _) & _)]. reflexivity.
    + auto.
Qed.

End Facts.

Lemma api_call_needs_token_witness :
  apiCalls (Payload string)
    (execute string (gmap string string) (Payload string) requiredOf optionalOf
       (fun payload => payload) bracesOnly (fun _ => None) nfd Broker.configured
       (desks 200) {[ "action" := "available_desks"; "location_id" := " SC-1 " ]}
       Broker.initial)
  = [ {| apiUrl := "https://nfd-dev.nvidia.com/api/available/SC-1?SelectedDates=2025-01-15&TimeBlockType=BizDay";
         apiMethod := "GET";
         authorization := "Bearer nfd-token";
         apiBody := None |} ].
Proof.
  refine (proj1 (api_call_needs_token string (gmap string string) (Payload string)
                   requiredOf optionalOf (fun payload => payload) bracesOnly
                   (fun _ => None) nfd Broker.configured (desks 200)
                   {[ "action" := "available_desks"; "location_id" := " SC-1 " ]}
                   Broker.initial _ _)).
  vm_compute. left. reflexivity.
Defined.

Example nfd_failures_are_results :
  outcome (Payload string)
    (execute string (gmap string string) (Payload string) requiredOf optionalOf
       (fun payload => payload) bracesOnly (fun _ => None) nfd Broker.configured
       (desks 200) {[ "action" := "book_desk"; "reservation_body" := "not json" ]}
       Broker.initial)
  = Returns (Failure "nfd_api_error" "reservation_body must be valid JSON")
  /\ outcome (Payload string)
       (execute string (gmap string string) (Payload string) requiredOf optionalOf
          (fun payload => payload) bracesOnly (fun _ => None) nfd Broker.configured
          (desks 503) {[ "action" := "list_locations" ]} Broker.initial)
     = Returns (Failure "nfd_api_error" "NFD API error: 503")
  /\ outcome (Payload string)
       (execute string (gmap string string) (Payload string) requiredOf optionalOf
          (fun payload => payload) bracesOnly (fun _ => None) nfd Broker.configured
          (desks 200) {[ "action" := "cancel" ]} Broker.initial)
     = Returns (Failure "invalid_action"
                  "Unknown action: cancel. Valid: list_locations, available_desks, my_reservations, book_desk")
  /\ outcome (Payload string)
       (execute string (gmap string string) (Payload string) requiredOf optionalOf
          (fun payload => payload) bracesOnly (fun _ => None) nfd Broker.configured
          (desks 200) ∅ Broker.initial)
     = Throws "action required"
  /\ outcome (Payload string)
       (execute string (gmap string string) (Payload string) requiredOf optionalOf
          (fun payload => payload) bracesOnly (fun _ => None) nfd Broker.configured
          (withGetter (Throws "session store unavailable") (desks 200))
          {[ "action" := "list_locations" ]} Broker.initial)
     = Throws "session store unavailable".
Proof. repeat split; reflexivity. Qed.

End NfdDeskFacts.

(** ** The meeting-room tool *)

Module MeetingRoomFacts.

Import Js JsFacts Oidc MeetingRoom.

(** The Graph scopes are the non-empty, space-free words of the
    [GRAPH_SCOPES] variable, and writing a list of such words with single
    spaces between them reads back as that list; so the scope string the
    broker builds from them (and caches under) has no leading, trailing or
    doubled spaces. *)
Theorem graph_scopes_round_trip (GRAPH_SCOPES : option string) :
  (forall sc, In sc (graphScopes GRAPH_SCOPES) -> sc <> "" /\ lacks " " sc = true)
  /\ (forall l,
        Forall (fun sc => sc <> "" /\ lacks " " sc = true) l ->
        graphScopes (Some (Broker.join " " l)) = l)
  /\ graphScopes (Some (Broker.join " " (graphScopes GRAPH_SCOPES)))
     = graphScopes GRAPH_SCOPES.
Proof.
  assert (Hwords : forall sc, In sc (graphScopes GRAPH_SCOPES) ->
                              sc <> "" /\ lacks " " sc = true).
  { intros sc [Hin Hsc]%filter_In. split; [now apply truthy_true|].
    pose proof (split_lacks " " (nullish GRAPH_SCOPES
      "https://graph.microsoft.com/Calendars.ReadWrite https://graph.microsoft.com/Group.Read.All"))
      as Hl.
    rewrite List.Forall_forall in Hl. now apply Hl. }
  assert (Hback : forall l,
             Forall (fun sc => sc <> "" /\ lacks " " sc = true) l ->
             graphScopes (Some (Broker.join " " l)) = l).
  { unfold graphScopes. cbn [nullish].
    induction l as [|a [|b rest] IH]; intros Hl.
    - reflexivity.
    - inversion Hl as [|? ? [Ha Hlacks] _]; subst. simpl.
      rewrite (split_whole _ _ Hlacks). simpl.
      apply truthy_true in Ha. now rewrite Ha.
    - inversion Hl as [|? ? [Ha Hlacks] Hrest]; subst.
      change (Broker.join " " (a :: b :: rest))
        with (a +:+ String " " (Broker.join " " (b :: rest))).
      rewrite (split_app _ _ _ Hlacks). cbn [List.filter].
      apply truthy_true in Ha. rewrite Ha. f_equal. now apply IH. }
  split; [exact Hwords|]. split; [exact Hback|].
  apply Hback. apply List.Forall_forall. exact Hwords.
Qed.

Lemma graph_scopes_round_trip_witness :
  graphScopes (Some "  Calendars.ReadWrite   Group.Read.All ")
  = ["Calendars.ReadWrite"; "Group.Read.All"]
  /\ graphScopes (Some (Broker.join " " ["Calendars.ReadWrite"; "Group.Read.All"]))
     = ["Calendars.ReadWrite"; "Group.Read.All"].
Proof.
  split; [reflexivity|].
  apply (proj1 (proj2 (graph_scopes_round_trip None))).
  repeat constructor; discriminate.
Defined.

Lemma filter_all {A} (l : list A) : List.filter (fun _ => true) l = l.
Proof. induction l as [|a l IH]; [reflexivity|]. simpl. now rewrite IH. Qed.

Lemma summarize_filtered (toLowerCase : ToLowerCase) (locationFilter : option string)
    (all : list MeetRoom) :
  summarize toLowerCase locationFilter all
  = let filtered := List.filter (selected toLowerCase locationFilter) all in
    {| total := length filtered;
       locations := @merge_sort _ codeUnitLe codeUnitLe_dec
                      (unique [] (namedLocations filtered));
       rooms := firstn 30 filtered;
       note := if (30 <? length filtered)%nat
               then Some ("Showing first " +:+ pretty 30%nat +:+ " of "
                            +:+ pretty (length filtered)
                            +:+ ". Use location filter to narrow.")
               else None |}.
Proof.
  unfold summarize, selected. destruct locationFilter as [f|].
  - destruct (truthy f); [reflexivity|]. now rewrite filter_all.
  - now rewrite filter_all.
Qed.

Lemma unique_spec (seen l : list string) :
  NoDup (unique seen l)
  /\ forall x, In x (unique seen l) <-> In x l /\ ~ In x seen.
Proof.
  revert seen. induction l as [|a l IH]; intros seen; simpl.
  - split; [constructor | tauto].
  - destruct (existsb (String.eqb a) seen) eqn:Hseen.
    + apply existsb_exists in Hseen as (y & Hy & Heq). apply String.eqb_eq in Heq. subst y.
      destruct (IH seen) as [Hnd Hin]. split; [exact Hnd|].
      intros x. rewrite Hin. split; [tauto|]. intros [[<- | H] Hn]; tauto.
    + assert (Hnot : ~ In a seen).
      { intros H. assert (existsb (String.eqb a) seen = true); [|congruence].
        apply existsb_exists. exists a. split; [exact H | apply String.eqb_refl]. }
      destruct (IH (a :: seen)) as [Hnd Hin]. split.
      * constructor; [|exact Hnd]. rewrite list_elem_of_In, Hin. simpl. tauto.
      * intros x. simpl. rewrite Hin. simpl. split.
        -- intros [<- | [H Hn]]; tauto.
        -- intros [[<- | H] Hn]; [tauto|].
           destruct (String.eqb_spec a x) as [-> | Hne]; tauto.
Qed.

(** The summary, field by field. *)
Lemma room_summary (toLowerCase : ToLowerCase) (locationFilter : option string)
    (all : list MeetRoom) :
  let summary := summarize toLowerCase locationFilter all in
  let passing := List.filter (selected toLowerCase locationFilter) all in
  total summary = length passing
  /\ rooms summary = firstn 30 passing
  /\ (length (rooms summary) <= 30)%nat
  /\ (note summary <> None <-> (30 < total summary)%nat)
  /\ Sorted codeUnitLe (locations summary)
  /\ NoDup (locations summary)
  /\ forall l,
      In l (locations summary)
      <-> l <> "" /\ exists r, In r all /\ selected toLowerCase locationFilter r = true
                                /\ location r = Some l.
Proof.
  cbv zeta. rewrite summarize_filtered. cbv zeta. cbn [total rooms note locations].
  set (passing := List.filter (selected toLowerCase locationFilter) all).
  destruct (unique_spec [] (namedLocations passing)) as [Hnd Hin].
  split; [reflexivity|]. split; [reflexivity|]. split; [|split; [|split; [|split]]].
  - rewrite List.length_firstn. lia.
  - destruct (30 <? length passing)%nat eqn:Hlt.
    + apply Nat.ltb_lt in Hlt. split; [auto | discriminate].
    + apply Nat.ltb_ge in Hlt. split; [congruence | lia].
  - apply (@Sorted_merge_sort _ codeUnitLe codeUnitLe_dec codeUnitLe_total).
  - now rewrite (@merge_sort_Permutation _ codeUnitLe codeUnitLe_dec).
  - intros l.
    assert (Hperm : In l (@merge_sort _ codeUnitLe codeUnitLe_dec
                            (unique [] (namedLocations passing)))
                    <-> In l (unique [] (namedLocations passing))).
    { split; apply Permutation_in;
        [|symmetry]; apply (@merge_sort_Permutation _ codeUnitLe codeUnitLe_dec). }
    rewrite Hperm, Hin. unfold namedLocations.
    rewrite <- list_elem_of_In, list_elem_of_omap. split.
    + intros [(r & Hr & Hl) _]. apply list_elem_of_In, filter_In in Hr as [Hr Hsel].
      destruct (location r) as [l'|] eqn:Hloc; [|discriminate].
      destruct (truthy l') eqn:Ht; [|discriminate]. injection Hl as <-.
      split; [now apply truthy_true | eauto].
    + intros (Hne & r & Hr & Hsel & Hloc). split; [|simpl; tauto].
      exists r. split; [apply list_elem_of_In, filter_In; auto|].
      rewrite Hloc. apply truthy_true in Hne. now rewrite Hne.
Qed.

Example room_summary_example :
  summarize asciiLowerCase (Some "santa")
    [ roomAt "Zeus" "Santa Clara E"; roomAt "Ares" "Munich"; roomAt "Hera" "SANTA CLARA A";
      roomAt "Iris" "Santa Clara E" ]
  = {| total := 3;
       locations := ["SANTA CLARA A"; "Santa Clara E"];
       rooms := [ roomAt "Zeus" "Santa Clara E"; roomAt "Hera" "SANTA CLARA A";
                  roomAt "Iris" "Santa Clara E" ];
       note := None |}.
Proof. reflexivity. Qed.

(** What [search_rooms] answers.  It answers only when the room directory
    is served with a 2xx status and a body that parses.  At most 30 rooms
    are listed, the first ones that pass the location filter (the
    lower-cased filter occurs in the room's lower-cased location; no
    filter, or an empty one, lets every room pass), while [total] counts
    all of them and the note appears exactly when some are left out.
    [locations] lists the non-empty locations of all passing rooms (also
    of those beyond the first 30), each once, in the order of [sort]
    (by UTF-16 code units). *)
Theorem search_rooms_answer (toLowerCase : ToLowerCase) (Params : Type)
    (readOptional : Params -> string -> Completion (option string))
    (meet : MeetOutcome) (params : Params) (summary : RoomSummary) :
  handleSearchRooms toLowerCase Params readOptional meet params = Returns summary ->
  exists locationFilter status statusText all,
    readOptional params "location" = Returns locationFilter
    /\ meet = MeetAnswers status statusText (Returns all)
    /\ statusOk status = true
    /\ total summary = length (List.filter (selected toLowerCase locationFilter) all)
    /\ rooms summary = firstn 30 (List.filter (selected toLowerCase locationFilter) all)
    /\ (length (rooms summary) <= 30)%nat
    /\ (note summary <> None <-> (30 < total summary)%nat)
    /\ Sorted codeUnitLe (locations summary)
    /\ NoDup (locations summary)
    /\ (forall l,
          In l (locations summary)
          <-> l <> "" /\ exists r, In r all /\ selected toLowerCase locationFilter r = true
                                    /\ location r = Some l)
    /\ (forall r,
          selected toLowerCase locationFilter r = true
          <-> match locationFilter with
              | Some f =>
                  f = ""
                  \/ exists l, location r = Some l /\ l <> ""
                                /\ includes (toLowerCase l) (toLowerCase f) = true
              | None => True
              end).
Proof.
  unfold handleSearchRooms.
  destruct (readOptional params "location") as [locationFilter|]; [|discriminate].
  destruct meet as [m|status statusText [all|m]]; try discriminate;
    destruct (statusOk status) eqn:Hok; simpl; try discriminate.
  intros [= <-].
  exists locationFilter, status, statusText, all.
  pose proof (room_summary toLowerCase locationFilter all) as Hsummary.
  cbv zeta in Hsummary.
  destruct Hsummary as (H1 & H2 & H3 & H4 & H5 & H6 & H7).
  repeat split; try assumption; try (now apply H4); try (now apply H7).
  - unfold selected, inLocation. destruct locationFilter as [f|]; [|trivial].
    destruct (truthy f) eqn:Hf; [|left; now apply truthy_false].
    destruct (location r) as [l|]; [|discriminate].
    intros [Hl Hinc]%andb_true_iff. right. exists l. apply truthy_true in Hl. auto.
  - unfold selected, inLocation. destruct locationFilter as [f|]; [|reflexivity].
    destruct (truthy f) eqn:Hf; [|reflexivity]. apply truthy_true in Hf.
    intros [-> | (l & -> & Hl & Hinc)]; [contradiction|].
    apply truthy_true in Hl. now rewrite Hl, Hinc.
Qed.

Lemma search_rooms_answer_witness :
  Sorted codeUnitLe
    (locations
       (summarize asciiLowerCase (Some "santa")
          [ roomAt "Zeus" "Santa Clara E"; roomAt "Ares" "Munich";
            roomAt "Hera" "SANTA CLARA A" ])).
Proof.
  assert (Hanswer :
            handleSearchRooms asciiLowerCase (gmap string string) NfdDesk.optionalOf
              (MeetAnswers 200 "OK"
                 (Returns [ roomAt "Zeus" "Santa Clara E"; roomAt "Ares" "Munich";
                            roomAt "Hera" "SANTA CLARA A" ]))
              {[ "location" := "santa" ]}
            = Returns (summarize asciiLowerCase (Some "santa")
                         [ roomAt "Zeus" "Santa Clara E"; roomAt "Ares" "Munich";
                           roomAt "Hera" "SANTA CLARA A" ])) by reflexivity.
  destruct (search_rooms_answer _ _ _ _ _ _ Hanswer)
    as (locationFilter & status & statusText & all & _ & _ & _ & _ & _ & _ & _ & Hsorted & _).
  exact Hsorted.
Defined.

Section AvailabilityFacts.

Variable Json Params : Type.
Variable readRequired : Params -> string -> Completion string.
Variable readOptional : Params -> string -> Completion (option string).

Abbreviation handleCheckAvailability :=
  (handleCheckAvailability Json Params readRequired readOptional).

Lemma schedules_clean (roomEmailsStr : string) :
  Forall (fun e => e <> ""
                   /\ (forall c rest, In c whiteSpace -> e <> c +:+ rest /\ e <> rest +:+ c)
                   /\ trim e = e
                   /\ lacks "," e = true)
    (List.filter truthy (map trim (split "," roomEmailsStr))).
Proof.
  apply List.Forall_forall. intros e [Hin He]%filter_In.
  apply in_map_iff in Hin as (piece & <- & Hpiece).
  split; [now apply truthy_true|].
  split; [intros c rest Hc; split; [now apply trim_start | now apply trim_end]|].
  split; [apply trim_idempotent|].
  apply trim_lacks.
  pose proof (split_lacks "," roomEmailsStr) as Hl.
  rewrite List.Forall_forall in Hl. now apply Hl.
Qed.

(** The availability check asks Graph at most once, and only after the
    three required arguments have been read and at least one room address
    is left: the request is a POST of the schedule query with the caller's
    token, at the 30-minute interval, with one time zone for both ends
    (America/Los_Angeles unless given), and its schedules are the trimmed
    non-empty pieces of [room_emails] between commas, so none is empty,
    starts or ends with a white-space character (of ASCII or beyond), or
    contains a comma. *)
Theorem availability_query (graph : GraphRequest -> GraphOutcome Json)
    (graphToken : string) (params : Params) (request : GraphRequest) :
  In request (snd (handleCheckAvailability graph graphToken params)) ->
  snd (handleCheckAvailability graph graphToken params) = [request]
  /\ graphUrl request = "https://graph.microsoft.com/v1.0/me/calendar/getSchedule"
  /\ graphMethod request = "POST"
  /\ bearer request = "Bearer " +:+ graphToken
  /\ availabilityViewInterval (query request) = 30%N
  /\ schedules (query request) <> []
  /\ Forall (fun e => e <> ""
                      /\ (forall c rest,
                            In c whiteSpace -> e <> c +:+ rest /\ e <> rest +:+ c)
                      /\ trim e = e
                      /\ lacks "," e = true)
       (schedules (query request))
  /\ (exists roomEmailsStr,
        readRequired params "room_emails" = Returns roomEmailsStr
        /\ schedules (query request)
           = List.filter truthy (map trim (split "," roomEmailsStr)))
  /\ (exists start finish zone,
        readRequired params "start_time" = Returns start
        /\ readRequired params "end_time" = Returns finish
        /\ readOptional params "timezone" = Returns zone
        /\ startTime (query request) = (start, nullish zone "America/Los_Angeles")
        /\ endTime (query request) = (finish, nullish zone "America/Los_Angeles")).
Proof.
  unfold MeetingRoom.handleCheckAvailability.
  destruct (readRequired params "room_emails") as [roomEmailsStr|]; [|intros []].
  destruct (readRequired params "start_time") as [start|]; [|intros []].
  destruct (readRequired params "end_time") as [finish|]; [|intros []].
  destruct (readOptional params "timezone") as [zone|]; [|intros []].
  cbv zeta.
  pose proof (schedules_clean roomEmailsStr) as Hclean.
  destruct (List.filter truthy (map trim (split "," roomEmailsStr))) as [|e es] eqn:Hs;
    [intros []|].
  cbn [snd]. intros [<- | []]. cbn.
  repeat split; try reflexivity; try discriminate; eauto 8.
Qed.

(** A [room_emails] argument whose pieces between commas are all white
    space (of ASCII or beyond) or empty is refused before Graph is asked;
    any other one leads to exactly one request. *)
Theorem blank_room_emails_are_refused (graph : GraphRequest -> GraphOutcome Json)
    (graphToken : string) (params : Params) (roomEmailsStr start finish : string)
    (zone : option string) :
  readRequired params "room_emails" = Returns roomEmailsStr ->
  readRequired params "start_time" = Returns start ->
  readRequired params "end_time" = Returns finish ->
  readOptional params "timezone" = Returns zone ->
  (Forall blank (split "," roomEmailsStr) ->
   handleCheckAvailability graph graphToken params
   = (Throws "At least one room email is required", []))
  /\ (~ Forall blank (split "," roomEmailsStr) ->
      exists request, snd (handleCheckAvailability graph graphToken params) = [request]).
Proof.
  intros Hrooms Hstart Hend Hzone.
  unfold MeetingRoom.handleCheckAvailability. rewrite Hrooms, Hstart, Hend, Hzone. cbv zeta.
  assert (Hempty : List.filter truthy (map trim (split "," roomEmailsStr)) = []
                   <-> Forall blank (split "," roomEmailsStr)).
  { induction (split "," roomEmailsStr) as [|piece pieces IH]; simpl.
    - split; [constructor | reflexivity].
    - destruct (truthy (trim piece)) eqn:Hp.
      + split; [discriminate|]. intros H. inversion H as [|? ? Hb _]; subst.
        apply trim_empty_iff_blank in Hb. congruence.
      + apply trim_empty_iff_blank in Hp. rewrite IH. split.
        * intros H. now constructor.
        * intros H. now inversion H. }
  split.
  - intros Hblank. apply Hempty in Hblank. now rewrite Hblank.
  - intros Hnot.
    destruct (List.filter truthy (map trim (split "," roomEmailsStr))) as [|e es].
    + exfalso. apply Hnot, Hempty. reflexivity.
    + eexists. reflexivity.
Qed.

(** What the availability check answers: one entry per schedule that
    Graph returned, in the same order, with the room, the view and the
    items passed on; the label is ["YES"] exactly for the views ["0"] and
    ["00"] and ["NO (busy)"] for everything else.  So a window of three
    or more slots is reported as busy even when every slot is free. *)
Theorem availability_answer (graph : GraphRequest -> GraphOutcome Json)
    (graphToken : string) (params : Params) (result : list (RoomAvailability Json)) :
  fst (handleCheckAvailability graph graphToken params) = Returns result ->
  (exists request value,
      snd (handleCheckAvailability graph graphToken params) = [request]
      /\ graph request = GraphData Json (Returns value)
      /\ Forall2 (fun r s =>
                    room Json r = scheduleId Json s
                    /\ view Json r = availabilityView Json s
                    /\ items Json r = scheduleItems Json s
                    /\ (available Json r = "YES"
                        <-> availabilityView Json s = Some "0"
                            \/ availabilityView Json s = Some "00")
                    /\ (available Json r <> "YES" -> available Json r = "NO (busy)"))
           result (nullish value []))
  /\ forall n, availableLabel (Some (allFree n)) = "YES" <-> n = 1%nat \/ n = 2%nat.
Proof.
  intros Hresult. split.
  - revert Hresult. unfold MeetingRoom.handleCheckAvailability.
    destruct (readRequired params "room_emails") as [roomEmailsStr|]; [|discriminate].
    destruct (readRequired params "start_time") as [start|]; [|discriminate].
    destruct (readRequired params "end_time") as [finish|]; [|discriminate].
    destruct (readOptional params "timezone") as [zone|]; [|discriminate].
    cbv zeta.
    destruct (List.filter truthy (map trim (split "," roomEmailsStr))) as [|e es];
      [discriminate|].
    cbn [fst snd].
    match goal with |- context [graph ?r] =>
      destruct (graph r) as [m|status em|[value|m]] eqn:Hgraph end; try discriminate.
    intros [= <-]. eexists _, value. split; [reflexivity|]. split; [exact Hgraph|].
    induction (nullish value []) as [|s l IH]; simpl; constructor; [|exact IH].
    cbn. repeat split; try reflexivity.
    + unfold availableLabel. destruct (availabilityView Json s) as [v|]; [|discriminate].
      destruct (String.eqb v "0") eqn:H0; simpl.
      * apply String.eqb_eq in H0. subst. auto.
      * destruct (String.eqb v "00") eqn:H00; [|discriminate].
        apply String.eqb_eq in H00. subst. auto.
    + intros [-> | ->]; reflexivity.
    + unfold availableLabel. destruct (availabilityView Json s) as [v|]; [|reflexivity].
      destruct (String.eqb v "0" || String.eqb v "00"); [congruence | reflexivity].
  - intros n. destruct n as [|[|[|n]]]; simpl; split;
      try discriminate; try (intros [H|H]; discriminate); auto.
Qed.

End AvailabilityFacts.

Lemma availability_query_witness :
  snd (MeetingRoom.handleCheckAvailability string (gmap string string)
         NfdDesk.requiredOf NfdDesk.optionalOf calendar "graph-token"
         {[ "room_emails" := " zeus@rooms.example, ," +:+ utf8 0xA0 +:+ "hera@rooms.example"
                               +:+ utf8 0x3000;
            "start_time" := "2025-01-15T10:00:00";
            "end_time" := "2025-01-15T11:30:00" ]})
  = [ {| graphUrl := "https://graph.microsoft.com/v1.0/me/calendar/getSchedule";
         graphMethod := "POST";
         bearer := "Bearer graph-token";
         query := {| schedules := ["zeus@rooms.example"; "hera@rooms.example"];
                     startTime := ("2025-01-15T10:00:00", "America/Los_Angeles");
                     endTime := ("2025-01-15T11:30:00", "America/Los_Angeles");
                     availabilityViewInterval := 30 |} |} ].
Proof.
  refine (proj1 (availability_query string (gmap string string) NfdDesk.requiredOf
                   NfdDesk.optionalOf calendar "graph-token"
                   {[ "room_emails" := " zeus@rooms.example, ," +:+ utf8 0xA0
                                         +:+ "hera@rooms.example" +:+ utf8 0x3000;
                      "start_time" := "2025-01-15T10:00:00";
                      "end_time" := "2025-01-15T11:30:00" ]} _ _)).
  vm_compute. left. reflexivity.
Defined.

(** Pieces of a space, a no-break space and nothing are all blank. *)
Lemma blank_room_emails_are_refused_witness :
  MeetingRoom.handleCheckAvailability string (gmap string string)
    NfdDesk.requiredOf NfdDesk.optionalOf calendar "graph-token"
    {[ "room_emails" := ", ," +:+ utf8 0xA0 +:+ ","; "start_time" := "10:00";
       "end_time" := "11:00" ]}
  = (Throws "At least one room email is required", []).
Proof.
  refine (proj1 (blank_room_emails_are_refused string (gmap string string)
                   NfdDesk.requiredOf NfdDesk.optionalOf calendar "graph-token"
                   {[ "room_emails" := ", ," +:+ utf8 0xA0 +:+ ","; "start_time" := "10:00";
                      "end_time" := "11:00" ]}
                   (", ," +:+ utf8 0xA0 +:+ ",") "10:00" "11:00" None
                   _ eq_refl eq_refl eq_refl) _).
  - reflexivity.
  - change (Forall blank [""; " "; utf8 0xA0; ""]).
    repeat (constructor; [now apply trim_empty_iff|]). constructor.
Defined.

(** On the calendar of the fixtures: Zeus, free for two slots, is reported
    available; Hera, free for three, is reported busy. *)
Lemma availability_answer_witness :
  exists request value,
    snd (MeetingRoom.handleCheckAvailability string (gmap string string)
           NfdDesk.requiredOf NfdDesk.optionalOf calendar "graph-token"
           {[ "room_emails" := "zeus@rooms.example,hera@rooms.example";
              "start_time" := "10:00"; "end_time" := "11:30" ]})
    = [request]
    /\ calendar request = GraphData string (Returns value)
    /\ Forall2 (fun r s =>
                  room string r = scheduleId string s
                  /\ view string r = availabilityView string s
                  /\ items string r = scheduleItems string s
                  /\ (available string r = "YES"
                      <-> availabilityView string s = Some "0"
                          \/ availabilityView string s = Some "00")
                  /\ (available string r <> "YES" -> available string r = "NO (busy)"))
         [ {| room := Some "zeus@rooms.example"; available := "YES"; view := Some "00";
              items := None |};
           {| room := Some "hera@rooms.example"; available := "NO (busy)";
              view := Some "000"; items := Some "[]" |} ]
         (nullish value []).
Proof.
  exact (proj1 (availability_answer string (gmap string string) NfdDesk.requiredOf
                  NfdDesk.optionalOf calendar "graph-token"
                  {[ "room_emails" := "zeus@rooms.example,hera@rooms.example";
                     "start_time" := "10:00"; "end_time" := "11:30" ]}
                  [ {| room := Some "zeus@rooms.example"; available := "YES";
                       view := Some "00"; items := None |};
                    {| room := Some "hera@rooms.example"; available := "NO (busy)";
                       view := Some "000"; items := Some "[]" |} ]
                  eq_refl)).
Defined.

End MeetingRoomFacts.
